(** * majik-money: the amount engine of [MajikMoney], embedded in Rocq

    The development follows [src/majik-money.ts] and [src/currency.ts].

    - [Num]  : JavaScript [number] values (IEEE 754 binary64), as the
               [spec_float] of the Standard Library with [prec = 53] and
               [emax = 1024].
    - [Dec]  : the part of decimal.js the class relies on, under the
               configuration the source installs with [Decimal.set]:
               [precision = 40], [rounding = ROUND_HALF_EVEN],
               [toExpNeg = -20], [toExpPos = 50].
    - [Money]: the class [MajikMoney], method by method, in an error monad.

    What is abstracted from decimal.js: the sign of zero is not tracked, and
    the exponent limits [maxE]/[minE] (9e15) are not modelled. *)

From Stdlib Require Import ZArith Lia List Bool Ascii String.
From Stdlib Require Import Floats.SpecFloat.
From stdpp Require Import gmap strings.

Local Open Scope Z_scope.

(* ===================================================================== *)
(** ** Errors and the error monad                                          *)
(* ===================================================================== *)

(** The source throws plain [Error] objects; the constructors name the
    throw sites by kind. *)
Inductive Error :=
  | UnsupportedCurrency   (* 'Unsupported currency', `Unsupported currency ${code}` *)
  | InvalidCurrencyType   (* 'Invalid currency type. Expected string.' *)
  | CurrencyMismatch      (* `Currency mismatch: a vs b`, "Currency mismatch in sum", ... *)
  | DivisionByZero        (* "Cannot divide by zero money amount", "Division by zero in MajikMoney.ratio()" *)
  | InvalidAllocation     (* "Number of parts must be > 0" *)
  | EmptySequence         (* "No values provided" *)
  | LengthMismatch        (* "Values and weights length mismatch" *)
  | DecimalError          (* decimal.js: "[DecimalError] Invalid argument" *)
  | RangeError            (* Array(parts): "Invalid array length" *)
  | TypeError.            (* property access on undefined *)

Inductive result (A : Type) : Type :=
  | Ok (a : A)
  | Throw (e : Error).
Arguments Ok {A} a.
Arguments Throw {A} e.

Definition bind {A B : Type} (r : result A) (k : A -> result B) : result B :=
  match r with
  | Ok a => k a
  | Throw e => Throw e
  end.

Notation "'let*' x ':=' r 'in' k" := (bind r (fun x => k))
  (at level 10, x name, r at level 100, k at level 200).

Definition is_ok {A : Type} (r : result A) : bool :=
  match r with Ok _ => true | Throw _ => false end.

(* ===================================================================== *)
(** ** JavaScript numbers                                                  *)
(* ===================================================================== *)

Module Num.

Definition prec : Z := 53.
Definition emax : Z := 1024.

Definition number := spec_float.

Definition NaN : number := S754_nan.
Definition Infinity : number := S754_infinity false.
Definition zero : number := S754_zero false.

(** The number nearest to an integer (ties to even). *)
Definition of_Z (z : Z) : number := binary_normalize prec emax z 0 false.

Definition add : number -> number -> number := SFadd prec emax.
Definition sub : number -> number -> number := SFsub prec emax.
Definition leb : number -> number -> bool := SFleb.
Definition ltb : number -> number -> bool := SFltb.

(** The integer a number denotes, when it denotes one. *)
Definition to_Z (x : number) : option Z :=
  match x with
  | S754_zero _ => Some 0
  | S754_finite s m e =>
      let v := if 0 <=? e then Z.pos m * 2 ^ e
               else Z.pos m / 2 ^ (- e) in
      if (0 <=? e) || (Z.pos m mod 2 ^ (- e) =? 0)
      then Some (if s then - v else v)
      else None
  | _ => None
  end.

End Num.

(* ===================================================================== *)
(** ** decimal.js                                                          *)
(* ===================================================================== *)

Module Dec.

Inductive Rounding :=
  | ROUND_UP | ROUND_DOWN | ROUND_CEIL | ROUND_FLOOR
  | ROUND_HALF_UP | ROUND_HALF_DOWN | ROUND_HALF_EVEN
  | ROUND_HALF_CEIL | ROUND_HALF_FLOOR.

(** A finite value [Fin m s] is [m / 10^s]; the canonical form has no
    trailing zero among its [s] fractional digits, so that an integer is
    [Fin n 0]. *)
Inductive Decimal :=
  | NaN
  | Inf (neg : bool)
  | Fin (m : Z) (s : nat).

(** [Decimal.set({ precision: 40, rounding: Decimal.ROUND_HALF_EVEN,
    toExpNeg: -20, toExpPos: 50 })] *)
Definition precision : Z := 40.
Definition rounding : Rounding := ROUND_HALF_EVEN.
Definition toExpNeg : Z := -20.
Definition toExpPos : Z := 50.

Definition pow10 (k : nat) : Z := 10 ^ Z.of_nat k.

(** [p / q] rounded to an integer, for [0 < q]. *)
Definition round_div (rm : Rounding) (p q : Z) : Z :=
  let f := p / q in
  let r := p mod q in
  if r =? 0 then f
  else
    let up := f + 1 in
    let away := if 0 <? p then up else f in
    let toward := if 0 <? p then f else up in
    match rm with
    | ROUND_UP => away
    | ROUND_DOWN => toward
    | ROUND_CEIL => up
    | ROUND_FLOOR => f
    | _ =>
        match 2 * r ?= q with
        | Lt => f
        | Gt => up
        | Eq =>
            match rm with
            | ROUND_HALF_UP => away
            | ROUND_HALF_DOWN => toward
            | ROUND_HALF_EVEN => if Z.even f then f else up
            | ROUND_HALF_CEIL => up
            | _ => f
            end
        end
    end.

(** Trailing fractional zeros are dropped. *)
Fixpoint normalise (m : Z) (s : nat) : Decimal :=
  match s with
  | O => Fin m 0
  | S s' => if m mod 10 =? 0 then normalise (m / 10) s' else Fin m s
  end.

Fixpoint ndigits_aux (fuel : nat) (n : Z) : Z :=
  match fuel with
  | O => 0
  | S f => if n <? 10 then 1 else 1 + ndigits_aux f (n / 10)
  end.

(** Number of decimal digits of [n >= 0]. *)
Definition ndigits (n : Z) : Z := ndigits_aux (S (Z.to_nat (Z.log2 n))) n.

(** The exact value [m / 10^s] rounded to [precision] significant digits. *)
Definition finalise (rm : Rounding) (m : Z) (s : nat) : Decimal :=
  if Z.abs m <? 10 ^ precision then normalise m s
  else
    let k := ndigits (Z.abs m) - precision in
    let m' := round_div rm m (10 ^ k) in
    if k <=? Z.of_nat s then normalise m' (s - Z.to_nat k)
    else Fin (m' * 10 ^ (k - Z.of_nat s)) 0.

(** [p / q] for [0 < q], rounded to [precision] significant digits. *)
Definition quotient (rm : Rounding) (p q : Z) : Decimal :=
  if p =? 0 then Fin 0 0
  else
    let t := precision + ndigits q - ndigits (Z.abs p) in
    let num := p * 10 ^ Z.max 0 t in
    let den := q * 10 ^ Z.max 0 (- t) in
    let '(den, t) :=
      if den * 10 ^ precision <=? Z.abs num then (den * 10, t - 1) else (den, t) in
    let m := round_div rm num den in
    if 0 <=? t then normalise m (Z.to_nat t) else Fin (m * 10 ^ (- t)) 0.

Definition neg (x : Decimal) : Decimal :=
  match x with
  | NaN => NaN
  | Inf b => Inf (negb b)
  | Fin m s => Fin (- m) s
  end.

Definition abs (x : Decimal) : Decimal :=
  match x with
  | NaN => NaN
  | Inf _ => Inf false
  | Fin m s => Fin (Z.abs m) s
  end.

Definition isZero (x : Decimal) : bool :=
  match x with Fin 0 _ => true | _ => false end.

Definition isFinite (x : Decimal) : bool :=
  match x with Fin _ _ => true | _ => false end.

Definition isInteger (x : Decimal) : bool :=
  match x with Fin _ O => true | _ => false end.

Definition add (x y : Decimal) : Decimal :=
  match x, y with
  | NaN, _ | _, NaN => NaN
  | Inf a, Inf b => if Bool.eqb a b then Inf a else NaN
  | Inf a, Fin _ _ => Inf a
  | Fin _ _, Inf b => Inf b
  | Fin m1 s1, Fin m2 s2 =>
      let s := Nat.max s1 s2 in
      finalise rounding (m1 * pow10 (s - s1) + m2 * pow10 (s - s2)) s
  end.

Definition sub (x y : Decimal) : Decimal := add x (neg y).

Definition mul (x y : Decimal) : Decimal :=
  match x, y with
  | NaN, _ | _, NaN => NaN
  | Inf a, Inf b => Inf (xorb a b)
  | Inf a, Fin m _ => if m =? 0 then NaN else Inf (xorb a (m <? 0))
  | Fin m _, Inf b => if m =? 0 then NaN else Inf (xorb (m <? 0) b)
  | Fin m1 s1, Fin m2 s2 => finalise rounding (m1 * m2) (s1 + s2)
  end.

Definition div (x y : Decimal) : Decimal :=
  match x, y with
  | NaN, _ | _, NaN => NaN
  | Inf _, Inf _ => NaN
  | Inf a, Fin m _ => Inf (xorb a (m <? 0))
  | Fin _ _, Inf _ => Fin 0 0
  | Fin m1 s1, Fin m2 s2 =>
      if m2 =? 0 then (if m1 =? 0 then NaN else Inf (m1 <? 0))
      else
        let p := m1 * pow10 s2 in
        let q := m2 * pow10 s1 in
        if 0 <? q then quotient rounding p q else quotient rounding (- p) (- q)
  end.

(** Three-way comparison; [None] when an operand is [NaN]. *)
Definition cmp (x y : Decimal) : option comparison :=
  match x, y with
  | NaN, _ | _, NaN => None
  | Inf a, Inf b => Some (if a then (if b then Eq else Lt) else (if b then Gt else Eq))
  | Inf a, Fin _ _ => Some (if a then Lt else Gt)
  | Fin _ _, Inf b => Some (if b then Gt else Lt)
  | Fin m1 s1, Fin m2 s2 =>
      let s := Nat.max s1 s2 in
      Some (m1 * pow10 (s - s1) ?= m2 * pow10 (s - s2))
  end.

Definition equals (x y : Decimal) : bool :=
  match cmp x y with Some Eq => true | _ => false end.
Definition gt (x y : Decimal) : bool :=
  match cmp x y with Some Gt => true | _ => false end.
Definition lt (x y : Decimal) : bool :=
  match cmp x y with Some Lt => true | _ => false end.
Definition gte (x y : Decimal) : bool :=
  match cmp x y with Some Gt | Some Eq => true | _ => false end.
Definition lte (x y : Decimal) : bool :=
  match cmp x y with Some Lt | Some Eq => true | _ => false end.

(** [x.toDecimalPlaces(dp, rm)] *)
Definition toDecimalPlaces (x : Decimal) (dp : nat) (rm : Rounding) : Decimal :=
  match x with
  | Fin m s =>
      if (s <=? dp)%nat then Fin m s
      else normalise (round_div rm m (pow10 (s - dp))) dp
  | _ => x
  end.

End Dec.

Import Dec.

(* ===================================================================== *)
(** ** Numbers and decimals read as one another                            *)
(* ===================================================================== *)

Module Conv.

Import Num.

(** [x.toNumber()]: the number nearest to the decimal (ties to even), as
    [Number(x.valueOf())] computes it. The quotient keeps at least 60
    bits and a sticky bit, which [binary_normalize] then rounds. *)
Definition toNumber (x : Decimal) : number :=
  match x with
  | Dec.NaN => S754_nan
  | Inf b => S754_infinity b
  | Fin m s =>
      if m =? 0 then S754_zero false
      else
        let p := Z.abs m in
        let q := pow10 s in
        let b := Z.max 0 (60 + Z.log2 q - Z.log2 p) in
        let n := p * 2 ^ b in
        let sticky := if n mod q =? 0 then 0 else 1 in
        let mant := 2 * (n / q) + sticky in
        binary_normalize prec emax (if m <? 0 then - mant else mant) (- b - 1) false
  end.

(** The decimal exponent [n] of [P / Q > 0]: [10^(n-1) <= P/Q < 10^n]. *)
Definition dec_exponent (P Q : Z) : Z :=
  let n0 := ndigits P - ndigits Q in
  if Q * 10 ^ Z.max 0 n0 <=? P * 10 ^ Z.max 0 (- n0) then n0 + 1 else n0.

Definition within (incl : bool) (lo hi c : Z) : bool :=
  if incl then (lo <=? c) && (c <=? hi) else (lo <? c) && (c <? hi).

(** One step of Number::toString for the finite number [m * 2^e]: the
    [k]-digit decimals [d * 10^(n-k)] on either side of it, kept when they
    read back as the same number; the nearer one wins, the even one on a
    tie. Quantities are in units of [2^(e-2)]: the number is [4m], and it
    is the nearest number to everything between [lo4] and [hi4]. *)
Definition digits_at (m e n k : Z) : option (Z * Z) :=
  let x := n - k in
  let boundary := (Z.log2 m =? 52) && (m =? 2 ^ 52) && (-1074 <? e) in
  let lo4 := if boundary then 4 * m - 1 else 4 * m - 2 in
  let hi4 := 4 * m + 2 in
  let A := 10 ^ Z.max 0 x * 2 ^ Z.max 0 (2 - e) in
  let B := 2 ^ Z.max 0 (e - 2) * 10 ^ Z.max 0 (- x) in
  let incl := Z.even m in
  let d1 := (4 * m * B) / A in
  let d2 := d1 + 1 in
  let ok1 := within incl (lo4 * B) (hi4 * B) (d1 * A) in
  let ok2 := within incl (lo4 * B) (hi4 * B) (d2 * A) in
  let nearer :=
    match (4 * m * B - d1 * A) ?= (d2 * A - 4 * m * B) with
    | Lt => d1
    | Gt => d2
    | Eq => if Z.even d1 then d1 else d2
    end in
  match ok1, ok2 with
  | true, true => Some (nearer, x)
  | true, false => Some (d1, x)
  | false, true => Some (d2, x)
  | false, false => None
  end.

Fixpoint shortest_from (fuel : nat) (m e n k : Z) : Z * Z :=
  match fuel with
  | O => ((m * 2 ^ Z.max 0 e * 10 ^ Z.max 0 (k - n)) / 2 ^ Z.max 0 (- e), n - k)
  | S fuel' =>
      match digits_at m e n k with
      | Some r => r
      | None => shortest_from fuel' m e n (k + 1)
      end
  end.

(** The digits [d] and exponent [x] of Number::toString: the shortest
    decimal [d * 10^x] that reads back as [m * 2^e]. *)
Definition shortest (m e : Z) : Z * Z :=
  let n := dec_exponent (m * 2 ^ Z.max 0 e) (2 ^ Z.max 0 (- e)) in
  shortest_from 17 m e n 1.

(** [new Decimal(v)] for a number [v]: decimal.js reads [v.toString()]. *)
Definition ofNumber (v : number) : Decimal :=
  match v with
  | S754_nan => Dec.NaN
  | S754_infinity b => Inf b
  | S754_zero _ => Fin 0 0
  | S754_finite sg m e =>
      let '(d, x) := shortest (Z.pos m) e in
      let d := if sg then - d else d in
      if 0 <=? x then Fin (d * 10 ^ x) 0 else normalise d (Z.to_nat (- x))
  end.

End Conv.

(* ===================================================================== *)
(** ** Decimals and strings                                                *)
(* ===================================================================== *)

Module Str.

Definition chars := list ascii.

Definition is_digit (c : ascii) : bool :=
  (48 <=? nat_of_ascii c)%nat && (nat_of_ascii c <=? 57)%nat.

Definition digit_char (d : Z) : ascii := ascii_of_nat (48 + Z.to_nat d).
Definition digit_val (c : ascii) : Z := Z.of_nat (nat_of_ascii c) - 48.

Definition all_digits (s : chars) : bool := forallb is_digit s.

(** The number a digit string denotes, most significant digit first. *)
Definition digits_value (s : chars) : Z :=
  fold_left (fun acc c => 10 * acc + digit_val c) s 0.

Fixpoint digits_aux (fuel : nat) (n : Z) : chars :=
  match fuel with
  | O => []
  | S f => (if n <? 10 then [] else digits_aux f (n / 10)) ++ [digit_char (n mod 10)]
  end.

(** The decimal digits of [n >= 0]. *)
Definition digits (n : Z) : chars := digits_aux (S (Z.to_nat (Z.log2 n))) n.

(** A signed integer, as JavaScript prints it. *)
Definition of_Z (n : Z) : chars :=
  if n <? 0 then "-"%char :: digits (- n) else digits n.

Fixpoint strip_aux (fuel : nat) (n z : Z) : Z * Z :=
  match fuel with
  | O => (n, z)
  | S f => if n mod 10 =? 0 then strip_aux f (n / 10) (z + 1) else (n, z)
  end.

(** [n > 0] without its trailing zeros, and their count. *)
Definition strip_zeros (n : Z) : Z * Z := strip_aux (Z.to_nat (Z.log2 n)) n 0.

(** [x.toString()] (decimal.js [finiteToString] under [toExpNeg] and
    [toExpPos]). *)
Definition toString (x : Decimal) : string :=
  match x with
  | Dec.NaN => "NaN"
  | Inf b => if b then "-Infinity" else "Infinity"
  | Fin m s =>
      if m =? 0 then "0"
      else
        let '(c, z) := match s with O => strip_zeros (Z.abs m) | _ => (Z.abs m, 0) end in
        let ds := digits c in
        let len := Z.of_nat (length ds) in
        let e := len + z - 1 - Z.of_nat s in
        let body :=
          if (e <=? toExpNeg) || (toExpPos <=? e) then
            firstn 1 ds ++ (if 1 <? len then "."%char :: skipn 1 ds else [])
              ++ "e"%char :: (if e <? 0 then [] else ["+"%char]) ++ of_Z e
          else if e <? 0 then
            "0"%char :: "."%char :: repeat "0"%char (Z.to_nat (- e - 1)) ++ ds
          else if len <=? e + 1 then
            ds ++ repeat "0"%char (Z.to_nat (e + 1 - len))
          else
            firstn (Z.to_nat (e + 1)) ds ++ "."%char :: skipn (Z.to_nat (e + 1)) ds in
        string_of_list_ascii (if m <? 0 then "-"%char :: body else body)
  end.

(** The text before the first character satisfying [p], and the text
    after it when there is one. *)
Fixpoint split_at (p : ascii -> bool) (s : chars) : chars * option chars :=
  match s with
  | [] => ([], None)
  | c :: r =>
      if p c then ([], Some r)
      else let '(a, b) := split_at p r in (c :: a, b)
  end.

Definition is_e (c : ascii) : bool :=
  Ascii.eqb c "e"%char || Ascii.eqb c "E"%char.
Definition is_dot (c : ascii) : bool := Ascii.eqb c "."%char.

Definition nonempty (s : chars) : bool :=
  match s with [] => false | _ => true end.

(** The exponent part of a decimal literal: an optional sign, then one
    digit or more. *)
Definition parse_exponent (s : chars) : option Z :=
  let '(sg, body) :=
    match s with
    | c :: r =>
        if Ascii.eqb c "-"%char then (true, r)
        else if Ascii.eqb c "+"%char then (false, r)
        else (false, s)
    | [] => (false, s)
    end in
  if nonempty body && all_digits body
  then Some (if sg then - digits_value body else digits_value body)
  else None.

(** An unsigned decimal literal ([isDecimal] and [parseDecimal] of
    decimal.js): digits with an optional point and fraction, or a point
    and a fraction, then an optional exponent part after [e] or [E]. *)
Definition parse_decimal (s : chars) : option Decimal :=
  let '(mant, ex) := split_at is_e s in
  let '(ip, fp) := split_at is_dot mant in
  let fd := match fp with Some f => f | None => [] end in
  let mant_ok :=
    all_digits ip && all_digits fd &&
    match fp with
    | None => nonempty ip
    | Some f => nonempty ip || nonempty f
    end in
  let exponent :=
    match ex with
    | None => Some 0
    | Some e => parse_exponent e
    end in
  match mant_ok, exponent with
  | true, Some x =>
      let m := digits_value (ip ++ fd) in
      let sh := x - Z.of_nat (length fd) in
      Some (if 0 <=? sh then Fin (m * 10 ^ sh) 0 else normalise m (Z.to_nat (- sh)))
  | _, _ => None
  end.

(** [new Decimal(str)]. Literals with a radix prefix ([0x], [0b], [0o]),
    which decimal.js also reads, are outside this model and rejected. *)
Definition parse (str : string) : result Decimal :=
  let s := list_ascii_of_string str in
  let '(sg, body) :=
    match s with
    | c :: r =>
        if Ascii.eqb c "-"%char then (true, r)
        else if Ascii.eqb c "+"%char then (false, r)
        else (false, s)
    | [] => (false, s)
    end in
  match parse_decimal body with
  | Some d => Ok (if sg then neg d else d)
  | None =>
      if String.eqb (string_of_list_ascii body) "Infinity" then Ok (Inf sg)
      else if String.eqb (string_of_list_ascii body) "NaN" then Ok Dec.NaN
      else Throw DecimalError
  end.

End Str.

(* ===================================================================== *)
(** ** The currency table ([src/currency.ts])                              *)
(* ===================================================================== *)

Record CurrencyDefinition := {
  code : string;
  symbol : string;
  minorUnits : nat;
  name : string
}.

Local Open Scope string_scope.

Definition CURRENCIES : gmap string CurrencyDefinition :=
  list_to_map [
      ("USD", {| code := "USD"; name := "US Dollar"; symbol := "$"; minorUnits := 2 |});
      ("EUR", {| code := "EUR"; name := "Euro"; symbol := "€"; minorUnits := 2 |});
      ("JPY", {| code := "JPY"; name := "Yen"; symbol := "¥"; minorUnits := 0 |});
      ("GBP", {| code := "GBP"; name := "Pound Sterling"; symbol := "£"; minorUnits := 2 |});
      ("CHF", {| code := "CHF"; name := "Swiss Franc"; symbol := "CHF"; minorUnits := 2 |});
      ("AUD", {| code := "AUD"; name := "Australian Dollar"; symbol := "$"; minorUnits := 2 |});
      ("CAD", {| code := "CAD"; name := "Canadian Dollar"; symbol := "$"; minorUnits := 2 |});
      ("CNY", {| code := "CNY"; name := "Yuan Renminbi"; symbol := "¥"; minorUnits := 2 |});
      ("HKD", {| code := "HKD"; name := "Hong Kong Dollar"; symbol := "$"; minorUnits := 2 |});
      ("SGD", {| code := "SGD"; name := "Singapore Dollar"; symbol := "$"; minorUnits := 2 |});
      ("PHP", {| code := "PHP"; name := "Philippine Peso"; symbol := "₱"; minorUnits := 2 |});
      ("KRW", {| code := "KRW"; name := "Won"; symbol := "₩"; minorUnits := 0 |});
      ("INR", {| code := "INR"; name := "Indian Rupee"; symbol := "₹"; minorUnits := 2 |});
      ("IDR", {| code := "IDR"; name := "Rupiah"; symbol := "Rp"; minorUnits := 2 |});
      ("THB", {| code := "THB"; name := "Baht"; symbol := "฿"; minorUnits := 2 |});
      ("MYR", {| code := "MYR"; name := "Ringgit"; symbol := "RM"; minorUnits := 2 |});
      ("VND", {| code := "VND"; name := "Dong"; symbol := "₫"; minorUnits := 0 |});
      ("KWD", {| code := "KWD"; name := "Kuwaiti Dinar"; symbol := "د.ك"; minorUnits := 3 |});
      ("BHD", {| code := "BHD"; name := "Bahraini Dinar"; symbol := ".د.ب"; minorUnits := 3 |});
      ("JOD", {| code := "JOD"; name := "Jordanian Dinar"; symbol := "د.ا"; minorUnits := 3 |});
      ("CLP", {| code := "CLP"; name := "Chilean Peso"; symbol := "$"; minorUnits := 0 |});
      ("COP", {| code := "COP"; name := "Colombian Peso"; symbol := "$"; minorUnits := 2 |});
      ("MXN", {| code := "MXN"; name := "Mexican Peso"; symbol := "$"; minorUnits := 2 |});
      ("BRL", {| code := "BRL"; name := "Brazilian Real"; symbol := "R$"; minorUnits := 2 |});
      ("ARS", {| code := "ARS"; name := "Argentine Peso"; symbol := "$"; minorUnits := 2 |});
      ("ZAR", {| code := "ZAR"; name := "Rand"; symbol := "R"; minorUnits := 2 |});
      ("NGN", {| code := "NGN"; name := "Naira"; symbol := "₦"; minorUnits := 2 |});
      ("KES", {| code := "KES"; name := "Kenyan Shilling"; symbol := "KSh"; minorUnits := 2 |});
      ("EGP", {| code := "EGP"; name := "Egyptian Pound"; symbol := "£"; minorUnits := 2 |});
      ("RUB", {| code := "RUB"; name := "Russian Ruble"; symbol := "₽"; minorUnits := 2 |});
      ("TRY", {| code := "TRY"; name := "Turkish Lira"; symbol := "₺"; minorUnits := 2 |});
      ("PLN", {| code := "PLN"; name := "Zloty"; symbol := "zł"; minorUnits := 2 |});
      ("CZK", {| code := "CZK"; name := "Czech Koruna"; symbol := "Kč"; minorUnits := 2 |});
      ("HUF", {| code := "HUF"; name := "Forint"; symbol := "Ft"; minorUnits := 2 |})
  ].

Local Close Scope string_scope.

(* ===================================================================== *)
(** ** The class [MajikMoney] ([src/majik-money.ts])                       *)
(* ===================================================================== *)

(** [Decimal.Value]: what the Decimal constructor accepts. *)
Inductive Value :=
  | VNum (n : Num.number)
  | VStr (s : string)
  | VDec (d : Decimal).

(** [new Decimal(v)] *)
Definition new_Decimal (v : Value) : result Decimal :=
  match v with
  | VNum n => Ok (Conv.ofNumber n)
  | VStr s => Str.parse s
  | VDec d => Ok d
  end.

(** [new Decimal(10).pow(k)] for the minor-unit count [k]: a power of ten
    has one significant digit, so nothing is rounded. *)
Definition ten_pow (k : nat) : Decimal := Fin (pow10 k) 0.

Record MajikMoney := {
  amount : Decimal;
  currency : CurrencyDefinition
}.

(** [MajikMoneyJSON]. [json_currency] is [None] when the field is absent
    or not a string. *)
Record MajikMoneyJSON := {
  json_type : option string;
  json_amount : Value;
  json_currency : option string
}.

Module Money.

(** The constructor. An [undefined] currency takes the default
    [CURRENCIES['PHP']]; [toDecimalPlaces(0)] rounds with
    [Decimal.rounding]. *)
Definition new (amount : Value) (currency : option CurrencyDefinition)
  : result MajikMoney :=
  let* d := new_Decimal amount in
  match (match currency with Some c => Some c | None => CURRENCIES !! "PHP"%string end) with
  | Some c => Ok {| amount := toDecimalPlaces d 0 rounding; currency := c |}
  | None => Throw TypeError
  end.

Definition fromMinor (minor : Value) (currencyCode : string) : result MajikMoney :=
  let currency := CURRENCIES !! currencyCode in
  new minor currency.

Definition fromMajor (amount : Value) (currencyCode : string) (rounding : Rounding)
  : result MajikMoney :=
  match CURRENCIES !! currencyCode with
  | None => Throw UnsupportedCurrency
  | Some currency =>
      let factor := ten_pow (minorUnits currency) in
      let* a := new_Decimal amount in
      let minor := mul a factor in
      new (VDec (toDecimalPlaces minor 0 rounding)) (Some currency)
  end.

Definition parseFromJSON (data : MajikMoneyJSON) : result MajikMoney :=
  match json_currency data with
  | None => Throw InvalidCurrencyType
  | Some c =>
      match CURRENCIES !! c with
      | None => Throw UnsupportedCurrency
      | Some currency => new (json_amount data) (Some currency)
      end
  end.

(** *** Conversions *)

Definition toMajorDecimal (this : MajikMoney) : Decimal :=
  div (amount this) (ten_pow (minorUnits (currency this))).

Definition toMajor (this : MajikMoney) : Num.number :=
  Conv.toNumber (div (amount this) (ten_pow (minorUnits (currency this)))).

Definition toMinor (this : MajikMoney) : Num.number :=
  Conv.toNumber (amount this).

(** *** Arithmetic *)

Definition assertSameCurrency (this other : MajikMoney) : result unit :=
  if String.eqb (code (currency this)) (code (currency other))
  then Ok tt
  else Throw CurrencyMismatch.

Definition add (this other : MajikMoney) : result MajikMoney :=
  let* _ := assertSameCurrency this other in
  new (VDec (Dec.add (amount this) (amount other))) (Some (currency this)).

Definition subtract (this other : MajikMoney) : result MajikMoney :=
  let* _ := assertSameCurrency this other in
  new (VDec (Dec.sub (amount this) (amount other))) (Some (currency this)).

Definition multiply (this : MajikMoney) (factor : Value) (rounding : Rounding)
  : result MajikMoney :=
  let* f := new_Decimal factor in
  let result := mul (amount this) f in
  new (VDec (toDecimalPlaces result 0 rounding)) (Some (currency this)).

Definition divide (this : MajikMoney) (divisor : Value) (rounding : Rounding)
  : result MajikMoney :=
  let* d := new_Decimal divisor in
  let result := div (amount this) d in
  new (VDec (toDecimalPlaces result 0 rounding)) (Some (currency this)).

Definition invertDivide (this : MajikMoney) (dividend : Value) (rounding : Rounding)
  : result MajikMoney :=
  let majorThis := toMajorDecimal this in
  if isZero majorThis then Throw DivisionByZero
  else
    let* d := new_Decimal dividend in
    let resultMajor := div d majorThis in
    fromMajor (VDec resultMajor) (code (currency this)) rounding.

Definition ratio (this other : MajikMoney) : result Num.number :=
  let* _ := assertSameCurrency this other in
  if isZero (amount other) then Throw DivisionByZero
  else Ok (Conv.toNumber (div (amount this) (amount other))).

Definition equals (this other : MajikMoney) : bool :=
  String.eqb (code (currency this)) (code (currency other))
  && Dec.equals (amount this) (amount other).

Definition isZero (this : MajikMoney) : bool := Dec.isZero (amount this).
Definition isPositive (this : MajikMoney) : bool := Dec.gt (amount this) (Fin 0 0).
Definition isNegative (this : MajikMoney) : bool := Dec.lt (amount this) (Fin 0 0).

Definition negate (this : MajikMoney) : result MajikMoney :=
  new (VDec (neg (amount this))) (Some (currency this)).

Definition abs (this : MajikMoney) : result MajikMoney :=
  new (VDec (Dec.abs (amount this))) (Some (currency this)).

Definition greaterThan (this other : MajikMoney) : result bool :=
  let* _ := assertSameCurrency this other in
  Ok (Dec.gt (amount this) (amount other)).

Definition lessThan (this other : MajikMoney) : result bool :=
  let* _ := assertSameCurrency this other in
  Ok (Dec.lt (amount this) (amount other)).

Definition greaterThanOrEqual (this other : MajikMoney) : result bool :=
  let* _ := assertSameCurrency this other in
  Ok (Dec.gte (amount this) (amount other)).

Definition lessThanOrEqual (this other : MajikMoney) : result bool :=
  let* _ := assertSameCurrency this other in
  Ok (Dec.lte (amount this) (amount other)).

(** *** Percentages and compounding *)

Definition applyPercentage (this : MajikMoney) (rate : Value) (rounding : Rounding)
  : result MajikMoney :=
  multiply this rate rounding.

Definition addPercentage (this : MajikMoney) (rate : Value) (rounding : Rounding)
  : result MajikMoney :=
  let* p := multiply this rate rounding in
  add this p.

Definition subtractPercentage (this : MajikMoney) (rate : Value) (rounding : Rounding)
  : result MajikMoney :=
  let* p := multiply this rate rounding in
  subtract this p.

(** [compound]. The power function of decimal.js is not modelled: it is
    the parameter [pow]. *)
Definition compound (pow : Decimal -> Num.number -> Decimal)
    (this : MajikMoney) (rate : Value) (periods : Num.number) (rounding : Rounding)
  : result MajikMoney :=
  let* r := new_Decimal rate in
  let factor := pow (Dec.add (Fin 1 0) r) periods in
  multiply this (VDec factor) rounding.

(** *** Allocation *)

(** The callback of [ratios.map] in [allocate], run from index [i] on;
    [remainder] is the variable the callback updates. *)
Fixpoint allocate_from (this : MajikMoney) (total : Num.number) (len : nat)
    (i : nat) (ratios : list Num.number) (remainder : Decimal)
  : result (list MajikMoney) :=
  match ratios with
  | [] => Ok []
  | ratio :: rest =>
      let share :=
        toDecimalPlaces
          (div (mul (amount this) (Conv.ofNumber ratio)) (Conv.ofNumber total))
          0 ROUND_DOWN in
      let remainder := Dec.sub remainder share in
      let* part :=
        new (VDec (if (i =? len - 1)%nat then Dec.add share remainder else share))
            (Some (currency this)) in
      let* parts := allocate_from this total len (S i) rest remainder in
      Ok (part :: parts)
  end.

Definition allocate (this : MajikMoney) (ratios : list Num.number)
  : result (list MajikMoney) :=
  let total := fold_left Num.add ratios Num.zero in
  let remainder := amount this in
  allocate_from this total (length ratios) 0 ratios remainder.

(** [evenSplit]. [Array(parts)] throws a RangeError unless [parts] is an
    integer below [2^32]. *)
Definition evenSplit (this : MajikMoney) (parts : Num.number)
  : result (list MajikMoney) :=
  if Num.leb parts Num.zero then Throw InvalidAllocation
  else
    match Num.to_Z parts with
    | Some n =>
        if n <? 2 ^ 32 then allocate this (repeat (Num.of_Z 1) (Z.to_nat n))
        else Throw RangeError
    | None => Throw RangeError
    end.

(** *** Currency conversion *)

Definition convert (this : MajikMoney) (rate : Value)
    (targetCurrency : CurrencyDefinition) (rounding : Rounding)
  : result MajikMoney :=
  let majorSource := toMajor this in
  let* r := new_Decimal rate in
  let majorTarget := mul (Conv.ofNumber majorSource) r in
  fromMajor (VDec majorTarget) (code targetCurrency) rounding.

Definition convertFromQuoted (this : MajikMoney) (quotedRate : Value)
    (targetCurrency : CurrencyDefinition) (rounding : Rounding)
  : result MajikMoney :=
  let* q := new_Decimal quotedRate in
  let rate := div (Fin 1 0) q in
  convert this (VDec rate) targetCurrency rounding.

(** *** Statistics *)

Definition sum (values : list MajikMoney) : result MajikMoney :=
  match values with
  | [] => Throw EmptySequence
  | v0 :: _ =>
      let cur := currency v0 in
      let* zero := fromMinor (VNum Num.zero) (code cur) in
      fold_left
        (fun acc m =>
           let* acc := acc in
           if negb (String.eqb (code (currency m)) (code cur))
           then Throw CurrencyMismatch
           else add acc m)
        values (Ok zero)
  end.

Definition average (values : list MajikMoney) : result MajikMoney :=
  let* s := sum values in
  divide s (VNum (Num.of_Z (Z.of_nat (length values)))) rounding.

(** The loop of [weightedAverage] over [values] and the weights at the
    same indices. *)
Fixpoint weighted_loop (cur : CurrencyDefinition)
    (values : list MajikMoney) (weights : list Num.number)
    (weightedSum : MajikMoney) (totalWeight : Num.number)
  : result (MajikMoney * Num.number) :=
  match values, weights with
  | value :: values', w :: weights' =>
      if negb (String.eqb (code (currency value)) (code cur))
      then Throw CurrencyMismatch
      else
        let* p := multiply value (VNum w) rounding in
        let* weightedSum := add weightedSum p in
        weighted_loop cur values' weights' weightedSum (Num.add totalWeight w)
  | _, _ => Ok (weightedSum, totalWeight)
  end.

Definition weightedAverage (values : list MajikMoney) (weights : list Num.number)
  : result MajikMoney :=
  match values with
  | [] => Throw EmptySequence
  | v0 :: _ =>
      if negb (length values =? length weights)%nat then Throw LengthMismatch
      else
        let cur := currency v0 in
        let* zero := fromMinor (VNum Num.zero) (code cur) in
        let* r := weighted_loop cur values weights zero Num.zero in
        divide (fst r) (VNum (snd r)) rounding
  end.

(** The comparator of the sort in [median]. *)
Definition compareFn (a b : MajikMoney) : Num.number :=
  Num.sub (toMinor a) (toMinor b).

(** [Array.prototype.sort] with a comparator: stable, and [a] goes after
    [b] exactly when the comparator is positive. *)
Fixpoint insert (x : MajikMoney) (l : list MajikMoney) : list MajikMoney :=
  match l with
  | [] => [x]
  | y :: r => if Num.ltb Num.zero (compareFn x y) then y :: insert x r else x :: l
  end.

Definition sort (l : list MajikMoney) : list MajikMoney := foldr insert [] l.

Definition at_index (l : list MajikMoney) (i : nat) : result MajikMoney :=
  match l !! i with
  | Some m => Ok m
  | None => Throw TypeError
  end.

Definition median (values : list MajikMoney) : result MajikMoney :=
  match values with
  | [] => Throw EmptySequence
  | v0 :: _ =>
      let cur := currency v0 in
      if forallb (fun value => String.eqb (code (currency value)) (code cur)) values
      then
        let sorted := sort values in
        let mid := (length sorted / 2)%nat in
        if (length sorted mod 2 =? 0)%nat then
          let* a := at_index sorted (mid - 1) in
          let* b := at_index sorted mid in
          let* s := add a b in
          divide s (VNum (Num.of_Z 2)) rounding
        else at_index sorted mid
      else Throw CurrencyMismatch
  end.

(** [values.reduce(f)] without an initial value, for the callbacks of
    [min] and [max]. *)
Definition reduce1 (f : MajikMoney -> MajikMoney -> result MajikMoney)
    (values : list MajikMoney) : result MajikMoney :=
  match values with
  | [] => Throw EmptySequence
  | v0 :: rest => fold_left (fun prev curr => let* prev := prev in f prev curr) rest (Ok v0)
  end.

Definition min (values : list MajikMoney) : result MajikMoney :=
  reduce1 (fun prev curr => let* b := lessThan prev curr in Ok (if b then prev else curr))
          values.

Definition max (values : list MajikMoney) : result MajikMoney :=
  reduce1 (fun prev curr => let* b := greaterThan prev curr in Ok (if b then prev else curr))
          values.

Definition variance (values : list MajikMoney) : result MajikMoney :=
  match values with
  | [] => Throw EmptySequence
  | v0 :: _ =>
      let* avg := average values in
      let mean := toMajorDecimal avg in
      let cur := currency v0 in
      let sumSquared :=
        fold_left
          (fun acc m =>
             let diff := Dec.sub (toMajorDecimal m) mean in
             Dec.add acc (mul diff diff))
          values (Fin 0 0) in
      let varianceMajor :=
        div sumSquared (Conv.ofNumber (Num.of_Z (Z.of_nat (length values)))) in
      fromMajor (VDec varianceMajor) (code cur) rounding
  end.

(** *** Serialization *)

Definition toJSON (this : MajikMoney) : MajikMoneyJSON :=
  {| json_type := Some "MajikMoney"%string;
     json_amount := VStr (Str.toString (amount this));
     json_currency := Some (code (currency this)) |}.

(** *** Arithmetic without rounding to minor units *)

Definition multiplyDecimal (this : MajikMoney) (factor : Value) : result Decimal :=
  let* f := new_Decimal factor in
  Ok (mul (amount this) f).

Definition divideDecimal (this : MajikMoney) (divisor : Value) : result Decimal :=
  let* d := new_Decimal divisor in
  Ok (div (amount this) d).

End Money.

(* ===================================================================== *)
(** ** Recursive serialization ([serializeMoney], [deserializeMoney])      *)
(* ===================================================================== *)

(** Primitive JavaScript values. *)
Inductive Prim :=
  | PUndefined
  | PNull
  | PBool (b : bool)
  | PNumber (n : Num.number)
  | PString (s : string).

Unset Elimination Schemes.

(** Plain data: primitives, arrays and objects; the fields of an object
    are listed in the order of [Object.keys]. *)
Inductive Plain :=
  | PPrim (p : Prim)
  | PArr (items : list Plain)
  | PObj (fields : list (string * Plain)).

(** Data with [MajikMoney] instances in it. *)
Inductive Tree :=
  | TMoney (m : MajikMoney)
  | TPrim (p : Prim)
  | TArr (items : list Tree)
  | TObj (fields : list (string * Tree)).

Set Elimination Schemes.

Module Serial.

Local Open Scope string_scope.

(** [obj[key]] on a plain object: [undefined] when the key is absent. *)
Definition get (key : string) (fields : list (string * Plain)) : Plain :=
  match find (fun kv => String.eqb (fst kv) key) fields with
  | Some kv => snd kv
  | None => PPrim PUndefined
  end.

(** [serializeMoney]. A Money instance becomes the object [toJSON]
    returns, with its three fields in the order of the object literal. *)
Fixpoint serializeMoney (obj : Tree) : Plain :=
  match obj with
  | TMoney m =>
      PObj [ ("__type", PPrim (PString "MajikMoney"));
             ("amount", PPrim (PString (Str.toString (amount m))));
             ("currency", PPrim (PString (code (currency m)))) ]
  | TArr items => PArr (map serializeMoney items)
  | TObj fields =>
      PObj ((fix each (l : list (string * Tree)) : list (string * Plain) :=
               match l with
               | [] => []
               | (key, v) :: r => (key, serializeMoney v) :: each r
               end) fields)
  | TPrim p => PPrim p
  end.

(** [obj.__type === 'MajikMoney'] *)
Definition is_money (fields : list (string * Plain)) : bool :=
  match get "__type" fields with
  | PPrim (PString t) => String.eqb t "MajikMoney"
  | _ => false
  end.

(** [MajikMoney.parseFromJSON(obj)] on a plain object: the currency is
    checked first; then [new Decimal(obj.amount)] reads a string or a
    number and throws on any other value. (An object that poses as a
    Decimal instance is outside the model.) *)
Definition parse_object (fields : list (string * Plain)) : result MajikMoney :=
  let type := match get "__type" fields with PPrim (PString t) => Some t | _ => None end in
  let currency := match get "currency" fields with PPrim (PString c) => Some c | _ => None end in
  match get "amount" fields with
  | PPrim (PString s) =>
      Money.parseFromJSON
        {| json_type := type; json_amount := VStr s; json_currency := currency |}
  | PPrim (PNumber n) =>
      Money.parseFromJSON
        {| json_type := type; json_amount := VNum n; json_currency := currency |}
  | _ =>
      let* _ := Money.parseFromJSON
                  {| json_type := type; json_amount := VNum Num.zero;
                     json_currency := currency |} in
      Throw DecimalError
  end.

(** [deserializeMoney] *)
Fixpoint deserializeMoney (obj : Plain) : result Tree :=
  match obj with
  | PPrim p => Ok (TPrim p)
  | PArr items =>
      let* items' :=
        (fix each (l : list Plain) : result (list Tree) :=
           match l with
           | [] => Ok []
           | x :: r =>
               let* y := deserializeMoney x in
               let* ys := each r in
               Ok (y :: ys)
           end) items in
      Ok (TArr items')
  | PObj fields =>
      if is_money fields then
        let* m := parse_object fields in
        Ok (TMoney m)
      else
        let* fields' :=
          (fix each (l : list (string * Plain)) : result (list (string * Tree)) :=
             match l with
             | [] => Ok []
             | (key, v) :: r =>
                 let* y := deserializeMoney v in
                 let* ys := each r in
                 Ok ((key, y) :: ys)
             end) fields in
        Ok (TObj fields')
  end.

(** Plain data seen as data that happens to hold no Money. *)
Fixpoint embed (p : Plain) : Tree :=
  match p with
  | PPrim x => TPrim x
  | PArr items => TArr (map embed items)
  | PObj fields =>
      TObj ((fix each (l : list (string * Plain)) : list (string * Tree) :=
               match l with
               | [] => []
               | (key, v) :: r => (key, embed v) :: each r
               end) fields)
  end.

(** No object of the plain data carries the tag [__type: "MajikMoney"]. *)
Fixpoint untagged (p : Plain) : bool :=
  match p with
  | PPrim _ => true
  | PArr items => forallb untagged items
  | PObj fields =>
      negb (is_money fields)
      && (fix each (l : list (string * Plain)) : bool :=
            match l with
            | [] => true
            | (_, v) :: r => untagged v && each r
            end) fields
  end.

(** The tag a data object would show after serialization. *)
Definition tagged (fields : list (string * Tree)) : bool :=
  match find (fun kv => String.eqb (fst kv) "__type") fields with
  | Some (_, TPrim (PString t)) => String.eqb t "MajikMoney"
  | _ => false
  end.

(** Data that [deserializeMoney] restores: its Money instances have
    amounts at rest and currencies of the table, and none of its own
    objects carries the tag. *)
Fixpoint restorable (t : Tree) : bool :=
  match t with
  | TMoney m =>
      match amount m with
      | Fin _ (S _) => false
      | _ => true
      end
      && match CURRENCIES !! code (currency m) with
         | Some c => String.eqb (code c) (code (currency m))
                     && String.eqb (symbol c) (symbol (currency m))
                     && (minorUnits c =? minorUnits (currency m))%nat
                     && String.eqb (name c) (name (currency m))
         | None => false
         end
  | TPrim _ => true
  | TArr items => forallb restorable items
  | TObj fields =>
      negb (tagged fields)
      && (fix each (l : list (string * Tree)) : bool :=
            match l with
            | [] => true
            | (_, v) :: r => restorable v && each r
            end) fields
  end.

End Serial.

Section Tree_induction.

Variable P : Tree -> Prop.
Hypothesis Hmoney : forall m, P (TMoney m).
Hypothesis Hprim : forall p, P (TPrim p).
Hypothesis Harr : forall items, Forall P items -> P (TArr items).
Hypothesis Hobj : forall fields, Forall (fun kv => P (snd kv)) fields -> P (TObj fields).

Fixpoint Tree_induction (t : Tree) : P t :=
  match t with
  | TMoney m => Hmoney m
  | TPrim p => Hprim p
  | TArr items =>
      Harr items
        ((fix go (l : list Tree) : Forall P l :=
            match l with
            | [] => ListDef.Forall_nil P
            | x :: r => ListDef.Forall_cons P x r (Tree_induction x) (go r)
            end) items)
  | TObj fields =>
      Hobj fields
        ((fix go (l : list (string * Tree)) : Forall (fun kv => P (snd kv)) l :=
            match l with
            | [] => ListDef.Forall_nil _
            | (key, v) :: r =>
                ListDef.Forall_cons (fun kv => P (snd kv)) (key, v) r (Tree_induction v) (go r)
            end) fields)
  end.

End Tree_induction.

Section Plain_induction.

Variable P : Plain -> Prop.
Hypothesis Hprim : forall p, P (PPrim p).
Hypothesis Harr : forall items, Forall P items -> P (PArr items).
Hypothesis Hobj : forall fields, Forall (fun kv => P (snd kv)) fields -> P (PObj fields).

Fixpoint Plain_induction (p : Plain) : P p :=
  match p with
  | PPrim x => Hprim x
  | PArr items =>
      Harr items
        ((fix go (l : list Plain) : Forall P l :=
            match l with
            | [] => ListDef.Forall_nil P
            | x :: r => ListDef.Forall_cons P x r (Plain_induction x) (go r)
            end) items)
  | PObj fields =>
      Hobj fields
        ((fix go (l : list (string * Plain)) : Forall (fun kv => P (snd kv)) l :=
            match l with
            | [] => ListDef.Forall_nil _
            | (key, v) :: r =>
                ListDef.Forall_cons (fun kv => P (snd kv)) (key, v) r (Plain_induction v) (go r)
            end) fields)
  end.

End Plain_induction.

(* ===================================================================== *)
(** * Properties                                                           *)
(* ===================================================================== *)

Local Open Scope string_scope.

Definition USD : CurrencyDefinition :=
  {| code := "USD"; name := "US Dollar"; symbol := "$"; minorUnits := 2 |}.
Definition EUR : CurrencyDefinition :=
  {| code := "EUR"; name := "Euro"; symbol := "€"; minorUnits := 2 |}.
Definition JPY : CurrencyDefinition :=
  {| code := "JPY"; name := "Yen"; symbol := "¥"; minorUnits := 0 |}.
Definition PHP : CurrencyDefinition :=
  {| code := "PHP"; name := "Philippine Peso"; symbol := "₱"; minorUnits := 2 |}.

Local Close Scope string_scope.

(** A money value with an integer amount. *)
Definition money (n : Z) (c : CurrencyDefinition) : MajikMoney :=
  {| amount := Fin n 0; currency := c |}.

(** The amount is at rest: a whole number of minor units whenever it is
    finite. *)
Definition at_rest (d : Decimal) : Prop :=
  match d with
  | Fin _ s => s = O
  | _ => True
  end.

Definition produces (r : result MajikMoney) : Prop :=
  match r with
  | Ok m => at_rest (amount m)
  | Throw _ => True
  end.

Definition produces_all (r : result (list MajikMoney)) : Prop :=
  match r with
  | Ok l => Forall (fun m => at_rest (amount m)) l
  | Throw _ => True
  end.

(** The numbers 1.5 and -1.5. *)
Definition num_1_5 : Num.number := S754_finite false 6755399441055744 (-52).
Definition num_m1_5 : Num.number := S754_finite true 6755399441055744 (-52).

(** [scaled d k = Some n] when the decimal [d] is [n / 10^k]. *)
Definition scaled (d : Decimal) (k : nat) : option Z :=
  match d with
  | Fin m s => if (s <=? k)%nat then Some (m * pow10 (k - s)) else None
  | _ => None
  end.

Definition sumZ (l : list Z) : Z := fold_right Z.add 0 l.

(** The exact share [A * w / b], truncated toward zero. *)
Definition share (A b w : Z) : Z := (A * w) ÷ b.

(** The parts of an allocation of [A] by the weights [ws] of total [b]:
    every weight but the last gets its share, the last one its share and
    what is then left of [rem]. *)
Fixpoint shares_from (A b : Z) (ws : list Z) (rem : Z) : list Z :=
  match ws with
  | [] => []
  | w :: rest =>
      let rem' := rem - share A b w in
      match rest with
      | [] => [share A b w + rem']
      | _ :: _ => share A b w :: shares_from A b rest rem'
      end
  end.

(** ** Vocabulary of the further properties *)

(** Structural equality of numbers and of decimals, as booleans. *)
Definition number_same (x y : Num.number) : bool :=
  match x, y with
  | S754_zero a, S754_zero b => Bool.eqb a b
  | S754_infinity a, S754_infinity b => Bool.eqb a b
  | S754_nan, S754_nan => true
  | S754_finite a m e, S754_finite b n f => Bool.eqb a b && (m =? n)%positive && (e =? f)
  | _, _ => false
  end.

Definition decimal_same (x y : Decimal) : bool :=
  match x, y with
  | NaN, NaN => true
  | Inf a, Inf b => Bool.eqb a b
  | Fin m s, Fin n t => (m =? n) && (s =? t)%nat
  | _, _ => false
  end.

(** The counts [i], [i + 1], ..., [i + fuel] as numbers: each is reached
    by adding the number one to the one before, reads as itself as a
    Decimal and as an integer, and is positive unless it is zero. *)
Fixpoint counts_ok (fuel : nat) (i : Z) (acc : Num.number) : bool :=
  number_same acc (Num.of_Z i)
  && decimal_same (Conv.ofNumber acc) (Fin i 0)
  && match Num.to_Z acc with Some z => z =? i | None => false end
  && ((i =? 0) || negb (Num.leb acc Num.zero))
  && match fuel with
     | O => true
     | S fuel' => counts_ok fuel' (i + 1) (Num.add acc (Num.of_Z 1))
     end.

(** [l.map(f)] for a callback that can throw. *)
Fixpoint mapM {A B : Type} (f : A -> result B) (l : list A) : result (list B) :=
  match l with
  | [] => Ok []
  | x :: r =>
      let* y := f x in
      let* ys := mapM f r in
      Ok (y :: ys)
  end.

(** The products [weightedAverage] adds up: each amount times the decimal
    reading [m / 10^s] of its weight, rounded half-even to an integer. *)
Fixpoint weighted_products (amounts : list Z) (readings : list (Z * nat)) : list Z :=
  match amounts, readings with
  | A :: amounts', (m, s) :: readings' =>
      round_div ROUND_HALF_EVEN (A * m) (pow10 s) :: weighted_products amounts' readings'
  | _, _ => []
  end.

(** ** The currency table *)

Lemma lookup_USD : CURRENCIES !! "USD"%string = Some USD.
Proof. vm_compute. reflexivity. Qed.

Lemma lookup_EUR : CURRENCIES !! "EUR"%string = Some EUR.
Proof. vm_compute. reflexivity. Qed.

Lemma lookup_JPY : CURRENCIES !! "JPY"%string = Some JPY.
Proof. vm_compute. reflexivity. Qed.

Lemma lookup_PHP : CURRENCIES !! "PHP"%string = Some PHP.
Proof. vm_compute. reflexivity. Qed.

Lemma lookup_XXX : CURRENCIES !! "XXX"%string = None.
Proof. vm_compute. reflexivity. Qed.

(** Lookups go through the lemmas above or through [vm_compute]. *)
#[global] Opaque CURRENCIES.

(** ** Integer rounding *)

Lemma pow10_pos k : 0 < pow10 k.
Proof. unfold pow10. apply Z.pow_pos_nonneg; lia. Qed.

Lemma round_div_exact rm p q : 0 < q -> p mod q = 0 -> round_div rm p q = p / q.
Proof.
  intros _ Hr. unfold round_div. rewrite Hr. reflexivity.
Qed.

Lemma round_div_1 rm p : round_div rm p 1 = p.
Proof.
  unfold round_div. rewrite Z.mod_1_r, Z.div_1_r. reflexivity.
Qed.

(** Whatever the mode, the rounded quotient is the floor or the floor plus
    one, and the floor when the division is exact. *)
Lemma round_div_cases rm p q :
  round_div rm p q = p / q \/ (p mod q <> 0 /\ round_div rm p q = p / q + 1).
Proof.
  unfold round_div.
  destruct (Z.eqb_spec (p mod q) 0) as [E|E]; [now left|].
  destruct rm, (0 <? p), (2 * (p mod q) ?= q), (Z.even (p / q)); auto.
Qed.

(** Round-half-even picks a nearest integer, the even one on a tie. *)
Lemma round_div_half_even_spec p q :
  0 < q ->
  let n := round_div ROUND_HALF_EVEN p q in
  2 * Z.abs (n * q - p) <= q /\ (2 * Z.abs (n * q - p) = q -> Z.even n = true).
Proof.
  intros Hq n. subst n. unfold round_div.
  pose proof (Z.div_mod p q ltac:(lia)) as Hdm.
  pose proof (Z.mod_pos_bound p q Hq) as Hb.
  destruct (Z.eqb_spec (p mod q) 0) as [E|E].
  - split; [nia|]. intros H. exfalso. nia.
  - destruct (Z.compare_spec (2 * (p mod q)) q) as [C|C|C].
    + destruct (Z.even (p / q)) eqn:Ev.
      * split; [nia|]. intros _. exact Ev.
      * split; [nia|]. intros _.
        rewrite Z.even_add, Ev. reflexivity.
    + split; [nia|]. intros H. exfalso. nia.
    + split; [nia|]. intros H. exfalso. nia.
Qed.

(** Round-down is truncation toward zero. *)
Lemma round_div_down_quot p q : 0 < q -> round_div ROUND_DOWN p q = p ÷ q.
Proof.
  intros Hq. unfold round_div.
  pose proof (Z.div_mod p q ltac:(lia)) as Hdm.
  pose proof (Z.mod_pos_bound p q Hq) as Hb.
  destruct (Z.eqb_spec (p mod q) 0) as [E|E].
  - apply Z.quot_unique_exact; [lia|]. nia.
  - destruct (Z.ltb_spec 0 p) as [Hp|Hp].
    + rewrite Z.quot_div_nonneg by lia. reflexivity.
    + assert (Hp' : p < 0).
      { destruct (Z.eq_dec p 0) as [->|]; [|lia]. rewrite Z.mod_0_l in E; lia. }
      rewrite <- (Z.opp_involutive p) at 2.
      rewrite Z.quot_opp_l by lia.
      rewrite Z.quot_div_nonneg by lia.
      assert (- p = (- (p / q) - 1) * q + (q - p mod q)) as Hneg by nia.
      assert ((- p) / q = - (p / q) - 1) as ->.
      { symmetry. apply (Z.div_unique_pos _ _ _ (q - p mod q)); lia. }
      lia.
Qed.

(** ** Decimals at rest *)

Lemma normalise_0 m : normalise m 0 = Fin m 0.
Proof. reflexivity. Qed.

Lemma toDecimalPlaces_0 x rm : at_rest (toDecimalPlaces x 0 rm).
Proof.
  destruct x as [| |m s]; simpl; auto.
  destruct s; simpl; reflexivity.
Qed.

Lemma toDecimalPlaces_int n rm : toDecimalPlaces (Fin n 0) 0 rm = Fin n 0.
Proof. reflexivity. Qed.

Lemma toDecimalPlaces_Fin m s rm :
  toDecimalPlaces (Fin m s) 0 rm = Fin (round_div rm m (pow10 s)) 0.
Proof.
  destruct s; simpl.
  - unfold pow10. simpl. rewrite round_div_1. reflexivity.
  - reflexivity.
Qed.

Lemma toDecimalPlaces_at_rest x rm : at_rest x -> toDecimalPlaces x 0 rm = x.
Proof.
  destruct x as [| |m s]; simpl; auto.
  intros ->. reflexivity.
Qed.

(** ** The constructor *)

Lemma new_VDec d c :
  Money.new (VDec d) (Some c)
  = Ok {| amount := toDecimalPlaces d 0 rounding; currency := c |}.
Proof. reflexivity. Qed.

Lemma new_produces v c : produces (Money.new v c).
Proof.
  unfold Money.new, bind.
  destruct (new_Decimal v) as [d|e]; simpl; [|exact I].
  destruct c as [c|]; simpl.
  - apply toDecimalPlaces_0.
  - rewrite lookup_PHP. simpl. apply toDecimalPlaces_0.
Qed.

Lemma new_default v :
  Money.new v None = Money.new v (Some PHP).
Proof.
  unfold Money.new. rewrite lookup_PHP. reflexivity.
Qed.

Lemma fromMinor_currency v c :
  Money.fromMinor v c = Money.new v (Some (default PHP (CURRENCIES !! c))).
Proof.
  unfold Money.fromMinor.
  destruct (CURRENCIES !! c) as [cur|]; [reflexivity|].
  apply new_default.
Qed.

(** ** Currency codes *)

Lemma assertSameCurrency_mismatch a b :
  code (currency a) <> code (currency b) ->
  Money.assertSameCurrency a b = Throw CurrencyMismatch.
Proof.
  intros H. unfold Money.assertSameCurrency.
  destruct (String.eqb_spec (code (currency a)) (code (currency b))); congruence.
Qed.

Lemma assertSameCurrency_same a b :
  code (currency a) = code (currency b) ->
  Money.assertSameCurrency a b = Ok tt.
Proof.
  intros H. unfold Money.assertSameCurrency.
  rewrite H, String.eqb_refl. reflexivity.
Qed.

(** C8 (as stated, refuted): on operands of different currencies [equals]
    returns the boolean [false]; it does not fail. *)
Lemma equals_mismatch_returns_false :
  code (currency (money 100 USD)) <> code (currency (money 100 EUR))
  /\ Money.equals (money 100 USD) (money 100 EUR) = false.
Proof. split; [discriminate | reflexivity]. Qed.

(** C8 (amended): for Money values whose currency codes differ,
    [greaterThan], [lessThan], [greaterThanOrEqual], [lessThanOrEqual],
    [add] and [subtract] fail with the currency-mismatch error, and
    [equals] returns [false]. *)
Theorem currency_mismatch_fails (a b : MajikMoney) :
  code (currency a) <> code (currency b) ->
  Money.greaterThan a b = Throw CurrencyMismatch
  /\ Money.lessThan a b = Throw CurrencyMismatch
  /\ Money.greaterThanOrEqual a b = Throw CurrencyMismatch
  /\ Money.lessThanOrEqual a b = Throw CurrencyMismatch
  /\ Money.add a b = Throw CurrencyMismatch
  /\ Money.subtract a b = Throw CurrencyMismatch
  /\ Money.equals a b = false.
Proof.
  intros H.
  unfold Money.greaterThan, Money.lessThan, Money.greaterThanOrEqual,
    Money.lessThanOrEqual, Money.add, Money.subtract, Money.equals.
  rewrite (assertSameCurrency_mismatch a b H). simpl.
  repeat split.
  destruct (String.eqb_spec (code (currency a)) (code (currency b)));
    [congruence | reflexivity].
Qed.

Lemma currency_mismatch_fails_witness :
  code (currency (money 100 USD)) <> code (currency (money 250 EUR))
  /\ Money.add (money 100 USD) (money 250 EUR) = Throw CurrencyMismatch
  /\ Money.lessThan (money 100 USD) (money 250 EUR) = Throw CurrencyMismatch.
Proof.
  assert (H : code (currency (money 100 USD)) <> code (currency (money 250 EUR)))
    by discriminate.
  pose proof (currency_mismatch_fails (money 100 USD) (money 250 EUR) H) as T.
  split; [exact H|]. split; [apply T | apply T].
Defined.

(** ** Unknown currency codes *)

Lemma fromMajor_unknown v c rm :
  CURRENCIES !! c = None -> Money.fromMajor v c rm = Throw UnsupportedCurrency.
Proof. intros H. unfold Money.fromMajor. rewrite H. reflexivity. Qed.

Lemma parseFromJSON_unknown t a c :
  CURRENCIES !! c = None ->
  Money.parseFromJSON {| json_type := t; json_amount := a; json_currency := Some c |}
  = Throw UnsupportedCurrency.
Proof. intros H. unfold Money.parseFromJSON. simpl. rewrite H. reflexivity. Qed.

(** C5 (evaluation at the failing input): the code ["XXX"] is not in the
    table; [fromMajor] and [parseFromJSON] fail on it, but [fromMinor]
    returns one hundred minor units of the default currency PHP. *)
Theorem fromMinor_unknown_code_defaults_to_PHP :
  CURRENCIES !! "XXX"%string = None
  /\ Money.fromMajor (VNum (Num.of_Z 1)) "XXX" ROUND_HALF_EVEN = Throw UnsupportedCurrency
  /\ Money.parseFromJSON
       {| json_type := Some "MajikMoney"%string; json_amount := VStr "100";
          json_currency := Some "XXX"%string |} = Throw UnsupportedCurrency
  /\ Money.fromMinor (VNum (Num.of_Z 100)) "XXX" = Ok (money 100 PHP).
Proof.
  split; [exact lookup_XXX|].
  split; [apply fromMajor_unknown, lookup_XXX|].
  split; [apply parseFromJSON_unknown, lookup_XXX|].
  vm_compute. reflexivity.
Qed.

(** ** Zero divisors *)

Lemma normalise_zero s : normalise 0 s = Fin 0 0.
Proof. induction s; simpl; auto. Qed.

Lemma div_by_zero_not_finite x : isFinite (div x (Fin 0 0)) = false.
Proof.
  destruct x as [| |m s]; simpl; auto.
  destruct (m =? 0); reflexivity.
Qed.

Lemma toDecimalPlaces_not_finite x rm :
  isFinite x = false -> toDecimalPlaces x 0 rm = x.
Proof. destruct x; simpl; auto; discriminate. Qed.

Lemma div_zero_dividend s k : div (Fin 0 s) (ten_pow k) = Fin 0 0.
Proof.
  unfold div, ten_pow.
  pose proof (pow10_pos k). pose proof (pow10_pos s).
  destruct (Z.eqb_spec (pow10 k) 0); [lia|].
  rewrite Z.mul_0_l.
  destruct (Z.ltb_spec 0 (pow10 k * pow10 s)); [|nia].
  reflexivity.
Qed.

(** [ratio] guards its divisor. *)
Lemma ratio_zero_divisor a b s :
  amount b = Fin 0 s ->
  code (currency a) = code (currency b) ->
  Money.ratio a b = Throw DivisionByZero.
Proof.
  intros Hb Hc. unfold Money.ratio.
  rewrite (assertSameCurrency_same a b Hc). simpl. rewrite Hb. reflexivity.
Qed.

(** [invertDivide] guards its divisor. *)
Lemma invertDivide_zero_amount a s dividend rm :
  amount a = Fin 0 s ->
  Money.invertDivide a dividend rm = Throw DivisionByZero.
Proof.
  intros Ha. unfold Money.invertDivide, Money.toMajorDecimal.
  rewrite Ha, div_zero_dividend. reflexivity.
Qed.

(** C3 (evaluation at the failing inputs): [divide] by the number zero
    fails for no Money value: it returns a Money whose amount is not
    finite; and [convertFromQuoted] with a zero rate returns an infinite
    amount. *)
Theorem divide_by_zero_returns :
  (forall (m : MajikMoney) (rm : Rounding),
      exists d, Money.divide m (VNum Num.zero) rm
                = Ok {| amount := d; currency := currency m |}
                /\ isFinite d = false)
  /\ Money.divide (money 100 USD) (VNum Num.zero) ROUND_HALF_EVEN
     = Ok {| amount := Inf false; currency := USD |}
  /\ Money.convertFromQuoted (money 100 USD) (VNum Num.zero) PHP ROUND_HALF_EVEN
     = Ok {| amount := Inf false; currency := PHP |}.
Proof.
  split; [|split; vm_compute; reflexivity].
  intros m rm. exists (div (amount m) (Fin 0 0)).
  pose proof (div_by_zero_not_finite (amount m)) as Hnf.
  split; [|exact Hnf].
  unfold Money.divide. simpl. rewrite new_VDec.
  rewrite (toDecimalPlaces_not_finite _ rm Hnf).
  rewrite (toDecimalPlaces_not_finite _ rounding Hnf).
  reflexivity.
Qed.

(** ** Allocation without a guard *)

Lemma mul_zero_r x : mul x (Fin 0 0) = Dec.NaN \/ mul x (Fin 0 0) = Fin 0 0.
Proof.
  destruct x as [| |m s]; simpl; auto.
  right. unfold finalise. rewrite Z.mul_0_r. simpl. apply normalise_zero.
Qed.

Lemma add_NaN_r x : Dec.add x Dec.NaN = Dec.NaN.
Proof. destruct x; reflexivity. Qed.

Lemma allocate_zero_ratio m :
  Money.allocate m [Num.zero] = Ok [ {| amount := Dec.NaN; currency := currency m |} ].
Proof.
  unfold Money.allocate. cbn [fold_left length Money.allocate_from].
  change (Num.add Num.zero Num.zero) with Num.zero.
  change (Conv.ofNumber Num.zero) with (Fin 0 0).
  assert (Hs : div (mul (amount m) (Fin 0 0)) (Fin 0 0) = Dec.NaN).
  { destruct (mul_zero_r (amount m)) as [-> | ->]; reflexivity. }
  rewrite Hs. cbn [toDecimalPlaces].
  unfold Dec.sub. cbn [neg]. rewrite add_NaN_r.
  reflexivity.
Qed.

(** C2 (evaluation at the failing inputs): [allocate] has no guard. On the
    empty ratio sequence it returns the empty list, and on the single
    ratio zero (sum zero) it returns one part whose amount is NaN; only
    [evenSplit] rejects a non-positive part count. *)
Theorem allocate_has_no_guard :
  (forall m, Money.allocate m [] = Ok [])
  /\ (forall m, Money.allocate m [Num.zero]
                = Ok [ {| amount := Dec.NaN; currency := currency m |} ])
  /\ Money.evenSplit (money 100 USD) Num.zero = Throw InvalidAllocation.
Proof.
  split; [reflexivity|]. split; [exact allocate_zero_ratio|]. reflexivity.
Qed.

(** ** [fromMinor] and rounding *)

Example num_1_5_reads : Conv.ofNumber num_1_5 = Fin 15 1 /\ Conv.ofNumber num_m1_5 = Fin (-15) 1.
Proof. split; vm_compute; reflexivity. Qed.




(** ** Conversion through a number *)

(** C9 (evaluation at the failing input): 9007199254740993 yen converted
    at rate 1 into yen come out as 9007199254740992, because [convert]
    reads the major-unit value as a [number]; [fromMajor] on the exact
    major-unit value times the rate gives 9007199254740993. *)
Theorem convert_goes_through_number :
  Money.convert (money 9007199254740993 JPY) (VNum (Num.of_Z 1)) JPY ROUND_HALF_EVEN
  = Ok (money 9007199254740992 JPY)
  /\ Money.fromMajor
       (VDec (mul (Money.toMajorDecimal (money 9007199254740993 JPY)) (Fin 1 0)))
       "JPY" ROUND_HALF_EVEN
     = Ok (money 9007199254740993 JPY).
Proof. split; vm_compute; reflexivity. Qed.

(** ** The median and the order of the sort *)

(** C10 (evaluation at the failing input): the three amounts below are
    distinct integers that read as the same [number], so the comparator
    returns zero on every pair, the sort keeps the input order, and
    [median] returns 18014398509481984; the middle element of the
    ascending order by minor-unit integer is 18014398509481985. *)
Theorem median_sorts_by_number :
  let values := [ money 18014398509481986 JPY;
                  money 18014398509481984 JPY;
                  money 18014398509481985 JPY ] in
  Money.sort values = values
  /\ Money.median values = Ok (money 18014398509481984 JPY)
  /\ Dec.lt (Fin 18014398509481984 0) (Fin 18014398509481985 0) = true
  /\ Dec.lt (Fin 18014398509481985 0) (Fin 18014398509481986 0) = true.
Proof. repeat split; vm_compute; reflexivity. Qed.

(** ** Amounts at rest *)

Lemma produces_bind {A : Type} (r : result A) (k : A -> result MajikMoney) :
  (forall a, produces (k a)) -> produces (bind r k).
Proof. intros H. destruct r as [a|e]; simpl; [apply H | exact I]. Qed.

Lemma produces_all_bind {A : Type} (r : result A) (k : A -> result (list MajikMoney)) :
  (forall a, produces_all (k a)) -> produces_all (bind r k).
Proof. intros H. destruct r as [a|e]; simpl; [apply H | exact I]. Qed.

Lemma fromMinor_produces v c : produces (Money.fromMinor v c).
Proof. apply new_produces. Qed.

Lemma fromMajor_produces v c rm : produces (Money.fromMajor v c rm).
Proof.
  unfold Money.fromMajor. destruct (CURRENCIES !! c); [|exact I].
  apply produces_bind. intros a. apply new_produces.
Qed.

Lemma parseFromJSON_produces data : produces (Money.parseFromJSON data).
Proof.
  unfold Money.parseFromJSON.
  destruct (json_currency data); [|exact I].
  destruct (CURRENCIES !! _); [|exact I].
  apply new_produces.
Qed.

Lemma add_produces a b : produces (Money.add a b).
Proof. apply produces_bind. intros _. apply new_produces. Qed.

Lemma subtract_produces a b : produces (Money.subtract a b).
Proof. apply produces_bind. intros _. apply new_produces. Qed.

Lemma multiply_produces a f rm : produces (Money.multiply a f rm).
Proof. apply produces_bind. intros d. apply new_produces. Qed.

Lemma divide_produces a d rm : produces (Money.divide a d rm).
Proof. apply produces_bind. intros x. apply new_produces. Qed.

Lemma invertDivide_produces a d rm : produces (Money.invertDivide a d rm).
Proof.
  unfold Money.invertDivide. destruct (isZero _); [exact I|].
  apply produces_bind. intros x. apply fromMajor_produces.
Qed.

Lemma convert_produces a r t rm : produces (Money.convert a r t rm).
Proof. apply produces_bind. intros x. apply fromMajor_produces. Qed.

Lemma convertFromQuoted_produces a q t rm : produces (Money.convertFromQuoted a q t rm).
Proof. apply produces_bind. intros x. apply convert_produces. Qed.

Lemma allocate_from_produces this total len ratios :
  forall i remainder,
    produces_all (Money.allocate_from this total len i ratios remainder).
Proof.
  induction ratios as [|ratio rest IH]; intros i remainder.
  - constructor.
  - cbn [Money.allocate_from].
    match goal with
    | |- produces_all (bind ?n _) =>
        destruct n as [part|e] eqn:Hn; [|exact I]
    end.
    cbn [bind].
    match type of Hn with
    | Money.new ?v ?c = _ => pose proof (new_produces v c) as Hp; rewrite Hn in Hp
    end.
    specialize (IH (S i) (Dec.sub remainder
                     (toDecimalPlaces
                        (div (mul (amount this) (Conv.ofNumber ratio)) (Conv.ofNumber total))
                        0 ROUND_DOWN))).
    destruct (Money.allocate_from _ _ _ _ _ _) as [parts|e]; [|exact I].
    cbn [bind produces_all]. constructor; [exact Hp | exact IH].
Qed.

Lemma allocate_produces this ratios : produces_all (Money.allocate this ratios).
Proof. apply allocate_from_produces. Qed.

Lemma evenSplit_produces this parts : produces_all (Money.evenSplit this parts).
Proof.
  unfold Money.evenSplit. destruct (Num.leb _ _); [exact I|].
  destruct (Num.to_Z parts); [|exact I].
  destruct (_ <? _); [apply allocate_produces | exact I].
Qed.

Lemma fold_add_produces (cur : CurrencyDefinition) values :
  forall r : result MajikMoney,
    produces r ->
    produces
      (fold_left
         (fun acc m =>
            let* acc := acc in
            if negb (String.eqb (code (currency m)) (code cur))
            then Throw CurrencyMismatch
            else Money.add acc m)
         values r).
Proof.
  induction values as [|m rest IH]; intros r Hr; [exact Hr|].
  cbn [fold_left]. apply IH.
  apply produces_bind. intros acc.
  destruct (negb _); [exact I | apply add_produces].
Qed.

Lemma sum_produces values : produces (Money.sum values).
Proof.
  destruct values as [|v0 rest]; [exact I|].
  unfold Money.sum.
  pose proof (fromMinor_produces (VNum Num.zero) (code (currency v0))) as Hz.
  destruct (Money.fromMinor _ _) as [zero|e]; [|exact I].
  cbn [bind]. apply fold_add_produces. exact Hz.
Qed.

Lemma average_produces values : produces (Money.average values).
Proof. apply produces_bind. intros s. apply divide_produces. Qed.

Lemma weightedAverage_produces values weights :
  produces (Money.weightedAverage values weights).
Proof.
  destruct values as [|v0 rest]; [exact I|].
  unfold Money.weightedAverage.
  destruct (negb _); [exact I|].
  apply produces_bind. intros zero.
  apply produces_bind. intros r. apply divide_produces.
Qed.

Lemma variance_produces values : produces (Money.variance values).
Proof.
  destruct values as [|v0 rest]; [exact I|].
  unfold Money.variance.
  apply produces_bind. intros avg. apply fromMajor_produces.
Qed.

Lemma insert_Forall (P : MajikMoney -> Prop) x l :
  P x -> Forall P l -> Forall P (Money.insert x l).
Proof.
  intros Hx Hl. induction Hl as [|y r Hy Hr IH]; simpl.
  - constructor; [exact Hx | constructor].
  - destruct (Num.ltb _ _); repeat constructor; auto.
Qed.

Lemma sort_Forall (P : MajikMoney -> Prop) l :
  Forall P l -> Forall P (Money.sort l).
Proof.
  induction 1 as [|x l Hx Hl IH]; simpl; [constructor|].
  apply insert_Forall; assumption.
Qed.

Lemma at_index_produces l i :
  Forall (fun m => at_rest (amount m)) l -> produces (Money.at_index l i).
Proof.
  intros H. unfold Money.at_index.
  destruct (l !! i) as [m|] eqn:E; [|exact I].
  simpl. exact (Forall_lookup_1 _ _ _ _ H E).
Qed.

Lemma median_produces values :
  Forall (fun m => at_rest (amount m)) values -> produces (Money.median values).
Proof.
  intros H. destruct values as [|v0 rest]; [exact I|].
  unfold Money.median.
  destruct (forallb _ _); [|exact I].
  destruct (_ =? _)%nat.
  - apply produces_bind. intros a. apply produces_bind. intros b.
    apply produces_bind. intros s. apply divide_produces.
  - apply at_index_produces, sort_Forall, H.
Qed.

Lemma reduce1_produces f values :
  (forall prev curr,
      at_rest (amount prev) -> at_rest (amount curr) -> produces (f prev curr)) ->
  Forall (fun m => at_rest (amount m)) values ->
  produces (Money.reduce1 f values).
Proof.
  intros Hf H. destruct H as [|v0 rest H0 Hrest]; [exact I|].
  unfold Money.reduce1.
  assert (Hinit : produces (Ok v0)) by exact H0.
  revert Hinit. generalize (Ok v0).
  induction Hrest as [|m rest' Hm Hrest' IH]; intros r Hr; [exact Hr|].
  cbn [fold_left]. apply IH.
  destruct r as [prev|e]; [|exact I].
  cbn [bind]. apply Hf; assumption.
Qed.

Lemma min_produces values :
  Forall (fun m => at_rest (amount m)) values -> produces (Money.min values).
Proof.
  apply reduce1_produces. intros prev curr Hp Hc.
  destruct (Money.lessThan prev curr) as [[|]|e]; simpl; auto.
Qed.

Lemma max_produces values :
  Forall (fun m => at_rest (amount m)) values -> produces (Money.max values).
Proof.
  apply reduce1_produces. intros prev curr Hp Hc.
  destruct (Money.greaterThan prev curr) as [[|]|e]; simpl; auto.
Qed.



(** ** Digit counts *)

Lemma ndigits_aux_spec fuel :
  forall n, 1 <= n < 2 ^ Z.of_nat fuel ->
    1 <= ndigits_aux fuel n
    /\ 10 ^ (ndigits_aux fuel n - 1) <= n < 10 ^ ndigits_aux fuel n.
Proof.
  induction fuel as [|f IH]; intros n Hn.
  - simpl in Hn. lia.
  - cbn [ndigits_aux].
    destruct (Z.ltb_spec n 10) as [Hlt|Hge].
    + split; [lia|]. simpl. lia.
    + assert (Hf : 1 <= n / 10 < 2 ^ Z.of_nat f).
      { rewrite Nat2Z.inj_succ, Z.pow_succ_r in Hn by lia.
        split.
        - apply Z.div_le_lower_bound; lia.
        - apply Z.div_lt_upper_bound; lia. }
      destruct (IH _ Hf) as (Hd & Hlo & Hhi).
      set (d := ndigits_aux f (n / 10)) in *.
      pose proof (Z.div_mod n 10 ltac:(lia)) as Hdm.
      pose proof (Z.mod_pos_bound n 10 ltac:(lia)) as Hmb.
      split; [lia|].
      replace (1 + d - 1) with (Z.succ (d - 1)) by lia.
      replace (1 + d) with (Z.succ d) by lia.
      rewrite !Z.pow_succ_r by lia. lia.
Qed.

Lemma ndigits_spec n :
  1 <= n -> 1 <= ndigits n /\ 10 ^ (ndigits n - 1) <= n < 10 ^ ndigits n.
Proof.
  intros Hn. unfold ndigits. apply ndigits_aux_spec.
  pose proof (Z.log2_spec n ltac:(lia)) as [_ Hhi].
  pose proof (Z.log2_nonneg n).
  rewrite Nat2Z.inj_succ, Z2Nat.id by lia. lia.
Qed.

(** ** Scaling a rounded division *)

Lemma round_div_scale rm p q c :
  0 < q -> 0 < c -> round_div rm (p * c) (q * c) = round_div rm p q.
Proof.
  intros Hq Hc. unfold round_div.
  rewrite Z.div_mul_cancel_r by lia.
  rewrite Z.mul_mod_distr_r by lia.
  assert (E1 : (p mod q * c =? 0) = (p mod q =? 0)).
  { destruct (Z.eqb_spec (p mod q) 0) as [->|]; [reflexivity|].
    apply Z.eqb_neq. nia. }
  assert (E2 : (0 <? p * c) = (0 <? p)).
  { destruct (Z.ltb_spec 0 p); [apply Z.ltb_lt | apply Z.ltb_ge]; nia. }
  assert (E3 : (2 * (p mod q * c) ?= q * c) = (2 * (p mod q) ?= q)).
  { destruct (Z.compare_spec (2 * (p mod q)) q);
      destruct (Z.compare_spec (2 * (p mod q * c)) (q * c)); try reflexivity; nia. }
  rewrite E1, E2, E3. reflexivity.
Qed.

(** ** Truncation *)

Lemma quot_characterisation a b n :
  0 < b ->
  (0 <= a -> n * b <= a < (n + 1) * b) ->
  (a <= 0 -> (n - 1) * b < a <= n * b) ->
  a ÷ b = n.
Proof.
  intros Hb Hpos Hneg.
  destruct (Z.le_ge_cases 0 a) as [Ha|Ha].
  - specialize (Hpos Ha). rewrite Z.quot_div_nonneg by lia.
    symmetry. apply (Z.div_unique_pos a b n (a - n * b)); lia.
  - specialize (Hneg Ha).
    rewrite <- (Z.opp_involutive a), Z.quot_opp_l by lia.
    rewrite Z.quot_div_nonneg by lia.
    assert ((- a) / b = - n) as ->; [|lia].
    symmetry. apply (Z.div_unique_pos (- a) b (- n) (- a + n * b)); lia.
Qed.

Lemma quot_bounds a b :
  0 < b ->
  (0 <= a -> (a ÷ b) * b <= a < (a ÷ b + 1) * b)
  /\ (a <= 0 -> (a ÷ b - 1) * b < a <= (a ÷ b) * b).
Proof.
  intros Hb.
  pose proof (Z.quot_rem' a b) as Hqr.
  split; intros Ha.
  - pose proof (Z.rem_bound_pos a b Ha Hb). nia.
  - pose proof (Z.rem_bound_pos_neg a b Hb Ha). nia.
Qed.

(** The truncation of a nearest integer to [P * S / b] at scale [S] is the
    truncation of [P / b], once the scale is finer than [b / 2]. *)
Lemma trunc_of_nearest m b P S :
  0 < b -> 0 < S ->
  2 * Z.abs (m * b - P * S) <= b ->
  b < 2 * S ->
  m ÷ S = P ÷ b.
Proof.
  intros Hb HS Hnear Hfine.
  destruct (quot_bounds P b Hb) as [Hpos Hneg].
  set (n := P ÷ b) in *.
  apply quot_characterisation; [exact HS| |].
  - intros Hm.
    assert (HP : 0 <= P) by nia.
    specialize (Hpos HP).
    split; [nia|].
    destruct (Z.eq_dec P (n * b)) as [E|E]; nia.
  - intros Hm.
    assert (HP : P <= 0) by nia.
    specialize (Hneg HP).
    split; [|nia].
    destruct (Z.eq_dec P (n * b)) as [E|E]; nia.
Qed.

(** ** Canonical forms *)

Lemma normalise_value s :
  forall m, exists m1 s1,
    normalise m s = Fin m1 s1 /\ (s1 <= s)%nat /\ m = m1 * pow10 (s - s1).
Proof.
  induction s as [|s IH]; intros m.
  - exists m, O. simpl. unfold pow10. simpl. repeat split; lia.
  - cbn [normalise].
    destruct (Z.eqb_spec (m mod 10) 0) as [E|E].
    + destruct (IH (m / 10)) as (m1 & s1 & Hn & Hs & Hv).
      exists m1, s1. split; [exact Hn|]. split; [lia|].
      pose proof (Z.div_mod m 10 ltac:(lia)) as Hdm.
      unfold pow10 in *.
      replace (Z.of_nat (S s - s1)) with (Z.succ (Z.of_nat (s - s1))) by lia.
      rewrite Z.pow_succ_r by lia. lia.
    + exists m, (S s). split; [reflexivity|]. split; [lia|].
      rewrite Nat.sub_diag. unfold pow10. simpl. lia.
Qed.

Lemma normalise_trunc s :
  forall m, toDecimalPlaces (normalise m s) 0 ROUND_DOWN = Fin (m ÷ pow10 s) 0.
Proof.
  induction s as [|s IH]; intros m.
  - simpl. unfold pow10. simpl. rewrite Z.quot_1_r. reflexivity.
  - cbn [normalise].
    destruct (Z.eqb_spec (m mod 10) 0) as [E|E].
    + rewrite IH. f_equal.
      pose proof (Z.div_mod m 10 ltac:(lia)) as Hdm.
      pose proof (pow10_pos s) as Hs.
      assert (Hm : m = 10 * (m / 10)) by lia.
      rewrite Hm at 2.
      unfold pow10 in *. rewrite Nat2Z.inj_succ, Z.pow_succ_r by lia.
      rewrite Z.quot_mul_cancel_l by lia. reflexivity.
    + rewrite toDecimalPlaces_Fin, round_div_down_quot by apply pow10_pos.
      reflexivity.
Qed.

(** ** The quotient keeps forty significant digits *)

Lemma quotient_cases rm p q :
  0 < q -> p <> 0 ->
  (exists t : nat,
      quotient rm p q = normalise (round_div rm (p * pow10 t) q) t
      /\ q * 10 ^ 39 <= Z.abs p * pow10 t)
  \/ q * 10 ^ 40 <= Z.abs p.
Proof.
  intros Hq Hp. unfold quotient.
  destruct (Z.eqb_spec p 0) as [|_]; [contradiction|].
  destruct (ndigits_spec q ltac:(lia)) as (Hdq & Hqlo & Hqhi).
  destruct (ndigits_spec (Z.abs p) ltac:(lia)) as (Hdp & Hplo & Hphi).
  set (dq := ndigits q) in *. set (dp := ndigits (Z.abs p)) in *.
  unfold precision.
  set (t := 40 + dq - dp).
  destruct (Z.le_gt_cases 0 t) as [Ht|Ht].
  - rewrite (Z.max_r 0 t) by lia. rewrite (Z.max_l 0 (- t)) by lia.
    rewrite Z.pow_0_r, Z.mul_1_r.
    assert (Hpt : 0 < 10 ^ t) by (apply Z.pow_pos_nonneg; lia).
    assert (Hnum : Z.abs (p * 10 ^ t) = Z.abs p * 10 ^ t)
      by (rewrite Z.abs_mul, (Z.abs_eq (10 ^ t)); lia).
    rewrite Hnum.
    destruct (Z.leb_spec (q * 10 ^ 40) (Z.abs p * 10 ^ t)) as [Hadj|Hadj].
    + destruct (Z.eq_dec t 0) as [Ht0|Ht0].
      * right. rewrite Ht0, Z.pow_0_r, Z.mul_1_r in Hadj. exact Hadj.
      * left. exists (Z.to_nat (t - 1)).
        destruct (Z.leb_spec 0 (t - 1)); [|lia].
        assert (E10 : 10 ^ t = 10 ^ (t - 1) * 10).
        { replace t with (Z.succ (t - 1)) at 1 by lia.
          rewrite Z.pow_succ_r by lia. lia. }
        unfold pow10. rewrite Z2Nat.id by lia.
        split.
        -- f_equal. rewrite E10, Z.mul_assoc.
           apply round_div_scale; lia.
        -- rewrite E10 in Hadj.
           change (10 ^ 40) with (10 ^ 39 * 10) in Hadj. lia.
    + left. exists (Z.to_nat t).
      destruct (Z.leb_spec 0 t); [|lia].
      unfold pow10. rewrite Z2Nat.id by lia.
      split; [reflexivity|].
      assert (E : 10 ^ (dp - 1) * 10 ^ t = 10 ^ 39 * 10 ^ dq).
      { rewrite <- !Z.pow_add_r by lia. f_equal. lia. }
      nia.
  - right.
    assert (E : 10 ^ (dp - 1) = 10 ^ dq * 10 ^ 40 * 10 ^ (- t - 1)).
    { rewrite <- !Z.pow_add_r by lia. f_equal. lia. }
    assert (Hpt : 0 < 10 ^ (- t - 1)) by (apply Z.pow_pos_nonneg; lia).
    assert (0 < 10 ^ dq) by (apply Z.pow_pos_nonneg; lia).
    nia.
Qed.

(** A quotient that is exactly [P / b], rounded to forty digits and then
    truncated, is the truncation of [P / b], provided [P] is below [10^39]
    in magnitude. *)
Lemma quotient_trunc p q P b :
  0 < q -> 0 < b -> p * b = P * q -> Z.abs P < 10 ^ 39 ->
  toDecimalPlaces (quotient ROUND_HALF_EVEN p q) 0 ROUND_DOWN = Fin (P ÷ b) 0.
Proof.
  intros Hq Hb Heq HP.
  destruct (Z.eq_dec p 0) as [Hp|Hp].
  - subst p. assert (P = 0) by nia. subst P.
    rewrite Z.quot_0_l by lia. reflexivity.
  - assert (HP0 : P <> 0) by nia.
    destruct (quotient_cases ROUND_HALF_EVEN p q Hq Hp) as [(t & Hquo & Hlow) | Hbig].
    + rewrite Hquo, normalise_trunc. f_equal.
      pose proof (pow10_pos t) as HS.
      set (S := pow10 t) in *.
      pose proof (round_div_half_even_spec (p * S) q Hq) as [Hnear _].
      cbv zeta in Hnear.
      set (m := round_div ROUND_HALF_EVEN (p * S) q) in *.
      assert (Hlow' : b * 10 ^ 39 <= Z.abs P * S).
      { assert (Z.abs p * b = Z.abs P * q)
          by (rewrite <- (Z.abs_eq b), <- (Z.abs_eq q), <- !Z.abs_mul by lia; congruence).
        nia. }
      apply trunc_of_nearest; [exact Hb | exact HS | | nia].
      assert (Hxy : (m * q - p * S) * b = q * (m * b - P * S)) by nia.
      assert (Habs : Z.abs (m * q - p * S) * b = q * Z.abs (m * b - P * S)).
      { rewrite <- (Z.abs_eq b) at 1 by lia.
        rewrite <- (Z.abs_eq q) at 2 by lia.
        rewrite <- !Z.abs_mul. congruence. }
      nia.
    + exfalso.
      assert (Z.abs p * b = Z.abs P * q)
        by (rewrite <- (Z.abs_eq b), <- (Z.abs_eq q), <- !Z.abs_mul by lia; congruence).
      change (10 ^ 40) with (10 ^ 39 * 10) in Hbig.
      nia.
Qed.

(** ** Integer decimals *)

Lemma pow10_add a b : pow10 (a + b) = pow10 a * pow10 b.
Proof. unfold pow10. rewrite Nat2Z.inj_add, Z.pow_add_r by lia. reflexivity. Qed.

Lemma pow10_split s k : (s <= k)%nat -> pow10 k = pow10 s * pow10 (k - s).
Proof. intros H. rewrite <- pow10_add. f_equal. lia. Qed.

Lemma add_int x y :
  Z.abs (x + y) < 10 ^ 40 -> Dec.add (Fin x 0) (Fin y 0) = Fin (x + y) 0.
Proof.
  intros H. unfold Dec.add. cbn [Nat.max Nat.sub].
  change (pow10 0) with 1. rewrite !Z.mul_1_r.
  unfold finalise, precision.
  destruct (Z.ltb_spec (Z.abs (x + y)) (10 ^ 40)); [reflexivity | lia].
Qed.

Lemma sub_int x y :
  Z.abs (x - y) < 10 ^ 40 -> Dec.sub (Fin x 0) (Fin y 0) = Fin (x - y) 0.
Proof.
  intros H. unfold Dec.sub. cbn [neg].
  rewrite add_int by (replace (x + - y) with (x - y) by lia; exact H).
  reflexivity.
Qed.

Lemma mul_int_exact A m s :
  Z.abs (A * m) < 10 ^ 40 -> mul (Fin A 0) (Fin m s) = normalise (A * m) s.
Proof.
  intros H. unfold mul, finalise, precision. cbn [Nat.add].
  destruct (Z.ltb_spec (Z.abs (A * m)) (10 ^ 40)); [reflexivity | lia].
Qed.

Lemma share_bound A b w : 0 < b -> 0 <= w <= b -> Z.abs (share A b w) <= Z.abs A.
Proof.
  intros Hb Hw. unfold share.
  rewrite <- (Z.abs_eq b) at 1 by lia.
  rewrite <- Z.quot_abs by lia.
  rewrite Z.abs_mul, (Z.abs_eq w) by lia.
  rewrite Z.quot_div_nonneg by lia.
  apply Z.div_le_upper_bound; [lia|]. pose proof (Z.abs_nonneg A). nia.
Qed.

(** One share: the amount times the ratio, divided by the total, rounded
    down, is the truncated exact quotient. *)
Lemma share_step A ratio total k w b :
  scaled ratio k = Some w ->
  scaled total k = Some b ->
  0 <= w <= b -> 0 < b ->
  Z.abs A * b < 10 ^ 39 ->
  toDecimalPlaces (div (mul (Fin A 0) ratio) total) 0 ROUND_DOWN = Fin (share A b w) 0.
Proof.
  intros Hr Ht Hw Hb HA.
  destruct ratio as [| |m s]; try discriminate.
  destruct total as [| |mT sT]; try discriminate.
  cbn [scaled] in Hr, Ht.
  destruct (Nat.leb_spec s k) as [Hs|]; [|discriminate].
  destruct (Nat.leb_spec sT k) as [HsT|]; [|discriminate].
  injection Hr as Hr. injection Ht as Ht.
  pose proof (pow10_pos (k - s)) as Hks. pose proof (pow10_pos (k - sT)) as HksT.
  pose proof (Z.abs_nonneg A) as HA0.
  assert (HAw : Z.abs (A * w) < 10 ^ 39).
  { rewrite Z.abs_mul, (Z.abs_eq w) by lia. nia. }
  assert (HAm : Z.abs (A * m) < 10 ^ 40).
  { assert (Z.abs (A * m) <= Z.abs (A * w)).
    { subst w. rewrite Z.mul_assoc, (Z.abs_mul (A * m)), (Z.abs_eq (pow10 (k - s))) by lia.
      pose proof (Z.abs_nonneg (A * m)). nia. }
    change (10 ^ 40) with (10 ^ 39 * 10). lia. }
  rewrite (mul_int_exact A m s HAm).
  destruct (normalise_value s (A * m)) as (m1 & s1 & Hn & Hs1 & Hv).
  rewrite Hn. unfold div.
  assert (HmT : 0 < mT) by nia.
  destruct (Z.eqb_spec mT 0); [lia|].
  pose proof (pow10_pos s1) as Hp1. pose proof (pow10_pos sT) as HpT.
  destruct (Z.ltb_spec 0 (mT * pow10 s1)); [|nia].
  unfold rounding.
  apply quotient_trunc; [nia | exact Hb | | exact HAw].
  subst w b.
  transitivity (m1 * mT * pow10 k).
  - rewrite (pow10_split sT k HsT). ring.
  - rewrite (Z.mul_assoc A m), Hv.
    rewrite (pow10_split s k Hs), (pow10_split s1 s Hs1). ring.
Qed.

Lemma new_int v c : Money.new (VDec (Fin v 0)) (Some c) = Ok (money v c).
Proof. reflexivity. Qed.

(** The loop of [allocate] on an integer amount. *)
Lemma allocate_from_spec A c total k b :
  scaled (Conv.ofNumber total) k = Some b ->
  0 < b ->
  Z.abs A * b < 10 ^ 39 ->
  forall ratios ws len i r,
    Forall2 (fun ratio w => scaled (Conv.ofNumber ratio) k = Some w /\ 0 <= w <= b)
            ratios ws ->
    (i + length ratios = len)%nat ->
    Z.abs r + Z.of_nat (length ratios) * Z.abs A < 10 ^ 40 ->
    Money.allocate_from (money A c) total len i ratios (Fin r 0)
    = Ok (map (fun v => money v c) (shares_from A b ws r)).
Proof.
  intros Ht Hb HA ratios ws len i r HF. revert i r.
  induction HF as [|ratio w ratios ws [Hr Hw] HF IH]; intros i r Hlen Hbound.
  - reflexivity.
  - cbn [Money.allocate_from amount money currency].
    rewrite (share_step A _ _ k w b Hr Ht Hw Hb HA).
    pose proof (share_bound A b w Hb Hw) as Hsh.
    cbn [length] in Hbound, Hlen. rewrite Nat2Z.inj_succ in Hbound.
    pose proof (Z.abs_nonneg A) as HA0.
    assert (Hrem : Z.abs (r - share A b w) < 10 ^ 40).
    { pose proof (Z.abs_triangle r (- share A b w)) as Htri.
      rewrite Z.abs_opp in Htri. replace (r + - share A b w) with (r - share A b w) in Htri by lia.
      nia. }
    rewrite (sub_int r _ Hrem).
    cbn [shares_from].
    destruct HF as [|ratio' w' ratios' ws' Hrw' HF'].
    + (* the last ratio *)
      assert (Hi : (i =? len - 1)%nat = true) by (apply Nat.eqb_eq; cbn [length] in Hlen; lia).
      rewrite Hi.
      rewrite add_int by (replace (share A b w + (r - share A b w)) with r by lia;
                          pose proof (Z.abs_nonneg r); nia).
      rewrite new_int. reflexivity.
    + assert (Hi : (i =? len - 1)%nat = false)
        by (apply Nat.eqb_neq; cbn [length] in Hlen; lia).
      rewrite Hi. rewrite new_int. cbn [bind].
      rewrite (IH (S i) (r - share A b w)).
      * reflexivity.
      * cbn [length] in *. lia.
      * pose proof (Z.abs_triangle r (- share A b w)) as Htri.
        rewrite Z.abs_opp in Htri.
        replace (r + - share A b w) with (r - share A b w) in Htri by lia.
        cbn [length] in *. lia.
Qed.

(** ** What the shares add up to *)

Lemma shares_from_length A b ws : forall r, length (shares_from A b ws r) = length ws.
Proof.
  induction ws as [|w rest IH]; intros r; [reflexivity|].
  cbn [shares_from]. destruct rest as [|w' rest']; [reflexivity|].
  cbn [length]. rewrite IH. reflexivity.
Qed.

Lemma shares_from_sum A b ws :
  ws <> [] -> forall r, sumZ (shares_from A b ws r) = r.
Proof.
  induction ws as [|w rest IH]; intros Hne r; [congruence|].
  cbn [shares_from]. destruct rest as [|w' rest'].
  - simpl. lia.
  - change (sumZ (share A b w :: ?l)) with (share A b w + sumZ l).
    rewrite IH by discriminate. lia.
Qed.

Lemma shares_from_lookup A b ws :
  forall r i w,
    (S i < length ws)%nat -> ws !! i = Some w ->
    shares_from A b ws r !! i = Some (share A b w).
Proof.
  induction ws as [|w0 rest IH]; intros r i w Hi Hl; [discriminate|].
  cbn [shares_from]. destruct rest as [|w' rest'].
  - simpl in Hi. lia.
  - destruct i as [|i].
    + simpl in Hl. injection Hl as ->. reflexivity.
    + simpl in Hl. cbn [lookup list_lookup]. apply IH; [simpl in *; lia | exact Hl].
Qed.

Lemma shares_from_last A b ws :
  forall r w,
    last ws = Some w ->
    last (shares_from A b ws r)
    = Some (share A b w + (r - sumZ (map (share A b) ws))).
Proof.
  induction ws as [|w0 rest IH]; intros r w Hl; [discriminate|].
  cbn [shares_from]. destruct rest as [|w' rest'].
  - simpl in Hl. injection Hl as ->. simpl. f_equal. lia.
  - change (last (w0 :: w' :: rest')) with (last (w' :: rest')) in Hl.
    set (l := shares_from A b (w' :: rest') (r - share A b w0)).
    assert (Hl' : last (share A b w0 :: l) = last l).
    { subst l. cbn [shares_from]. destruct rest'; reflexivity. }
    rewrite Hl'. subst l. rewrite (IH _ w Hl). f_equal.
    change (map (share A b) (w0 :: w' :: rest'))
      with (share A b w0 :: map (share A b) (w' :: rest')).
    change (sumZ (share A b w0 :: ?l)) with (share A b w0 + sumZ l). lia.
Qed.

(** ** Digit strings *)

Lemma digit_char_spec d :
  0 <= d <= 9 ->
  Str.is_digit (Str.digit_char d) = true
  /\ Str.digit_val (Str.digit_char d) = d
  /\ Str.is_e (Str.digit_char d) = false
  /\ Str.is_dot (Str.digit_char d) = false.
Proof.
  intros H.
  assert (d = 0 \/ d = 1 \/ d = 2 \/ d = 3 \/ d = 4 \/ d = 5 \/ d = 6 \/ d = 7
          \/ d = 8 \/ d = 9) as Hd by lia.
  repeat (destruct Hd as [-> | Hd]; [repeat split; reflexivity|]).
  subst d. repeat split; reflexivity.
Qed.

Lemma is_digit_not_sep c :
  Str.is_digit c = true ->
  Str.is_e c = false /\ Str.is_dot c = false
  /\ Ascii.eqb c "-" = false /\ Ascii.eqb c "+" = false.
Proof.
  intros H. unfold Str.is_digit in H. apply andb_true_iff in H as [H1 H2].
  apply Nat.leb_le in H1, H2.
  unfold Str.is_e, Str.is_dot.
  repeat split.
  - apply orb_false_iff. split; apply Ascii.eqb_neq; intros ->;
      vm_compute in H1, H2; lia.
  - apply Ascii.eqb_neq; intros ->; vm_compute in H1, H2; lia.
  - apply Ascii.eqb_neq; intros ->; vm_compute in H1, H2; lia.
  - apply Ascii.eqb_neq; intros ->; vm_compute in H1, H2; lia.
Qed.

Lemma digits_value_app l1 l2 :
  Str.digits_value (l1 ++ l2)
  = Str.digits_value l1 * 10 ^ Z.of_nat (length l2) + Str.digits_value l2.
Proof.
  unfold Str.digits_value.
  rewrite fold_left_app.
  generalize (fold_left (fun acc c => 10 * acc + Str.digit_val c) l1 0) as a.
  induction l2 as [|c l2 IH] using rev_ind; intros a.
  - simpl. lia.
  - rewrite !fold_left_app. cbn [fold_left].
    rewrite IH, length_app. cbn [length].
    rewrite Nat2Z.inj_add, Z.pow_add_r by lia.
    change (10 ^ Z.of_nat 1) with 10. ring.
Qed.

Lemma digits_aux_spec fuel :
  forall n, 0 <= n < 2 ^ Z.of_nat fuel ->
    Str.all_digits (Str.digits_aux fuel n) = true
    /\ Str.digits_value (Str.digits_aux fuel n) = n
    /\ (0 < fuel -> Str.digits_aux fuel n <> [])%nat.
Proof.
  induction fuel as [|f IH]; intros n Hn.
  - simpl in Hn. assert (n = 0) by lia. subst. repeat split. lia.
  - cbn [Str.digits_aux].
    pose proof (Z.div_mod n 10 ltac:(lia)) as Hdm.
    pose proof (Z.mod_pos_bound n 10 ltac:(lia)) as Hmb.
    destruct (digit_char_spec (n mod 10) ltac:(lia)) as (Hd1 & Hd2 & _).
    assert (Hlast_val : Str.digits_value [Str.digit_char (n mod 10)] = n mod 10).
    { unfold Str.digits_value. cbn [fold_left]. rewrite Hd2. lia. }
    destruct (Z.ltb_spec n 10) as [Hlt|Hge].
    + cbn [app]. repeat split.
      * unfold Str.all_digits. cbn [forallb]. rewrite Hd1. reflexivity.
      * rewrite Hlast_val. rewrite Z.mod_small; lia.
      * discriminate.
    + assert (Hf : 0 <= n / 10 < 2 ^ Z.of_nat f).
      { rewrite Nat2Z.inj_succ, Z.pow_succ_r in Hn by lia.
        split.
        - apply Z.div_pos; lia.
        - apply Z.div_lt_upper_bound; lia. }
      destruct (IH _ Hf) as (Ha & Hv & _).
      repeat split.
      * unfold Str.all_digits in *. rewrite forallb_app, Ha. cbn [forallb]. rewrite Hd1. reflexivity.
      * rewrite digits_value_app, Hv, Hlast_val. cbn [length].
        change (10 ^ Z.of_nat 1) with 10. lia.
      * intros _ H. apply app_eq_nil in H as [_ H]. discriminate.
Qed.

Lemma log2_fuel n : 0 <= n -> n < 2 ^ Z.of_nat (S (Z.to_nat (Z.log2 n))).
Proof.
  intros Hn. pose proof (Z.log2_nonneg n).
  rewrite Nat2Z.inj_succ, Z2Nat.id by lia.
  destruct (Z.eq_dec n 0) as [->|]; [simpl; lia|].
  apply Z.log2_spec. lia.
Qed.

Lemma digits_spec n :
  0 <= n ->
  Str.all_digits (Str.digits n) = true
  /\ Str.digits_value (Str.digits n) = n
  /\ Str.digits n <> [].
Proof.
  intros Hn. unfold Str.digits.
  destruct (digits_aux_spec _ n (conj Hn (log2_fuel n Hn))) as (H1 & H2 & H3).
  repeat split; auto. apply H3. lia.
Qed.

(** The digits do not depend on the fuel, once there is enough of it. *)
Lemma digits_aux_indep f1 :
  forall f2 n, 1 <= n < 2 ^ Z.of_nat f1 -> n < 2 ^ Z.of_nat f2 ->
    Str.digits_aux f1 n = Str.digits_aux f2 n.
Proof.
  induction f1 as [|f1 IH]; intros f2 n H1 H2.
  - simpl in H1. lia.
  - destruct f2 as [|f2].
    + simpl in H2. lia.
    + cbn [Str.digits_aux].
      destruct (Z.ltb_spec n 10); [reflexivity|].
      f_equal. apply IH.
      * rewrite Nat2Z.inj_succ, Z.pow_succ_r in H1 by lia.
        split; [apply Z.div_le_lower_bound; lia | apply Z.div_lt_upper_bound; lia].
      * rewrite Nat2Z.inj_succ, Z.pow_succ_r in H2 by lia.
        apply Z.div_lt_upper_bound; lia.
Qed.

Lemma digits_times_10 n : 1 <= n -> Str.digits (10 * n) = Str.digits n ++ ["0"%char].
Proof.
  intros Hn. unfold Str.digits at 1. cbn [Str.digits_aux].
  destruct (Z.ltb_spec (10 * n) 10); [lia|].
  assert (E1 : 10 * n / 10 = n) by (rewrite Z.mul_comm; apply Z.div_mul; lia).
  assert (E2 : (10 * n) mod 10 = 0) by (rewrite Z.mul_comm; apply Z.mod_mul; lia).
  rewrite E1, E2.
  f_equal. unfold Str.digits. apply digits_aux_indep.
  - split; [lia|].
    pose proof (log2_fuel (10 * n) ltac:(lia)) as H10.
    rewrite Nat2Z.inj_succ, Z.pow_succ_r in H10 by lia. lia.
  - apply log2_fuel. lia.
Qed.

Lemma digits_times_pow10 n z :
  1 <= n -> Str.digits (n * 10 ^ Z.of_nat z) = Str.digits n ++ repeat "0"%char z.
Proof.
  intros Hn. induction z as [|z IH].
  - simpl. rewrite Z.mul_1_r, app_nil_r. reflexivity.
  - rewrite Nat2Z.inj_succ, Z.pow_succ_r by lia.
    replace (n * (10 * 10 ^ Z.of_nat z)) with (10 * (n * 10 ^ Z.of_nat z)) by ring.
    rewrite digits_times_10.
    + rewrite IH, <- app_assoc. f_equal.
      change ["0"%char] with (repeat "0"%char 1).
      rewrite <- repeat_app. f_equal. lia.
    + assert (0 < 10 ^ Z.of_nat z) by (apply Z.pow_pos_nonneg; lia). nia.
Qed.

(** ** Trailing zeros *)

Lemma strip_aux_spec fuel :
  forall n z, 1 <= n -> 0 <= z ->
    let '(c, z') := Str.strip_aux fuel n z in
    1 <= c /\ z <= z' /\ n = c * 10 ^ (z' - z).
Proof.
  induction fuel as [|f IH]; intros n z Hn Hz.
  - simpl. rewrite Z.sub_diag. simpl. lia.
  - cbn [Str.strip_aux].
    destruct (Z.eqb_spec (n mod 10) 0) as [E|E].
    + pose proof (Z.div_mod n 10 ltac:(lia)) as Hdm.
      assert (Hn' : 1 <= n / 10) by lia.
      specialize (IH (n / 10) (z + 1) Hn' ltac:(lia)).
      destruct (Str.strip_aux f (n / 10) (z + 1)) as [c z'].
      destruct IH as (Hc & Hz' & Hv).
      split; [exact Hc|]. split; [lia|].
      replace (z' - z) with (Z.succ (z' - (z + 1))) by lia.
      rewrite Z.pow_succ_r by lia. lia.
    + rewrite Z.sub_diag. simpl. lia.
Qed.

Lemma strip_zeros_spec n :
  1 <= n ->
  let '(c, z) := Str.strip_zeros n in 1 <= c /\ 0 <= z /\ n = c * 10 ^ z.
Proof.
  intros Hn. unfold Str.strip_zeros.
  pose proof (strip_aux_spec (Z.to_nat (Z.log2 n)) n 0 Hn ltac:(lia)) as H.
  destruct (Str.strip_aux _ n 0) as [c z].
  rewrite Z.sub_0_r in H. exact H.
Qed.

Lemma digits_aux_length fuel :
  forall n, 1 <= n < 2 ^ Z.of_nat fuel ->
    10 ^ (Z.of_nat (length (Str.digits_aux fuel n)) - 1) <= n.
Proof.
  induction fuel as [|f IH]; intros n Hn.
  - simpl in Hn. lia.
  - cbn [Str.digits_aux]. rewrite length_app. cbn [length].
    destruct (Z.ltb_spec n 10) as [Hlt|Hge].
    + simpl. lia.
    + assert (Hf : 1 <= n / 10 < 2 ^ Z.of_nat f).
      { rewrite Nat2Z.inj_succ, Z.pow_succ_r in Hn by lia.
        split; [apply Z.div_le_lower_bound; lia | apply Z.div_lt_upper_bound; lia]. }
      specialize (IH _ Hf).
      destruct (digits_aux_spec f (n / 10) ltac:(lia)) as (_ & _ & Hne).
      assert (0 < length (Str.digits_aux f (n / 10)))%nat.
      { destruct f; [simpl in Hf; lia|].
        specialize (Hne ltac:(lia)).
        destruct (Str.digits_aux (S f) (n / 10)); [congruence | simpl; lia]. }
      pose proof (Z.div_mod n 10 ltac:(lia)) as Hdm.
      pose proof (Z.mod_pos_bound n 10 ltac:(lia)) as Hmb.
      replace (Z.of_nat (length (Str.digits_aux f (n / 10)) + 1) - 1)
        with (Z.succ (Z.of_nat (length (Str.digits_aux f (n / 10))) - 1)) by lia.
      rewrite Z.pow_succ_r by lia. lia.
Qed.

Lemma digits_length n :
  1 <= n -> 10 ^ (Z.of_nat (length (Str.digits n)) - 1) <= n.
Proof.
  intros Hn. apply digits_aux_length. split; [exact Hn | apply log2_fuel; lia].
Qed.

Lemma zeros_all_digits z : Str.all_digits (repeat "0"%char z) = true.
Proof. induction z; [reflexivity | exact IHz]. Qed.

Lemma zeros_value z : Str.digits_value (repeat "0"%char z) = 0.
Proof.
  unfold Str.digits_value.
  induction z as [|z IH]; [reflexivity|].
  cbn [repeat fold_left]. exact IH.
Qed.

(** ** Reading a literal *)

Lemma split_at_none p l :
  forallb (fun c => negb (p c)) l = true -> Str.split_at p l = (l, None).
Proof.
  induction l as [|c l IH]; intros H; [reflexivity|].
  cbn [forallb] in H. apply andb_true_iff in H as [Hc Hl].
  cbn [Str.split_at]. apply negb_true_iff in Hc. rewrite Hc, (IH Hl). reflexivity.
Qed.

Lemma split_at_some p l c r :
  forallb (fun c => negb (p c)) l = true -> p c = true ->
  Str.split_at p (l ++ c :: r) = (l, Some r).
Proof.
  induction l as [|x l IH]; intros H Hc.
  - cbn [app Str.split_at]. rewrite Hc. reflexivity.
  - cbn [forallb] in H. apply andb_true_iff in H as [Hx Hl].
    cbn [app Str.split_at]. apply negb_true_iff in Hx. rewrite Hx, (IH Hl Hc). reflexivity.
Qed.

Lemma all_digits_no_e l :
  Str.all_digits l = true -> forallb (fun c => negb (Str.is_e c)) l = true.
Proof.
  unfold Str.all_digits. induction l as [|c l IH]; intros H; [reflexivity|].
  cbn [forallb] in *. apply andb_true_iff in H as [Hc Hl].
  destruct (is_digit_not_sep c Hc) as (He & _). rewrite He, (IH Hl). reflexivity.
Qed.

Lemma all_digits_no_dot l :
  Str.all_digits l = true -> forallb (fun c => negb (Str.is_dot c)) l = true.
Proof.
  unfold Str.all_digits. induction l as [|c l IH]; intros H; [reflexivity|].
  cbn [forallb] in *. apply andb_true_iff in H as [Hc Hl].
  destruct (is_digit_not_sep c Hc) as (_ & Hd & _). rewrite Hd, (IH Hl). reflexivity.
Qed.

Lemma nonempty_true l : l <> [] -> Str.nonempty l = true.
Proof. destruct l; [congruence | reflexivity]. Qed.

(** A string of digits reads as the integer it denotes. *)
Lemma parse_decimal_plain l :
  Str.all_digits l = true -> l <> [] ->
  Str.parse_decimal l = Some (Fin (Str.digits_value l) 0).
Proof.
  intros Hd Hne. unfold Str.parse_decimal.
  rewrite (split_at_none Str.is_e l (all_digits_no_e l Hd)).
  rewrite (split_at_none Str.is_dot l (all_digits_no_dot l Hd)).
  rewrite Hd, (nonempty_true l Hne). cbn [andb Str.all_digits forallb length].
  rewrite app_nil_r. cbn [Z.of_nat Z.sub Z.opp Z.add Z.leb Z.compare].
  rewrite Z.pow_0_r, Z.mul_1_r. reflexivity.
Qed.

(** A literal in exponential notation with a non-negative shift reads as
    an integer. *)
Lemma parse_decimal_exp ip frac ex :
  Str.all_digits ip = true -> Str.all_digits frac = true -> Str.all_digits ex = true ->
  ip <> [] -> ex <> [] ->
  0 <= Str.digits_value ex - Z.of_nat (length frac) ->
  Str.parse_decimal
    (ip ++ match frac with [] => [] | _ :: _ => "."%char :: frac end
        ++ "e"%char :: "+"%char :: ex)
  = Some (Fin (Str.digits_value (ip ++ frac)
               * 10 ^ (Str.digits_value ex - Z.of_nat (length frac))) 0).
Proof.
  intros Hip Hfrac Hex Hne Hexne Hsh. unfold Str.parse_decimal.
  assert (Hmant_e :
            forallb (fun c => negb (Str.is_e c))
              (ip ++ match frac with [] => [] | _ :: _ => "."%char :: frac end) = true).
  { rewrite forallb_app, (all_digits_no_e ip Hip). cbn [andb].
    destruct frac as [|f0 fr]; [reflexivity|].
    change (forallb _ ("."%char :: f0 :: fr))
      with (negb (Str.is_e "."%char) && forallb (fun c => negb (Str.is_e c)) (f0 :: fr)).
    rewrite (all_digits_no_e _ Hfrac). reflexivity. }
  rewrite app_assoc.
  rewrite (split_at_some Str.is_e _ "e"%char ("+"%char :: ex) Hmant_e eq_refl).
  assert (Hsplit :
            Str.split_at Str.is_dot
              (ip ++ match frac with [] => [] | _ :: _ => "."%char :: frac end)
            = (ip, match frac with [] => None | _ :: _ => Some frac end)).
  { destruct frac as [|f0 fr].
    - rewrite app_nil_r. apply split_at_none, all_digits_no_dot, Hip.
    - apply split_at_some; [apply all_digits_no_dot, Hip | reflexivity]. }
  rewrite Hsplit.
  assert (Hfd : match match frac with [] => None | _ :: _ => Some frac end with
                | Some f => f | None => [] end = frac)
    by (destruct frac; reflexivity).
  rewrite Hfd, Hip, Hfrac, (nonempty_true ip Hne).
  assert (Hok : match match frac with [] => None | _ :: _ => Some frac end with
                | Some f => true || Str.nonempty f | None => true end = true)
    by (destruct frac; reflexivity).
  cbn [andb]. rewrite Hok.
  unfold Str.parse_exponent.
  change (Ascii.eqb "+"%char "-"%char) with false.
  change (Ascii.eqb "+"%char "+"%char) with true. cbv iota.
  rewrite Hex, (nonempty_true ex Hexne). cbn [andb].
  destruct (Z.leb_spec 0 (Str.digits_value ex - Z.of_nat (length frac))); [reflexivity | lia].
Qed.

Lemma parse_signed (sg : bool) body d :
  Str.parse_decimal body = Some d ->
  (exists c r, body = c :: r /\ Str.is_digit c = true) ->
  Str.parse (string_of_list_ascii (if sg then "-"%char :: body else body))
  = Ok (if sg then neg d else d).
Proof.
  intros Hp (c & r & -> & Hc). unfold Str.parse.
  rewrite list_ascii_of_string_of_list_ascii.
  destruct sg.
  - change (Ascii.eqb "-"%char "-"%char) with true. cbv iota. rewrite Hp. reflexivity.
  - destruct (is_digit_not_sep c Hc) as (_ & _ & Hm & Hpl).
    rewrite Hm, Hpl, Hp. reflexivity.
Qed.

Lemma all_digits_head l :
  Str.all_digits l = true -> l <> [] ->
  exists c r, l = c :: r /\ Str.is_digit c = true /\ Str.all_digits r = true.
Proof.
  intros H Hne. destruct l as [|c r]; [congruence|].
  unfold Str.all_digits in *. cbn [forallb] in H. apply andb_true_iff in H as [H1 H2].
  exists c, r. auto.
Qed.

(** ** Printing an integer and reading it back *)

Lemma toString_int A :
  A <> 0 ->
  exists body,
    Str.toString (Fin A 0)
    = string_of_list_ascii (if A <? 0 then "-"%char :: body else body)
    /\ Str.parse_decimal body = Some (Fin (Z.abs A) 0)
    /\ (exists c r, body = c :: r /\ Str.is_digit c = true)
    /\ (Z.abs A < 10 ^ 50 -> body = Str.digits (Z.abs A)).
Proof.
  intros HA. unfold Str.toString.
  destruct (Z.eqb_spec A 0) as [|_]; [contradiction|].
  pose proof (strip_zeros_spec (Z.abs A) ltac:(lia)) as Hstrip.
  destruct (Str.strip_zeros (Z.abs A)) as [c0 z].
  destruct Hstrip as (Hc0 & Hz & Hval).
  destruct (digits_spec c0 ltac:(lia)) as (Hall & Hdv & Hne).
  pose proof (digits_length c0 Hc0) as Hlen.
  set (ds := Str.digits c0) in *.
  assert (Hlen1 : 1 <= Z.of_nat (length ds)).
  { destruct ds; [congruence | cbn [length]; lia]. }
  set (len := Z.of_nat (length ds)) in *.
  cbn [Z.of_nat]. rewrite Z.sub_0_r.
  set (e := len + z - 1).
  assert (He : 0 <= e) by (unfold e; lia).
  assert (Hpow : 10 ^ e <= Z.abs A).
  { rewrite Hval. unfold e. replace (len + z - 1) with ((len - 1) + z) by lia.
    rewrite Z.pow_add_r by lia.
    assert (0 < 10 ^ z) by (apply Z.pow_pos_nonneg; lia). nia. }
  unfold toExpNeg, toExpPos.
  destruct (Z.leb_spec e (-20)) as [|_]; [lia|]. cbn [orb].
  destruct (all_digits_head ds Hall Hne) as (d0 & rest & Hds & Hd0 & Hrest).
  destruct (Z.leb_spec 50 e) as [Hexp|Hfix].
  - (* exponential notation *)
    destruct (Z.ltb_spec e 0) as [|_]; [lia|].
    destruct (digits_spec e He) as (Heall & Hedv & Hene).
    exists (firstn 1 ds ++ (if 1 <? len then "."%char :: skipn 1 ds else [])
              ++ "e"%char :: ["+"%char] ++ Str.of_Z e).
    split; [reflexivity|].
    assert (HofZ : Str.of_Z e = Str.digits e).
    { unfold Str.of_Z. destruct (Z.ltb_spec e 0); [lia | reflexivity]. }
    rewrite HofZ, Hds.
    change (firstn 1 (d0 :: rest)) with [d0].
    change (skipn 1 (d0 :: rest)) with rest.
    assert (Hfrac : (if 1 <? len then "."%char :: rest else [])
                    = match rest with [] => [] | _ :: _ => "."%char :: rest end).
    { unfold len. rewrite Hds. cbn [length].
      destruct rest as [|r0 rest'].
      - reflexivity.
      - destruct (Z.ltb_spec 1 (Z.of_nat (S (length (r0 :: rest'))))) as [|Hbad];
          [reflexivity|]. cbn [length] in Hbad. lia. }
    rewrite Hfrac.
    assert (Hshift : Str.digits_value (Str.digits e) - Z.of_nat (length rest) = z).
    { rewrite Hedv. unfold e, len. rewrite Hds. cbn [length]. lia. }
    split; [|split].
    + change ("e"%char :: ["+"%char] ++ Str.digits e)
        with ("e"%char :: "+"%char :: Str.digits e).
      rewrite (parse_decimal_exp [d0] rest (Str.digits e)).
      * rewrite Hshift. change ([d0] ++ rest) with (d0 :: rest).
        rewrite <- Hds. fold ds. rewrite Hdv, <- Hval. reflexivity.
      * unfold Str.all_digits. cbn [forallb]. rewrite Hd0. reflexivity.
      * exact Hrest.
      * exact Heall.
      * discriminate.
      * exact Hene.
      * lia.
    + exists d0, (match rest with [] => [] | _ :: _ => "."%char :: rest end
                    ++ "e"%char :: ["+"%char] ++ Str.digits e).
      split; [reflexivity | exact Hd0].
    + intros Hsmall. exfalso.
      assert (10 ^ 50 <= 10 ^ e) by (apply Z.pow_le_mono_r; lia). lia.
  - (* plain digits *)
    destruct (Z.ltb_spec e 0) as [|_]; [lia|].
    destruct (Z.leb_spec len (e + 1)) as [_|]; [|unfold e in *; lia].
    exists (ds ++ repeat "0"%char (Z.to_nat (e + 1 - len))).
    split; [reflexivity|].
    replace (e + 1 - len) with z by (unfold e; lia).
    split; [|split].
    + rewrite parse_decimal_plain.
      * rewrite digits_value_app, repeat_length, zeros_value, Hdv, Z2Nat.id by lia.
        rewrite Z.add_0_r, <- Hval. reflexivity.
      * unfold Str.all_digits in *. rewrite forallb_app, Hall.
        apply zeros_all_digits.
      * rewrite Hds. discriminate.
    + exists d0, (rest ++ repeat "0"%char (Z.to_nat z)).
      split; [rewrite Hds; reflexivity | exact Hd0].
    + intros _. rewrite Hval.
      rewrite <- (Z2Nat.id z) at 2 by lia.
      symmetry. apply digits_times_pow10. exact Hc0.
Qed.

Lemma parse_toString_int A : Str.parse (Str.toString (Fin A 0)) = Ok (Fin A 0).
Proof.
  destruct (Z.eq_dec A 0) as [->|HA]; [vm_compute; reflexivity|].
  destruct (toString_int A HA) as (body & Hs & Hp & Hhead & _).
  rewrite Hs, (parse_signed (A <? 0) body _ Hp Hhead).
  destruct (Z.ltb_spec A 0); cbn [neg]; do 2 f_equal; lia.
Qed.

Lemma toString_int_plain A :
  Z.abs A < 10 ^ 50 -> Str.toString (Fin A 0) = string_of_list_ascii (Str.of_Z A).
Proof.
  intros Hsmall.
  destruct (Z.eq_dec A 0) as [->|HA]; [vm_compute; reflexivity|].
  destruct (toString_int A HA) as (body & Hs & _ & _ & Hplain).
  rewrite Hs, (Hplain Hsmall). unfold Str.of_Z.
  destruct (Z.ltb_spec A 0).
  - rewrite Z.abs_neq by lia. reflexivity.
  - rewrite Z.abs_eq by lia. reflexivity.
Qed.

(** ** Allocation *)

Lemma weights_in_range (k : nat) (b : Z) ratios ws :
  Forall2 (fun ratio w => scaled (Conv.ofNumber ratio) k = Some w /\ 0 <= w <= b)
          ratios ws ->
  Forall (fun w => 0 <= w <= b) ws.
Proof.
  induction 1 as [|ratio w ratios ws [_ Hw] _ IH]; constructor; assumption.
Qed.

(** C1 (as stated, refuted): on -100 minor units and the ratios [1, 2] the
    first part is -33, while the floor of -100 / 3 is -34; and on an
    amount of 41 digits, 10^40 + 1, the single part for the ratio [1] is
    10^40, so the parts do not sum to the amount. *)
Lemma allocate_truncates_within_precision :
  Money.allocate (money (-100) USD) [Num.of_Z 1; Num.of_Z 2]
  = Ok [money (-33) USD; money (-67) USD]
  /\ (-100 * 1) / 3 = -34
  /\ Money.allocate (money (10 ^ 40 + 1) USD) [Num.of_Z 1] = Ok [money (10 ^ 40) USD]
  /\ sumZ [10 ^ 40] <> 10 ^ 40 + 1.
Proof. repeat split; vm_compute; congruence. Qed.

(** C1 (amended): let [ratios] be any permutation of a non-empty sequence
    [r] of numbers, let the total (their floating-point sum in that order)
    read as the decimal [b / 10^k] with [0 < b], and each ratio as
    [w / 10^k] with [0 <= w <= b]. For an amount [A] within the 40-digit
    working precision ([|A| * b < 10^39] and [(n + 1) * |A| < 10^40]),
    [allocate] returns [n = len(r)] parts that sum exactly to [A]; every
    part before the last is [A * w / b] truncated toward zero (the floor
    when [A >= 0]), and the last part is its truncated share plus the
    remainder [A] minus the sum of all truncated shares. *)
Theorem allocate_exact (A : Z) (c : CurrencyDefinition)
    (r ratios : list Num.number) (k : nat) (b : Z) (ws : list Z) :
  Permutation r ratios ->
  ratios <> [] ->
  scaled (Conv.ofNumber (fold_left Num.add ratios Num.zero)) k = Some b ->
  0 < b ->
  Forall2 (fun ratio w => scaled (Conv.ofNumber ratio) k = Some w /\ 0 <= w <= b)
          ratios ws ->
  Z.abs A * b < 10 ^ 39 ->
  (Z.of_nat (length ratios) + 1) * Z.abs A < 10 ^ 40 ->
  exists parts,
    Money.allocate (money A c) ratios = Ok (map (fun v => money v c) parts)
    /\ length parts = length r
    /\ sumZ parts = A
    /\ (forall i w, (S i < length ws)%nat -> ws !! i = Some w ->
                    parts !! i = Some ((A * w) ÷ b))
    /\ (forall w, last ws = Some w ->
                  last parts
                  = Some ((A * w) ÷ b + (A - sumZ (map (fun w => (A * w) ÷ b) ws))))
    /\ (0 <= A -> Forall (fun w => (A * w) ÷ b = (A * w) / b) ws).
Proof.
  intros Hperm Hne Htotal Hb HF HA Hn.
  exists (shares_from A b ws A).
  pose proof (Forall2_length _ _ _ HF) as Hlen.
  split; [|split; [|split; [|split; [|split]]]].
  - unfold Money.allocate. cbn [amount money].
    apply (allocate_from_spec A c _ k b Htotal Hb HA ratios ws); [exact HF | lia | lia].
  - rewrite shares_from_length, <- Hlen. symmetry. apply Permutation_length, Hperm.
  - apply shares_from_sum. intros ->. apply Forall2_nil_inv_r in HF. contradiction.
  - intros i w Hi Hw. apply shares_from_lookup; assumption.
  - intros w Hw. apply (shares_from_last A b ws A w Hw).
  - intros HA0. pose proof (weights_in_range k b ratios ws HF) as Hws.
    eapply Forall_impl; [exact Hws|].
    intros w Hw. cbv beta in *. apply Z.quot_div_nonneg; nia.
Qed.

Lemma allocate_exact_witness :
  exists parts,
    Money.allocate (money 100000 PHP) [Num.of_Z 1; Num.of_Z 2; Num.of_Z 3]
    = Ok (map (fun v => money v PHP) parts)
    /\ length parts = 3%nat
    /\ sumZ parts = 100000
    /\ parts !! 0%nat = Some 16666
    /\ last parts = Some 50001.
Proof.
  assert (H1 : Permutation [Num.of_Z 3; Num.of_Z 1; Num.of_Z 2]
                           [Num.of_Z 1; Num.of_Z 2; Num.of_Z 3]).
  { apply Permutation_sym.
    apply (Permutation_cons_app [Num.of_Z 3] [Num.of_Z 2] (Num.of_Z 1)).
    apply (Permutation_cons_app [Num.of_Z 3] [] (Num.of_Z 2)).
    apply Permutation_refl. }
  assert (H2 : [Num.of_Z 1; Num.of_Z 2; Num.of_Z 3] <> []) by discriminate.
  assert (H3 : scaled (Conv.ofNumber
                         (fold_left Num.add [Num.of_Z 1; Num.of_Z 2; Num.of_Z 3] Num.zero))
                      0 = Some 6) by (vm_compute; reflexivity).
  assert (H4 : 0 < 6) by lia.
  assert (H5 : Forall2 (fun ratio w => scaled (Conv.ofNumber ratio) 0 = Some w /\ 0 <= w <= 6)
                       [Num.of_Z 1; Num.of_Z 2; Num.of_Z 3] [1; 2; 3]).
  { repeat constructor; vm_compute; congruence. }
  assert (H6 : Z.abs 100000 * 6 < 10 ^ 39) by (vm_compute; reflexivity).
  assert (H7 : (Z.of_nat (length [Num.of_Z 1; Num.of_Z 2; Num.of_Z 3]) + 1) * Z.abs 100000
               < 10 ^ 40) by (vm_compute; reflexivity).
  destruct (allocate_exact 100000 PHP _ _ 0 6 [1; 2; 3] H1 H2 H3 H4 H5 H6 H7)
    as (parts & Ha & Hl & Hs & Hi & Hlast & _).
  exists parts.
  split; [exact Ha|]. split; [exact Hl|]. split; [exact Hs|].
  split.
  - apply (Hi 0%nat 1); [simpl; lia | reflexivity].
  - apply (Hlast 3). reflexivity.
Defined.

(** ** Amounts at rest: an instance *)


(** ** Serialization *)



(** * Further properties of the code *)

(** ** The currency table, entry by entry *)

Lemma table_codes (k : string) (c : CurrencyDefinition) :
  CURRENCIES !! k = Some c -> code c = k.
Proof.
  intros H.
  assert (Hin : exists L : list (string * CurrencyDefinition),
             Forall (fun kv => code (snd kv) = fst kv) L /\ (k, c) ∈ L).
  { with_strategy transparent [CURRENCIES] (unfold CURRENCIES in H).
    match type of H with
    | list_to_map ?L !! _ = _ => exists L
    end.
    split; [repeat constructor|].
    apply elem_of_list_to_map_2 in H. exact H. }
  destruct Hin as (L & HF & Hin).
  rewrite Forall_forall in HF. exact (HF (k, c) Hin).
Qed.

Lemma table_entry (k : string) (c : CurrencyDefinition) :
  CURRENCIES !! k = Some c -> CURRENCIES !! code c = Some c.
Proof. intros H. rewrite (table_codes k c H). exact H. Qed.

Lemma table_minor_units (k : string) (c : CurrencyDefinition) :
  CURRENCIES !! k = Some c -> (minorUnits c <= 3)%nat.
Proof.
  intros H.
  assert (Hin : exists L : list (string * CurrencyDefinition),
             Forall (fun kv => (minorUnits (snd kv) <= 3)%nat) L /\ (k, c) ∈ L).
  { with_strategy transparent [CURRENCIES] (unfold CURRENCIES in H).
    match type of H with
    | list_to_map ?L !! _ = _ => exists L
    end.
    split; [repeat constructor; simpl; lia|].
    apply elem_of_list_to_map_2 in H. exact H. }
  destruct Hin as (L & HF & Hin).
  rewrite Forall_forall in HF. exact (HF (k, c) Hin).
Qed.

(** X1: every key of the currency table is the code of its entry, and no
    entry has more than three minor-unit digits. *)
Theorem table_keys_are_codes (k : string) (c : CurrencyDefinition) :
  CURRENCIES !! k = Some c ->
  code c = k /\ CURRENCIES !! code c = Some c /\ (minorUnits c <= 3)%nat.
Proof.
  intros H. split; [exact (table_codes k c H)|].
  split; [exact (table_entry k c H) | exact (table_minor_units k c H)].
Qed.

Lemma table_keys_are_codes_witness :
  CURRENCIES !! "KWD"%string
  = Some {| code := "KWD"; name := "Kuwaiti Dinar"; symbol := "د.ك"; minorUnits := 3 |}
  /\ (3 <= 3)%nat.
Proof.
  assert (H : CURRENCIES !! "KWD"%string
              = Some {| code := "KWD"; name := "Kuwaiti Dinar"; symbol := "د.ك";
                        minorUnits := 3 |}) by (vm_compute; reflexivity).
  split; [exact H|].
  exact (proj2 (proj2 (table_keys_are_codes _ _ H))).
Defined.

(** ** Allocation never fails *)

Lemma allocate_from_total this total len ratios :
  forall i remainder,
  exists parts,
    Money.allocate_from this total len i ratios remainder = Ok parts
    /\ length parts = length ratios
    /\ Forall (fun p => currency p = currency this) parts.
Proof.
  induction ratios as [|ratio rest IH]; intros i remainder.
  - exists []. repeat split. constructor.
  - cbn [Money.allocate_from]. rewrite new_VDec. cbn [bind].
    match goal with
    | |- context [Money.allocate_from this total len (S i) rest ?r] =>
        destruct (IH (S i) r) as (parts & Hp & Hl & Hc)
    end.
    rewrite Hp. cbn [bind].
    eexists. split; [reflexivity|]. split; [cbn [length]; lia|].
    constructor; [reflexivity | exact Hc].
Qed.

(** X2: [allocate] never throws: for every Money and every list of ratios
    it returns one part per ratio, each in the currency of the source. *)
Theorem allocate_total (this : MajikMoney) (ratios : list Num.number) :
  exists parts,
    Money.allocate this ratios = Ok parts
    /\ length parts = length ratios
    /\ Forall (fun p => currency p = currency this) parts.
Proof. apply allocate_from_total. Qed.

(** X3: [evenSplit] rejects a part count that is zero or negative
    (InvalidAllocation) and, past that guard, one that is not an integer
    below [2^32] (the RangeError of [Array(parts)]); for an integer count
    [n] in range it returns exactly [n] parts. *)
Theorem evenSplit_guards (this : MajikMoney) (parts : Num.number) :
  (Num.leb parts Num.zero = true ->
   Money.evenSplit this parts = Throw InvalidAllocation)
  /\ (Num.leb parts Num.zero = false ->
      (forall n, Num.to_Z parts = Some n -> 2 ^ 32 <= n) ->
      Money.evenSplit this parts = Throw RangeError)
  /\ (forall n,
        Num.leb parts Num.zero = false ->
        Num.to_Z parts = Some n -> n < 2 ^ 32 ->
        exists l, Money.evenSplit this parts = Ok l /\ length l = Z.to_nat n).
Proof.
  unfold Money.evenSplit. split; [|split].
  - intros ->. reflexivity.
  - intros -> H. destruct (Num.to_Z parts) as [n|]; [|reflexivity].
    specialize (H n eq_refl).
    destruct (Z.ltb_spec n (2 ^ 32)); [lia | reflexivity].
  - intros n -> -> Hn.
    destruct (Z.ltb_spec n (2 ^ 32)); [|lia].
    destruct (allocate_from_total this
                (fold_left Num.add (repeat (Num.of_Z 1) (Z.to_nat n)) Num.zero)
                (length (repeat (Num.of_Z 1) (Z.to_nat n))) (repeat (Num.of_Z 1) (Z.to_nat n))
                0%nat (amount this)) as (l & Hl & Hlen & _).
    exists l. split; [exact Hl|]. rewrite Hlen. apply repeat_length.
Qed.

Lemma evenSplit_guards_witness :
  Num.leb (Num.of_Z 3) Num.zero = false
  /\ Num.to_Z (Num.of_Z 3) = Some 3
  /\ exists l, Money.evenSplit (money 100000 PHP) (Num.of_Z 3) = Ok l
               /\ length l = Z.to_nat 3.
Proof.
  assert (H1 : Num.leb (Num.of_Z 3) Num.zero = false) by (vm_compute; reflexivity).
  assert (H2 : Num.to_Z (Num.of_Z 3) = Some 3) by (vm_compute; reflexivity).
  assert (H3 : 3 < 2 ^ 32) by (vm_compute; reflexivity).
  split; [exact H1|]. split; [exact H2|].
  exact (proj2 (proj2 (evenSplit_guards (money 100000 PHP) (Num.of_Z 3))) 3 H1 H2 H3).
Defined.

(** ** Rounding to minor units *)

Lemma toDecimalPlaces_normalise rm s :
  forall M, toDecimalPlaces (normalise M s) 0 rm = Fin (round_div rm M (pow10 s)) 0.
Proof.
  induction s as [|s IH]; intros M.
  - cbn [normalise toDecimalPlaces Nat.leb]. unfold pow10. simpl.
    rewrite round_div_1. reflexivity.
  - cbn [normalise].
    destruct (Z.eqb_spec (M mod 10) 0) as [E|E].
    + rewrite IH. f_equal.
      pose proof (Z.div_mod M 10 ltac:(lia)) as Hdm.
      assert (HM : M = M / 10 * 10) by lia.
      rewrite HM at 2.
      unfold pow10. rewrite Nat2Z.inj_succ, Z.pow_succ_r by lia.
      rewrite (Z.mul_comm 10 (10 ^ Z.of_nat s)).
      symmetry. apply round_div_scale; [apply Z.pow_pos_nonneg; lia | lia].
    + apply toDecimalPlaces_Fin.
Qed.

Lemma normalise_shift d : forall M s, normalise (M * pow10 d) (d + s) = normalise M s.
Proof.
  induction d as [|d IH]; intros M s.
  - unfold pow10. simpl. rewrite Z.mul_1_r. reflexivity.
  - cbn [Nat.add normalise].
    assert (E : M * pow10 (S d) = M * pow10 d * 10).
    { unfold pow10. rewrite Nat2Z.inj_succ, Z.pow_succ_r by lia. ring. }
    rewrite E, Z.mod_mul, Z.div_mul by lia. cbn [Z.eqb]. apply IH.
Qed.

Lemma finalise_small rm M s :
  Z.abs M < 10 ^ 40 -> finalise rm M s = normalise M s.
Proof.
  intros H. unfold finalise, precision.
  destruct (Z.ltb_spec (Z.abs M) (10 ^ 40)); [reflexivity | lia].
Qed.

(** The scaling of [fromMajor] and of [multiply], then the rounding. *)
Lemma mul_then_round rm rm' a sa m s :
  Z.abs (a * m) < 10 ^ 40 ->
  toDecimalPlaces (toDecimalPlaces (mul (Fin a sa) (Fin m s)) 0 rm) 0 rm'
  = Fin (round_div rm (a * m) (pow10 (sa + s))) 0.
Proof.
  intros H. unfold mul, rounding. rewrite finalise_small by exact H.
  rewrite toDecimalPlaces_normalise. reflexivity.
Qed.

Lemma round_div_multiple rm n q : 0 < q -> round_div rm (n * q) q = n.
Proof.
  intros Hq. rewrite round_div_exact by (try lia; apply Z.mod_mul; lia).
  apply Z.div_mul. lia.
Qed.

(** X4: [fromMajor] scales by [10^minorUnits] and rounds once. For a value
    [m / 10^s] and a currency of the table, within the working precision,
    a value with no more fractional digits than the currency has minor
    units converts exactly, under every rounding mode; in general the
    default mode stores a nearest integer, the even one on a tie, and
    ROUND_DOWN stores the truncation. *)
Theorem fromMajor_scales_and_rounds (v : Value) (m : Z) (s : nat)
    (k : string) (c : CurrencyDefinition) :
  new_Decimal v = Ok (Fin m s) ->
  CURRENCIES !! k = Some c ->
  Z.abs (m * pow10 (minorUnits c)) < 10 ^ 40 ->
  (forall rm, (s <= minorUnits c)%nat ->
     Money.fromMajor v k rm = Ok (money (m * pow10 (minorUnits c - s)) c))
  /\ (exists n,
        Money.fromMajor v k ROUND_HALF_EVEN = Ok (money n c)
        /\ 2 * Z.abs (n * pow10 s - m * pow10 (minorUnits c)) <= pow10 s
        /\ (2 * Z.abs (n * pow10 s - m * pow10 (minorUnits c)) = pow10 s ->
            Z.even n = true))
  /\ Money.fromMajor v k ROUND_DOWN
     = Ok (money ((m * pow10 (minorUnits c)) ÷ pow10 s) c).
Proof.
  intros Hv Hk Hsmall.
  assert (Hgen : forall rm,
             Money.fromMajor v k rm
             = Ok (money (round_div rm (m * pow10 (minorUnits c)) (pow10 s)) c)).
  { intros rm. unfold Money.fromMajor. rewrite Hk, Hv. cbn [bind].
    unfold ten_pow. rewrite new_VDec.
    rewrite (mul_then_round rm rounding m s (pow10 (minorUnits c)) 0 Hsmall).
    rewrite Nat.add_0_r. reflexivity. }
  split; [|split].
  - intros rm Hs. rewrite Hgen. do 2 f_equal.
    rewrite (pow10_split s (minorUnits c) Hs).
    replace (m * (pow10 s * pow10 (minorUnits c - s)))
      with (m * pow10 (minorUnits c - s) * pow10 s) by ring.
    apply round_div_multiple, pow10_pos.
  - exists (round_div ROUND_HALF_EVEN (m * pow10 (minorUnits c)) (pow10 s)).
    split; [apply Hgen|].
    exact (round_div_half_even_spec _ _ (pow10_pos s)).
  - rewrite Hgen, round_div_down_quot by apply pow10_pos. reflexivity.
Qed.

Lemma fromMajor_scales_and_rounds_witness :
  new_Decimal (VStr "1234.56") = Ok (Fin 123456 2)
  /\ CURRENCIES !! "PHP"%string = Some PHP
  /\ Money.fromMajor (VStr "1234.56") "PHP" ROUND_UP = Ok (money 123456 PHP).
Proof.
  assert (H1 : new_Decimal (VStr "1234.56") = Ok (Fin 123456 2)) by (vm_compute; reflexivity).
  assert (H2 : CURRENCIES !! "PHP"%string = Some PHP) by (vm_compute; reflexivity).
  assert (H3 : Z.abs (123456 * pow10 (minorUnits PHP)) < 10 ^ 40) by (vm_compute; reflexivity).
  split; [exact H1|]. split; [exact H2|].
  exact (proj1 (fromMajor_scales_and_rounds _ _ _ _ _ H1 H2 H3) ROUND_UP ltac:(simpl; lia)).
Defined.

(** ** Major units and back *)

Lemma quotient_pow10 rm A j :
  Z.abs A < 10 ^ 40 -> quotient rm A (pow10 j) = normalise A j.
Proof.
  intros HA. pose proof (pow10_pos j) as Hj.
  destruct (Z.eq_dec A 0) as [->|HA0].
  - rewrite normalise_zero. reflexivity.
  - destruct (quotient_cases rm A (pow10 j) Hj HA0) as [(t & Hq & Hlow) | Hbig].
    + pose proof (pow10_pos t) as Ht.
      assert (Hjt : (j <= t)%nat).
      { assert (Hlt : pow10 j * 10 ^ 39 < 10 ^ 40 * pow10 t) by nia.
        unfold pow10 in Hlt.
        rewrite <- !Z.pow_add_r in Hlt by lia.
        apply Z.pow_lt_mono_r_iff in Hlt; lia. }
      rewrite Hq.
      rewrite (pow10_split j t Hjt).
      replace (A * (pow10 j * pow10 (t - j))) with (A * pow10 (t - j) * pow10 j) by ring.
      rewrite round_div_multiple by exact Hj.
      replace t with ((t - j) + j)%nat at 2 by lia.
      apply normalise_shift.
    + exfalso. nia.
Qed.

Lemma toMajorDecimal_exact A c :
  Z.abs A < 10 ^ 40 ->
  Money.toMajorDecimal (money A c) = normalise A (minorUnits c).
Proof.
  intros HA. unfold Money.toMajorDecimal, ten_pow. cbn [amount currency money div].
  pose proof (pow10_pos (minorUnits c)) as Hp.
  destruct (Z.eqb_spec (pow10 (minorUnits c)) 0); [lia|].
  change (pow10 0) with 1. rewrite !Z.mul_1_r.
  destruct (Z.ltb_spec 0 (pow10 (minorUnits c))); [|lia].
  apply quotient_pow10, HA.
Qed.

(** X5: going to major units and back loses nothing: for an integer amount
    [A] with [|A| * 10^minorUnits < 10^40] and a currency of the table,
    [fromMajor(m.toMajorDecimal(), code)] is [m] again, under every
    rounding mode. *)
Theorem toMajorDecimal_fromMajor (A : Z) (k : string) (c : CurrencyDefinition)
    (rm : Rounding) :
  CURRENCIES !! k = Some c ->
  Z.abs A * pow10 (minorUnits c) < 10 ^ 40 ->
  Money.fromMajor (VDec (Money.toMajorDecimal (money A c))) k rm = Ok (money A c).
Proof.
  intros Hk Hsmall.
  pose proof (pow10_pos (minorUnits c)) as Hp.
  assert (HA : Z.abs A < 10 ^ 40) by nia.
  rewrite (toMajorDecimal_exact A c HA).
  destruct (normalise_value (minorUnits c) A) as (m1 & s1 & Hn & Hs1 & Hv).
  rewrite Hn. unfold Money.fromMajor. rewrite Hk. cbn [new_Decimal bind].
  unfold ten_pow. rewrite new_VDec.
  assert (Hm : m1 * pow10 (minorUnits c) = A * pow10 s1).
  { rewrite Hv, (pow10_split s1 (minorUnits c) Hs1). ring. }
  pose proof (pow10_pos s1) as Hp1.
  assert (Hs1' : pow10 s1 <= pow10 (minorUnits c)).
  { rewrite (pow10_split s1 (minorUnits c) Hs1).
    pose proof (pow10_pos (minorUnits c - s1)). nia. }
  rewrite (mul_then_round rm rounding m1 s1 (pow10 (minorUnits c)) 0).
  - rewrite Nat.add_0_r, Hm, round_div_multiple by exact Hp1. reflexivity.
  - rewrite Hm, Z.abs_mul, (Z.abs_eq (pow10 s1)) by lia.
    pose proof (Z.abs_nonneg A). nia.
Qed.

Lemma toMajorDecimal_fromMajor_witness :
  CURRENCIES !! "USD"%string = Some USD
  /\ Money.toMajorDecimal (money 123450 USD) = Fin 12345 1
  /\ Money.fromMajor (VDec (Money.toMajorDecimal (money 123450 USD))) "USD" ROUND_FLOOR
     = Ok (money 123450 USD).
Proof.
  assert (H1 : CURRENCIES !! "USD"%string = Some USD) by (vm_compute; reflexivity).
  assert (H2 : Z.abs 123450 * pow10 (minorUnits USD) < 10 ^ 40) by (vm_compute; reflexivity).
  split; [exact H1|]. split; [vm_compute; reflexivity|].
  exact (toMajorDecimal_fromMajor 123450 "USD" USD ROUND_FLOOR H1 H2).
Defined.

(** ** Exact arithmetic on integer amounts *)

Lemma add_money a b c1 c2 :
  code c1 = code c2 -> Z.abs (a + b) < 10 ^ 40 ->
  Money.add (money a c1) (money b c2) = Ok (money (a + b) c1).
Proof.
  intros Hc H. unfold Money.add.
  rewrite assertSameCurrency_same by exact Hc. cbn [bind amount money currency].
  rewrite add_int by exact H. reflexivity.
Qed.

Lemma subtract_money a b c1 c2 :
  code c1 = code c2 -> Z.abs (a - b) < 10 ^ 40 ->
  Money.subtract (money a c1) (money b c2) = Ok (money (a - b) c1).
Proof.
  intros Hc H. unfold Money.subtract.
  rewrite assertSameCurrency_same by exact Hc. cbn [bind amount money currency].
  rewrite sub_int by exact H. reflexivity.
Qed.

(** X6: [add] and [subtract] are exact on integer amounts of one currency
    code while the result stays below [10^40] in magnitude; the result
    keeps the currency of the receiver, and subtracting what was added
    gives the first amount back. *)
Theorem add_subtract_exact (a b : Z) (c1 c2 : CurrencyDefinition) :
  code c1 = code c2 ->
  Z.abs a < 10 ^ 40 ->
  Z.abs (a + b) < 10 ^ 40 ->
  Money.add (money a c1) (money b c2) = Ok (money (a + b) c1)
  /\ Money.add (money b c2) (money a c1) = Ok (money (a + b) c2)
  /\ (let* s := Money.add (money a c1) (money b c2) in
      Money.subtract s (money b c2)) = Ok (money a c1).
Proof.
  intros Hc Ha Hab. split; [|split].
  - apply add_money; assumption.
  - rewrite (Z.add_comm a b). apply add_money; [congruence | rewrite Z.add_comm; exact Hab].
  - rewrite add_money by assumption. cbn [bind].
    rewrite subtract_money by (try assumption; replace (a + b - b) with a by lia; exact Ha).
    do 2 f_equal. lia.
Qed.

Lemma add_subtract_exact_witness :
  code USD = code USD
  /\ Money.add (money 10000 USD) (money 5000 USD) = Ok (money 15000 USD).
Proof.
  assert (H1 : code USD = code USD) by reflexivity.
  assert (H2 : Z.abs 10000 < 10 ^ 40) by (vm_compute; reflexivity).
  assert (H3 : Z.abs (10000 + 5000) < 10 ^ 40) by (vm_compute; reflexivity).
  split; [exact H1|].
  exact (proj1 (add_subtract_exact 10000 5000 USD USD H1 H2 H3)).
Defined.

(** X7: [negate] and [abs] are exact on every integer amount, however
    large: they never round. Negating twice gives the amount back, and a
    Money plus its negation is zero. *)
Theorem negate_abs_exact (a : Z) (c : CurrencyDefinition) :
  Money.negate (money a c) = Ok (money (- a) c)
  /\ Money.abs (money a c) = Ok (money (Z.abs a) c)
  /\ (let* n := Money.negate (money a c) in Money.negate n) = Ok (money a c)
  /\ (let* n := Money.negate (money a c) in Money.add (money a c) n) = Ok (money 0 c).
Proof.
  split; [reflexivity|]. split; [reflexivity|]. split.
  - change (Money.negate (money a c)) with (Ok (money (- a) c)). cbn [bind].
    unfold Money.negate. cbn [amount money currency neg]. rewrite new_VDec.
    cbn [toDecimalPlaces Nat.leb]. rewrite Z.opp_involutive. reflexivity.
  - change (Money.negate (money a c)) with (Ok (money (- a) c)). cbn [bind].
    rewrite add_money; [|reflexivity|].
    + do 2 f_equal. lia.
    + replace (a + - a) with 0 by lia. vm_compute. reflexivity.
Qed.

Lemma cmp_int a b : cmp (Fin a 0) (Fin b 0) = Some (a ?= b).
Proof.
  unfold cmp. cbn [Nat.max Nat.sub]. change (pow10 0) with 1.
  rewrite !Z.mul_1_r. reflexivity.
Qed.

Lemma order_money a b c :
  Money.greaterThan (money a c) (money b c) = Ok (b <? a)
  /\ Money.lessThan (money a c) (money b c) = Ok (a <? b).
Proof.
  unfold Money.greaterThan, Money.lessThan.
  rewrite (assertSameCurrency_same (money a c) (money b c) eq_refl).
  cbn [bind amount money]. unfold Dec.gt, Dec.lt. rewrite cmp_int.
  rewrite (Z.ltb_compare a b), (Z.ltb_compare b a), (Z.compare_antisym a b).
  split; destruct (a ?= b); reflexivity.
Qed.

(** X8: the comparison operators compare integer amounts exactly, at any
    magnitude, when the currency codes agree. *)
Theorem comparisons_exact (a b : Z) (c1 c2 : CurrencyDefinition) :
  code c1 = code c2 ->
  Money.greaterThan (money a c1) (money b c2) = Ok (b <? a)
  /\ Money.lessThan (money a c1) (money b c2) = Ok (a <? b)
  /\ Money.greaterThanOrEqual (money a c1) (money b c2) = Ok (b <=? a)
  /\ Money.lessThanOrEqual (money a c1) (money b c2) = Ok (a <=? b)
  /\ Money.equals (money a c1) (money b c2) = (a =? b).
Proof.
  intros Hc.
  unfold Money.greaterThan, Money.lessThan, Money.greaterThanOrEqual,
    Money.lessThanOrEqual, Money.equals.
  rewrite (assertSameCurrency_same (money a c1) (money b c2) Hc).
  cbn [bind amount money currency]. rewrite Hc, String.eqb_refl. cbn [andb].
  unfold Dec.gt, Dec.lt, Dec.gte, Dec.lte, Dec.equals. rewrite cmp_int.
  repeat split;
    destruct (Z.compare_spec a b);
    try (destruct (Z.ltb_spec b a); try reflexivity; lia);
    try (destruct (Z.leb_spec b a); try reflexivity; lia);
    try (destruct (Z.eqb_spec a b); try reflexivity; lia).
Qed.

Lemma comparisons_exact_witness :
  code USD = code USD
  /\ Money.lessThan (money (10 ^ 45) USD) (money (10 ^ 45 + 1) USD) = Ok true.
Proof.
  assert (H : code USD = code USD) by reflexivity.
  split; [exact H|].
  exact (proj1 (proj2 (comparisons_exact (10 ^ 45) (10 ^ 45 + 1) USD USD H))).
Defined.

(** ** Multiplication *)

Lemma round_div_floor p q : round_div ROUND_FLOOR p q = p / q.
Proof. unfold round_div. destruct (p mod q =? 0); reflexivity. Qed.

Lemma multiply_money A c v m s rm :
  new_Decimal v = Ok (Fin m s) ->
  Z.abs (A * m) < 10 ^ 40 ->
  Money.multiply (money A c) v rm = Ok (money (round_div rm (A * m) (pow10 s)) c).
Proof.
  intros Hv H. unfold Money.multiply. rewrite Hv. cbn [bind amount money currency].
  rewrite new_VDec.
  rewrite (mul_then_round rm rounding A 0 m s H). reflexivity.
Qed.

(** X9: [multiply] rounds the exact product once. For an integer amount
    [A] and a factor [m / 10^s] with [|A * m| < 10^40]: an integer factor
    gives [A * m] under every mode; the default mode gives a nearest
    integer to [A * m / 10^s], the even one on a tie; ROUND_DOWN gives
    the truncation and ROUND_FLOOR the floor. *)
Theorem multiply_rounds_once (A : Z) (c : CurrencyDefinition) (v : Value)
    (m : Z) (s : nat) :
  new_Decimal v = Ok (Fin m s) ->
  Z.abs (A * m) < 10 ^ 40 ->
  (forall rm, s = O -> Money.multiply (money A c) v rm = Ok (money (A * m) c))
  /\ (exists n,
        Money.multiply (money A c) v ROUND_HALF_EVEN = Ok (money n c)
        /\ 2 * Z.abs (n * pow10 s - A * m) <= pow10 s
        /\ (2 * Z.abs (n * pow10 s - A * m) = pow10 s -> Z.even n = true))
  /\ Money.multiply (money A c) v ROUND_DOWN = Ok (money ((A * m) ÷ pow10 s) c)
  /\ Money.multiply (money A c) v ROUND_FLOOR = Ok (money ((A * m) / pow10 s) c).
Proof.
  intros Hv H. split; [|split; [|split]].
  - intros rm ->. rewrite (multiply_money A c v m 0 rm Hv H).
    change (pow10 0) with 1. rewrite round_div_1. reflexivity.
  - exists (round_div ROUND_HALF_EVEN (A * m) (pow10 s)).
    split; [apply multiply_money; assumption|].
    exact (round_div_half_even_spec _ _ (pow10_pos s)).
  - rewrite (multiply_money A c v m s _ Hv H), round_div_down_quot by apply pow10_pos.
    reflexivity.
  - rewrite (multiply_money A c v m s _ Hv H), round_div_floor. reflexivity.
Qed.

Lemma multiply_rounds_once_witness :
  new_Decimal (VStr "0.125") = Ok (Fin 125 3)
  /\ Money.multiply (money 20 PHP) (VStr "0.125") ROUND_DOWN = Ok (money 2 PHP)
  /\ Money.multiply (money (-20) PHP) (VStr "0.125") ROUND_FLOOR = Ok (money (-3) PHP).
Proof.
  assert (H1 : new_Decimal (VStr "0.125") = Ok (Fin 125 3)) by (vm_compute; reflexivity).
  assert (H2 : Z.abs (20 * 125) < 10 ^ 40) by (vm_compute; reflexivity).
  assert (H3 : Z.abs (-20 * 125) < 10 ^ 40) by (vm_compute; reflexivity).
  split; [exact H1|]. split.
  - exact (proj1 (proj2 (proj2 (multiply_rounds_once 20 PHP _ _ _ H1 H2)))).
  - exact (proj2 (proj2 (proj2 (multiply_rounds_once (-20) PHP _ _ _ H1 H3)))).
Defined.

(** X10: [addPercentage] and [subtractPercentage] are the receiver plus or
    minus what [applyPercentage] returns for the same rate and mode: the
    percentage is rounded once and the sum is exact (below [10^40]). *)
Theorem percentage_composes (A p : Z) (c : CurrencyDefinition) (rate : Value)
    (rm : Rounding) :
  Money.applyPercentage (money A c) rate rm = Ok (money p c) ->
  Z.abs (A + p) < 10 ^ 40 ->
  Z.abs (A - p) < 10 ^ 40 ->
  Money.addPercentage (money A c) rate rm = Ok (money (A + p) c)
  /\ Money.subtractPercentage (money A c) rate rm = Ok (money (A - p) c).
Proof.
  unfold Money.applyPercentage, Money.addPercentage, Money.subtractPercentage.
  intros -> Hadd Hsub. cbn [bind].
  split; [apply add_money | apply subtract_money]; auto.
Qed.

Lemma percentage_composes_witness :
  Money.applyPercentage (money 20000 PHP) (VStr "0.12") ROUND_HALF_EVEN
  = Ok (money 2400 PHP)
  /\ Money.addPercentage (money 20000 PHP) (VStr "0.12") ROUND_HALF_EVEN
     = Ok (money 22400 PHP)
  /\ Money.subtractPercentage (money 20000 PHP) (VStr "0.12") ROUND_HALF_EVEN
     = Ok (money 17600 PHP).
Proof.
  assert (H1 : Money.applyPercentage (money 20000 PHP) (VStr "0.12") ROUND_HALF_EVEN
               = Ok (money 2400 PHP)) by (vm_compute; reflexivity).
  assert (H2 : Z.abs (20000 + 2400) < 10 ^ 40) by (vm_compute; reflexivity).
  assert (H3 : Z.abs (20000 - 2400) < 10 ^ 40) by (vm_compute; reflexivity).
  split; [exact H1|].
  exact (percentage_composes 20000 2400 PHP _ _ H1 H2 H3).
Defined.

(** ** Division *)

Lemma round_div_half_even_unique p q n :
  0 < q ->
  2 * Z.abs (n * q - p) <= q ->
  (2 * Z.abs (n * q - p) = q -> Z.even n = true) ->
  round_div ROUND_HALF_EVEN p q = n.
Proof.
  intros Hq H1 H2.
  pose proof (round_div_half_even_spec p q Hq) as [H1' H2']. cbv zeta in *.
  set (n' := round_div ROUND_HALF_EVEN p q) in *.
  assert (Hclose : n' = n \/ n' = n + 1 \/ n' = n - 1) by nia.
  destruct Hclose as [E | [E | E]]; [exact E | |].
  - exfalso.
    assert (T1 : 2 * Z.abs (n * q - p) = q) by nia.
    assert (T2 : 2 * Z.abs (n' * q - p) = q) by nia.
    specialize (H2 T1). specialize (H2' T2).
    apply Z.even_spec in H2 as [k Hk]. apply Z.even_spec in H2' as [k' Hk']. lia.
  - exfalso.
    assert (T1 : 2 * Z.abs (n * q - p) = q) by nia.
    assert (T2 : 2 * Z.abs (n' * q - p) = q) by nia.
    specialize (H2 T1). specialize (H2' T2).
    apply Z.even_spec in H2 as [k Hk]. apply Z.even_spec in H2' as [k' Hk']. lia.
Qed.

(** Rounding half-even a nearest integer at an even scale finer than [b]
    is rounding half-even the quotient itself. *)
Lemma half_even_twice m b P S :
  0 < b -> b < S -> Z.even S = true ->
  2 * Z.abs (m * b - P * S) <= b ->
  round_div ROUND_HALF_EVEN m S = round_div ROUND_HALF_EVEN P b.
Proof.
  intros Hb HS Hev Hnear.
  pose proof (round_div_half_even_spec m S ltac:(lia)) as [Hn1 Hn2]. cbv zeta in *.
  set (n := round_div ROUND_HALF_EVEN m S) in *.
  symmetry. apply round_div_half_even_unique; [exact Hb | |].
  - destruct (Z.le_gt_cases (2 * Z.abs (n * b - P)) b) as [|Hbad]; [assumption|].
    exfalso.
    assert (Htri : Z.abs (n * b - P) * S <= b * Z.abs (n * S - m) + Z.abs (m * b - P * S)).
    { rewrite <- (Z.abs_eq S) at 1 by lia. rewrite <- (Z.abs_eq b) at 2 by lia.
      rewrite <- !Z.abs_mul.
      replace ((n * b - P) * S) with (b * (n * S - m) + (m * b - P * S)) by ring.
      apply Z.abs_triangle. }
    nia.
  - intros Htie. apply Hn2.
    apply Z.even_spec in Hev as [S' HS'].
    assert (Hm : m = n * S - S' \/ m = n * S + S') by nia.
    destruct Hm; lia.
Qed.

Lemma quotient_nearest p q P b :
  0 < q -> 0 < b -> p * b = P * q -> Z.abs P < 10 ^ 39 -> p <> 0 ->
  exists t m,
    quotient ROUND_HALF_EVEN p q = normalise m t
    /\ 2 * Z.abs (m * b - P * pow10 t) <= b
    /\ b < pow10 t.
Proof.
  intros Hq Hb Heq HP Hp.
  assert (Habs : Z.abs p * b = Z.abs P * q)
    by (rewrite <- (Z.abs_eq b), <- (Z.abs_eq q), <- !Z.abs_mul by lia; congruence).
  destruct (quotient_cases ROUND_HALF_EVEN p q Hq Hp) as [(t & Hquo & Hlow) | Hbig].
  - exists t, (round_div ROUND_HALF_EVEN (p * pow10 t) q).
    split; [exact Hquo|].
    pose proof (pow10_pos t) as HS.
    set (S := pow10 t) in *.
    pose proof (round_div_half_even_spec (p * S) q Hq) as [Hnear _].
    cbv zeta in Hnear.
    set (m := round_div ROUND_HALF_EVEN (p * S) q) in *.
    split.
    + assert (Hxy : (m * q - p * S) * b = q * (m * b - P * S)) by nia.
      assert (Habs' : Z.abs (m * q - p * S) * b = q * Z.abs (m * b - P * S)).
      { rewrite <- (Z.abs_eq b) at 1 by lia.
        rewrite <- (Z.abs_eq q) at 2 by lia.
        rewrite <- !Z.abs_mul. congruence. }
      nia.
    + nia.
  - exfalso. change (10 ^ 40) with (10 ^ 39 * 10) in Hbig. nia.
Qed.

Lemma pow10_even t : (0 < t)%nat -> Z.even (pow10 t) = true.
Proof.
  intros Ht. unfold pow10. rewrite Z.even_pow by lia. reflexivity.
Qed.

Lemma quotient_half_even p q P b :
  0 < q -> 0 < b -> p * b = P * q -> Z.abs P < 10 ^ 39 ->
  toDecimalPlaces (quotient ROUND_HALF_EVEN p q) 0 ROUND_HALF_EVEN
  = Fin (round_div ROUND_HALF_EVEN P b) 0.
Proof.
  intros Hq Hb Heq HP.
  destruct (Z.eq_dec p 0) as [Hp|Hp].
  - subst p. assert (P = 0) by nia. subst P.
    unfold quotient, round_div. cbn [Z.eqb].
    rewrite Z.mod_0_l, Z.div_0_l by lia. reflexivity.
  - destruct (quotient_nearest p q P b Hq Hb Heq HP Hp) as (t & m & Hquo & Hnear & Hfine).
    rewrite Hquo, toDecimalPlaces_normalise. f_equal.
    apply half_even_twice; [exact Hb | exact Hfine | | exact Hnear].
    apply pow10_even. destruct t; [|lia].
    change (pow10 0) with 1 in Hfine. lia.
Qed.

(** X11: [divide] by a non-zero divisor [m / 10^s], with the default
    rounding, stores a nearest integer to the exact quotient, the even one
    on a tie, and with ROUND_DOWN the truncated exact quotient, for
    amounts with [|A| * 10^s < 10^39]; the 40-digit rounding of the
    intermediate quotient does not show. *)
Theorem divide_rounds_exact_quotient (A : Z) (c : CurrencyDefinition) (v : Value)
    (m : Z) (s : nat) :
  new_Decimal v = Ok (Fin m s) ->
  m <> 0 ->
  Z.abs A * pow10 s < 10 ^ 39 ->
  (exists n,
      Money.divide (money A c) v ROUND_HALF_EVEN = Ok (money n c)
      /\ 2 * Z.abs (n * m - A * pow10 s) <= Z.abs m
      /\ (2 * Z.abs (n * m - A * pow10 s) = Z.abs m -> Z.even n = true))
  /\ Money.divide (money A c) v ROUND_DOWN = Ok (money ((A * pow10 s) ÷ m) c).
Proof.
  intros Hv Hm HA.
  pose proof (pow10_pos s) as Hs.
  assert (HP : Z.abs (A * pow10 s) < 10 ^ 39)
    by (rewrite Z.abs_mul, (Z.abs_eq (pow10 s)) by lia; exact HA).
  assert (Hdiv : forall rm,
             Money.divide (money A c) v rm
             = Ok {| amount :=
                       toDecimalPlaces
                         (if 0 <? m then quotient rounding (A * pow10 s) m
                          else quotient rounding (- (A * pow10 s)) (- m)) 0 rm;
                     currency := c |}).
  { intros rm. unfold Money.divide. rewrite Hv. cbn [bind amount money currency div].
    destruct (Z.eqb_spec m 0); [contradiction|].
    change (pow10 0) with 1. rewrite Z.mul_1_r. rewrite new_VDec.
    rewrite (toDecimalPlaces_at_rest _ rounding (toDecimalPlaces_0 _ rm)). reflexivity. }
  unfold rounding in Hdiv.
  destruct (Z.ltb_spec 0 m) as [Hpos|Hneg].
  - split.
    + exists (round_div ROUND_HALF_EVEN (A * pow10 s) m).
      split.
      * rewrite Hdiv, (quotient_half_even _ m (A * pow10 s) m) by (try lia; ring).
        reflexivity.
      * rewrite (Z.abs_eq m) by lia.
        exact (round_div_half_even_spec _ _ Hpos).
    + rewrite Hdiv, (quotient_trunc _ m (A * pow10 s) m) by (try lia; ring).
      reflexivity.
  - assert (Hm' : 0 < - m) by lia.
    assert (HP' : Z.abs (- (A * pow10 s)) < 10 ^ 39) by (rewrite Z.abs_opp; exact HP).
    split.
    + exists (round_div ROUND_HALF_EVEN (- (A * pow10 s)) (- m)).
      split.
      * rewrite Hdiv, (quotient_half_even _ (- m) (- (A * pow10 s)) (- m))
          by (try lia; ring).
        reflexivity.
      * pose proof (round_div_half_even_spec (- (A * pow10 s)) (- m) Hm') as [H1 H2].
        cbv zeta in *.
        set (n := round_div ROUND_HALF_EVEN (- (A * pow10 s)) (- m)) in *.
        rewrite (Z.abs_neq m) by lia.
        replace (n * m - A * pow10 s) with (- (n * - m - - (A * pow10 s))) by ring.
        rewrite Z.abs_opp. split; assumption.
    + rewrite Hdiv, (quotient_trunc _ (- m) (- (A * pow10 s)) (- m)) by (try lia; ring).
      rewrite Z.quot_opp_opp by lia. reflexivity.
Qed.

Lemma divide_rounds_exact_quotient_witness :
  new_Decimal (VNum (Num.of_Z 3)) = Ok (Fin 3 0)
  /\ Money.divide (money 10000 USD) (VNum (Num.of_Z 3)) ROUND_DOWN = Ok (money 3333 USD).
Proof.
  assert (H1 : new_Decimal (VNum (Num.of_Z 3)) = Ok (Fin 3 0)) by (vm_compute; reflexivity).
  assert (H2 : 3 <> 0) by lia.
  assert (H3 : Z.abs 10000 * pow10 0 < 10 ^ 39) by (vm_compute; reflexivity).
  split; [exact H1|].
  exact (proj2 (divide_rounds_exact_quotient 10000 USD _ 3 0 H1 H2 H3)).
Defined.

(** ** Sums *)

Lemma fold_throw {A : Type} (f : result MajikMoney -> A -> result MajikMoney) e l :
  (forall x, f (Throw e) x = Throw e) -> fold_left f l (Throw e) = Throw e.
Proof. intros Hf. induction l as [|x l IH]; cbn [fold_left]; [reflexivity|]. rewrite Hf. exact IH. Qed.

Lemma fold_add_exact (cur c : CurrencyDefinition) (l : list Z) :
  code c = code cur ->
  forall r,
    Z.abs r + sumZ (map Z.abs l) < 10 ^ 40 ->
    fold_left
      (fun acc m =>
         let* acc := acc in
         if negb (String.eqb (code (currency m)) (code cur))
         then Throw CurrencyMismatch
         else Money.add acc m)
      (map (fun a => money a c) l) (Ok (money r c))
    = Ok (money (r + sumZ l) c).
Proof.
  intros Hc. induction l as [|a l IH]; intros r Hb.
  - simpl. rewrite Z.add_0_r. reflexivity.
  - cbn [map fold_left bind currency money].
    rewrite Hc, String.eqb_refl. cbn [negb].
    change (sumZ (map Z.abs (a :: l))) with (Z.abs a + sumZ (map Z.abs l)) in Hb.
    assert (Hnn : 0 <= sumZ (map Z.abs l)).
    { clear. induction l as [|x l IH]; simpl; [lia|]. pose proof (Z.abs_nonneg x).
      fold (sumZ (map Z.abs l)). lia. }
    pose proof (Z.abs_triangle r a) as Htri.
    rewrite add_money by (try reflexivity; lia).
    rewrite IH by lia.
    change (sumZ (a :: l)) with (a + sumZ l). do 2 f_equal. lia.
Qed.

(** X12: [sum] of integer amounts of one currency of the table is the exact
    integer sum, in that currency, while the absolute values add up to
    less than [10^40]. *)
Theorem sum_exact (k : string) (c : CurrencyDefinition) (l : list Z) :
  CURRENCIES !! k = Some c ->
  l <> [] ->
  sumZ (map Z.abs l) < 10 ^ 40 ->
  Money.sum (map (fun a => money a c) l) = Ok (money (sumZ l) c).
Proof.
  intros Hk Hne Hb. destruct l as [|a0 l]; [congruence|].
  unfold Money.sum. cbn [map currency money].
  rewrite fromMinor_currency, (table_entry k c Hk). cbn [default].
  change (Money.new (VNum Num.zero) (Some c)) with (Ok (money 0 c)). cbn [bind].
  rewrite <- (Z.add_0_l (sumZ (a0 :: l))).
  apply (fold_add_exact c c (a0 :: l) eq_refl 0). simpl Z.abs. lia.
Qed.

Lemma sum_exact_witness :
  CURRENCIES !! "USD"%string = Some USD
  /\ Money.sum (map (fun a => money a USD) [10000; 20000; -500]) = Ok (money 29500 USD).
Proof.
  assert (H1 : CURRENCIES !! "USD"%string = Some USD) by (vm_compute; reflexivity).
  assert (H2 : [10000; 20000; -500] <> []) by discriminate.
  assert (H3 : sumZ (map Z.abs [10000; 20000; -500]) < 10 ^ 40) by (vm_compute; reflexivity).
  split; [exact H1|].
  exact (sum_exact "USD" USD _ H1 H2 H3).
Defined.

Lemma add_ok_or_mismatch a b :
  (exists m, Money.add a b = Ok m /\ currency m = currency a)
  \/ Money.add a b = Throw CurrencyMismatch.
Proof.
  unfold Money.add, Money.assertSameCurrency.
  destruct (String.eqb _ _); cbn [bind].
  - left. rewrite new_VDec. eexists. split; reflexivity.
  - right. reflexivity.
Qed.

Lemma fold_add_mismatch (cur : CurrencyDefinition) (l : list MajikMoney) :
  Exists (fun m => code (currency m) <> code cur) l ->
  forall acc,
    fold_left
      (fun acc m =>
         let* acc := acc in
         if negb (String.eqb (code (currency m)) (code cur))
         then Throw CurrencyMismatch
         else Money.add acc m)
      l (Ok acc)
    = Throw CurrencyMismatch.
Proof.
  induction 1 as [m l Hm | m l Hex IH]; intros acc; cbn [fold_left bind].
  - destruct (String.eqb_spec (code (currency m)) (code cur)); [contradiction|].
    cbn [negb]. apply fold_throw. reflexivity.
  - destruct (negb _).
    + apply fold_throw. reflexivity.
    + destruct (add_ok_or_mismatch acc m) as [(r & -> & _) | ->].
      * apply IH.
      * apply fold_throw. reflexivity.
Qed.

(** X13: [sum] fails with CurrencyMismatch as soon as one value has another
    currency code than the first; and it fails in the same way on values
    whose currency code is not in the table (and is not "PHP"), because
    its accumulator starts from [fromMinor(0, code)], which then is in
    PHP. *)
Theorem sum_mismatch (v0 : MajikMoney) (rest : list MajikMoney) :
  (Exists (fun m => code (currency m) <> code (currency v0)) rest ->
   Money.sum (v0 :: rest) = Throw CurrencyMismatch)
  /\ (CURRENCIES !! code (currency v0) = None ->
      code (currency v0) <> "PHP"%string ->
      Money.sum (v0 :: rest) = Throw CurrencyMismatch).
Proof.
  split.
  - intros Hex. unfold Money.sum.
    pose proof (fromMinor_currency (VNum Num.zero) (code (currency v0))) as Hz.
    rewrite Hz. unfold Money.new. cbn [new_Decimal bind].
    apply fold_add_mismatch. right. exact Hex.
  - intros Hnone Hphp. unfold Money.sum.
    rewrite fromMinor_currency, Hnone. cbn [default].
    unfold Money.new. cbn [new_Decimal bind fold_left].
    rewrite String.eqb_refl. cbn [negb].
    unfold Money.add, Money.assertSameCurrency. cbn [currency code PHP].
    destruct (String.eqb_spec "PHP" (code (currency v0))) as [E|_]; [congruence|].
    cbn [bind]. apply fold_throw. reflexivity.
Qed.

Lemma sum_mismatch_witness :
  Exists (fun m => code (currency m) <> code (currency (money 1 USD))) [money 2 USD; money 3 EUR]
  /\ Money.sum [money 1 USD; money 2 USD; money 3 EUR] = Throw CurrencyMismatch.
Proof.
  assert (H : Exists (fun m => code (currency m) <> code (currency (money 1 USD)))
                     [money 2 USD; money 3 EUR]).
  { apply Exists_cons_tl, Exists_cons_hd. discriminate. }
  split; [exact H|].
  exact (proj1 (sum_mismatch (money 1 USD) _) H).
Defined.

(** ** Minimum and maximum *)

Lemma fold_min c l :
  forall a0,
    fold_left
      (fun prev curr =>
         let* prev := prev in
         let* b := Money.lessThan prev curr in Ok (if b then prev else curr))
      (map (fun a => money a c) l) (Ok (money a0 c))
    = Ok (money (fold_left Z.min l a0) c).
Proof.
  induction l as [|a l IH]; intros a0; [reflexivity|].
  cbn [map fold_left bind].
  destruct (order_money a0 a c) as (_ & ->). cbn [bind].
  assert (E : (if a0 <? a then money a0 c else money a c) = money (Z.min a0 a) c).
  { destruct (Z.ltb_spec a0 a); f_equal; lia. }
  rewrite E. apply IH.
Qed.

Lemma fold_max c l :
  forall a0,
    fold_left
      (fun prev curr =>
         let* prev := prev in
         let* b := Money.greaterThan prev curr in Ok (if b then prev else curr))
      (map (fun a => money a c) l) (Ok (money a0 c))
    = Ok (money (fold_left Z.max l a0) c).
Proof.
  induction l as [|a l IH]; intros a0; [reflexivity|].
  cbn [map fold_left bind].
  destruct (order_money a0 a c) as (-> & _). cbn [bind].
  assert (E : (if a <? a0 then money a0 c else money a c) = money (Z.max a0 a) c).
  { destruct (Z.ltb_spec a a0); f_equal; lia. }
  rewrite E. apply IH.
Qed.

Lemma fold_min_spec l : forall a0,
  (fold_left Z.min l a0 = a0 \/ In (fold_left Z.min l a0) l)
  /\ fold_left Z.min l a0 <= a0
  /\ Forall (fun a => fold_left Z.min l a0 <= a) l.
Proof.
  induction l as [|a l IH]; intros a0; cbn [fold_left].
  - repeat split; [left; reflexivity | lia | constructor].
  - destruct (IH (Z.min a0 a)) as (Hin & Hle & Hall).
    repeat split.
    + destruct Hin as [E | Hin]; [|right; right; exact Hin].
      rewrite E. destruct (Z.min_spec a0 a) as [[_ ->] | [_ ->]];
        [left; reflexivity | right; left; reflexivity].
    + lia.
    + constructor; [lia | exact Hall].
Qed.

Lemma fold_max_spec l : forall a0,
  (fold_left Z.max l a0 = a0 \/ In (fold_left Z.max l a0) l)
  /\ a0 <= fold_left Z.max l a0
  /\ Forall (fun a => a <= fold_left Z.max l a0) l.
Proof.
  induction l as [|a l IH]; intros a0; cbn [fold_left].
  - repeat split; [left; reflexivity | lia | constructor].
  - destruct (IH (Z.max a0 a)) as (Hin & Hle & Hall).
    repeat split.
    + destruct Hin as [E | Hin]; [|right; right; exact Hin].
      rewrite E. destruct (Z.max_spec a0 a) as [[_ ->] | [_ ->]];
        [right; left; reflexivity | left; reflexivity].
    + lia.
    + constructor; [lia | exact Hall].
Qed.

(** X14: on integer amounts of one currency, of any magnitude, [min]
    returns the least amount of the list and [max] the greatest: an
    amount of the list that no other amount is below (above). *)
Theorem min_max_exact (c : CurrencyDefinition) (l : list Z) :
  l <> [] ->
  exists lo hi,
    Money.min (map (fun a => money a c) l) = Ok (money lo c)
    /\ Money.max (map (fun a => money a c) l) = Ok (money hi c)
    /\ In lo l /\ In hi l
    /\ Forall (fun a => lo <= a <= hi) l.
Proof.
  intros Hne. destruct l as [|a0 l]; [congruence|].
  exists (fold_left Z.min l a0), (fold_left Z.max l a0).
  destruct (fold_min_spec l a0) as (Hin1 & Hle1 & Hall1).
  destruct (fold_max_spec l a0) as (Hin2 & Hle2 & Hall2).
  split; [apply fold_min|]. split; [apply fold_max|].
  split; [destruct Hin1 as [->|H]; [left; reflexivity | right; exact H]|].
  split; [destruct Hin2 as [->|H]; [left; reflexivity | right; exact H]|].
  constructor; [lia|].
  rewrite Forall_forall in *. intros a Ha.
  specialize (Hall1 a Ha). specialize (Hall2 a Ha). lia.
Qed.

Lemma min_max_exact_witness :
  [300; 100; 10 ^ 45; 200] <> []
  /\ exists lo hi,
       Money.min (map (fun a => money a USD) [300; 100; 10 ^ 45; 200]) = Ok (money lo USD)
       /\ Money.max (map (fun a => money a USD) [300; 100; 10 ^ 45; 200]) = Ok (money hi USD)
       /\ In lo [300; 100; 10 ^ 45; 200] /\ In hi [300; 100; 10 ^ 45; 200]
       /\ Forall (fun a => lo <= a <= hi) [300; 100; 10 ^ 45; 200].
Proof.
  assert (H : [300; 100; 10 ^ 45; 200] <> []) by discriminate.
  split; [exact H|].
  exact (min_max_exact USD _ H).
Defined.

Lemma number_same_eq x y : number_same x y = true -> x = y.
Proof.
  destruct x, y; cbn [number_same]; try discriminate; try reflexivity.
  - intros H. apply Bool.eqb_prop in H. congruence.
  - intros H. apply Bool.eqb_prop in H. congruence.
  - intros H. apply andb_prop in H as [H He]. apply andb_prop in H as [Hs Hm].
    apply Bool.eqb_prop in Hs. apply Pos.eqb_eq in Hm. apply Z.eqb_eq in He. congruence.
Qed.

Lemma decimal_same_eq x y : decimal_same x y = true -> x = y.
Proof.
  destruct x, y; cbn [decimal_same]; try discriminate; try reflexivity.
  - intros H. apply Bool.eqb_prop in H. congruence.
  - intros H. apply andb_prop in H as [Hm Hs].
    apply Z.eqb_eq in Hm. apply Nat.eqb_eq in Hs. congruence.
Qed.

Lemma counts_ok_spec fuel :
  forall i acc,
    counts_ok fuel i acc = true ->
    forall k, (k <= fuel)%nat ->
      let n := i + Z.of_nat k in
      fold_left Num.add (repeat (Num.of_Z 1) k) acc = Num.of_Z n
      /\ Conv.ofNumber (Num.of_Z n) = Fin n 0
      /\ Num.to_Z (Num.of_Z n) = Some n
      /\ (n <> 0 -> Num.leb (Num.of_Z n) Num.zero = false).
Proof.
  induction fuel as [|fuel IH]; intros i acc H k Hk; cbn [counts_ok] in H;
    apply andb_prop in H as [H Hrest];
    apply andb_prop in H as [H Hpos];
    apply andb_prop in H as [H Hint];
    apply andb_prop in H as [Hacc Hdec];
    apply number_same_eq in Hacc; apply decimal_same_eq in Hdec; subst acc.
  - assert (k = O) by lia. subst k. cbv zeta. cbn [repeat fold_left].
    rewrite Z.add_0_r. split; [reflexivity|]. split; [exact Hdec|]. split.
    + destruct (Num.to_Z (Num.of_Z i)) as [z|]; [|discriminate].
      apply Z.eqb_eq in Hint. congruence.
    + intros Hi. destruct (Z.eqb_spec i 0); [contradiction|].
      cbn [orb] in Hpos. apply negb_true_iff in Hpos. exact Hpos.
  - destruct k as [|k].
    + cbv zeta. cbn [repeat fold_left].
      rewrite Z.add_0_r. split; [reflexivity|]. split; [exact Hdec|]. split.
      * destruct (Num.to_Z (Num.of_Z i)) as [z|]; [|discriminate].
        apply Z.eqb_eq in Hint. congruence.
      * intros Hi. destruct (Z.eqb_spec i 0); [contradiction|].
        cbn [orb] in Hpos. apply negb_true_iff in Hpos. exact Hpos.
    + specialize (IH (i + 1) _ Hrest k ltac:(lia)). cbv zeta in IH |- *.
      cbn [repeat fold_left].
      replace (i + Z.of_nat (S k)) with (i + 1 + Z.of_nat k) by lia.
      exact IH.
Qed.

Lemma counts_checked : counts_ok (Z.to_nat 10000) 0 Num.zero = true.
Proof. vm_compute. reflexivity. Qed.

Lemma count_facts (n : Z) :
  0 <= n <= 10000 ->
  fold_left Num.add (repeat (Num.of_Z 1) (Z.to_nat n)) Num.zero = Num.of_Z n
  /\ Conv.ofNumber (Num.of_Z n) = Fin n 0
  /\ Num.to_Z (Num.of_Z n) = Some n
  /\ (n <> 0 -> Num.leb (Num.of_Z n) Num.zero = false).
Proof.
  intros Hn.
  pose proof (counts_ok_spec (Z.to_nat 10000) 0 Num.zero counts_checked (Z.to_nat n)
                ltac:(apply Z2Nat.inj_le; lia)) as H.
  cbv zeta in H. rewrite Z.add_0_l, Z2Nat.id in H by lia. exact H.
Qed.

(** ** Even splits *)

Lemma shares_from_ones A b k :
  forall r,
    shares_from A b (repeat 1 (S k)) r
    = repeat (share A b 1) k ++ [r - Z.of_nat k * share A b 1].
Proof.
  induction k as [|k IH]; intros r.
  - cbn [repeat shares_from app]. f_equal. cbn [Z.of_nat]. lia.
  - change (repeat 1 (S (S k))) with (1 :: repeat 1 (S k)).
    cbn [shares_from]. change (repeat 1 (S k)) with (1 :: repeat 1 k) at 1.
    cbv iota beta zeta. rewrite IH. cbn [repeat app]. do 2 f_equal.
    f_equal. lia.
Qed.

Lemma ones_weights (n : Z) k :
  1 <= n ->
  Forall2 (fun ratio w => scaled (Conv.ofNumber ratio) 0 = Some w /\ 0 <= w <= n)
          (repeat (Num.of_Z 1) k) (repeat 1 k).
Proof.
  intros Hn. induction k as [|k IH]; cbn [repeat]; constructor; [|exact IH].
  split; [vm_compute; reflexivity | lia].
Qed.

(** X15: [evenSplit(n)], for a whole count [n] from 1 to 10000 and an
    integer amount [A] with [|A| * n < 10^39], returns [n] parts: the
    first [n - 1] are [A / n] truncated toward zero and the last one is
    what is left, so the parts add up to [A]. *)
Theorem evenSplit_exact (A n : Z) (c : CurrencyDefinition) :
  1 <= n <= 10000 ->
  Z.abs A * n < 10 ^ 39 ->
  Money.evenSplit (money A c) (Num.of_Z n)
  = Ok (map (fun v => money v c)
            (repeat (A ÷ n) (Z.to_nat (n - 1)) ++ [A - (n - 1) * (A ÷ n)]))
  /\ sumZ (repeat (A ÷ n) (Z.to_nat (n - 1)) ++ [A - (n - 1) * (A ÷ n)]) = A.
Proof.
  intros Hn HA.
  destruct (count_facts n ltac:(lia)) as (Hsum & Hdec & Hint & Hpos).
  split.
  - unfold Money.evenSplit. rewrite Hpos, Hint by lia.
    destruct (Z.ltb_spec n (2 ^ 32)); [|lia].
    unfold Money.allocate. rewrite Hsum. cbn [amount money].
    rewrite repeat_length.
    rewrite (allocate_from_spec A c (Num.of_Z n) 0 n) with (ws := repeat 1 (Z.to_nat n)).
    + replace (Z.to_nat n) with (S (Z.to_nat (n - 1))) by lia.
      rewrite shares_from_ones. unfold share. rewrite Z.mul_1_r.
      do 4 f_equal. rewrite Z2Nat.id by lia. lia.
    + rewrite Hdec. cbn [scaled Nat.leb Nat.sub]. change (pow10 0) with 1.
      rewrite Z.mul_1_r. reflexivity.
    + lia.
    + exact HA.
    + apply ones_weights. lia.
    + rewrite repeat_length. reflexivity.
    + rewrite repeat_length, Z2Nat.id by lia.
      change (10 ^ 40) with (10 ^ 39 * 10). nia.
  - unfold sumZ. rewrite fold_right_app. cbn [fold_right].
    assert (E : forall k z,
               fold_right Z.add z (repeat (A ÷ n) k) = Z.of_nat k * (A ÷ n) + z).
    { induction k as [|k IH]; intros z; cbn [repeat fold_right]; [lia|].
      rewrite IH. lia. }
    rewrite E, Z2Nat.id by lia. lia.
Qed.

Lemma evenSplit_exact_witness :
  1 <= 3 <= 10000
  /\ Money.evenSplit (money 100000 PHP) (Num.of_Z 3)
     = Ok [money 33333 PHP; money 33333 PHP; money 33334 PHP].
Proof.
  assert (H1 : 1 <= 3 <= 10000) by lia.
  assert (H2 : Z.abs 100000 * 3 < 10 ^ 39) by (vm_compute; reflexivity).
  split; [exact H1|].
  exact (proj1 (evenSplit_exact 100000 3 PHP H1 H2)).
Defined.

(** ** Averages *)

Lemma sumZ_abs l : Z.abs (sumZ l) <= sumZ (map Z.abs l).
Proof.
  induction l as [|a l IH]; [simpl; lia|].
  change (sumZ (a :: l)) with (a + sumZ l).
  change (sumZ (map Z.abs (a :: l))) with (Z.abs a + sumZ (map Z.abs l)).
  pose proof (Z.abs_triangle a (sumZ l)). lia.
Qed.

Lemma divide_half_even_pos A c v m :
  new_Decimal v = Ok (Fin m 0) ->
  0 < m ->
  Z.abs A < 10 ^ 39 ->
  Money.divide (money A c) v ROUND_HALF_EVEN
  = Ok (money (round_div ROUND_HALF_EVEN A m) c).
Proof.
  intros Hv Hm HA. unfold Money.divide. rewrite Hv.
  cbn [bind amount money currency div].
  destruct (Z.eqb_spec m 0); [lia|].
  change (pow10 0) with 1. rewrite !Z.mul_1_r. rewrite new_VDec.
  unfold rounding.
  destruct (Z.ltb_spec 0 m); [|lia].
  rewrite (quotient_half_even A m A m) by (try lia; reflexivity).
  reflexivity.
Qed.

(** X16: [average] of up to 10000 integer amounts of one currency of the
    table, with absolute values adding up to less than [10^39], is the
    exact sum divided by the count and rounded once to a nearest integer,
    the even one on a tie. *)
Theorem average_rounds_exact_mean (k : string) (c : CurrencyDefinition) (l : list Z) :
  CURRENCIES !! k = Some c ->
  l <> [] ->
  Z.of_nat (length l) <= 10000 ->
  sumZ (map Z.abs l) < 10 ^ 39 ->
  exists n,
    Money.average (map (fun a => money a c) l) = Ok (money n c)
    /\ 2 * Z.abs (n * Z.of_nat (length l) - sumZ l) <= Z.of_nat (length l)
    /\ (2 * Z.abs (n * Z.of_nat (length l) - sumZ l) = Z.of_nat (length l)
        -> Z.even n = true).
Proof.
  intros Hk Hne Hlen Hb.
  assert (Hpos : 0 < Z.of_nat (length l)) by (destruct l; [congruence | cbn [length]; lia]).
  destruct (count_facts (Z.of_nat (length l)) ltac:(lia)) as (_ & Hdec & _).
  exists (round_div ROUND_HALF_EVEN (sumZ l) (Z.of_nat (length l))).
  split; [|exact (round_div_half_even_spec _ _ Hpos)].
  unfold Money.average.
  assert (Hb' : sumZ (map Z.abs l) < 10 ^ 40)
    by (change (10 ^ 40) with (10 ^ 39 * 10); lia).
  assert (Hs : Money.sum (map (fun a => money a c) l) = Ok (money (sumZ l) c)).
  { destruct l as [|a0 l0]; [congruence|].
    unfold Money.sum. cbn [map currency money].
    rewrite fromMinor_currency, (table_entry k c Hk). cbn [default].
    change (Money.new (VNum Num.zero) (Some c)) with (Ok (money 0 c)). cbn [bind].
    rewrite <- (Z.add_0_l (sumZ (a0 :: l0))).
    apply (fold_add_exact c c (a0 :: l0) eq_refl 0). simpl Z.abs. lia. }
  rewrite Hs. cbn [bind]. rewrite length_map.
  apply divide_half_even_pos.
  - cbn [new_Decimal]. rewrite Hdec. reflexivity.
  - exact Hpos.
  - pose proof (sumZ_abs l). lia.
Qed.

Lemma average_rounds_exact_mean_witness :
  CURRENCIES !! "USD"%string = Some USD
  /\ exists n,
       Money.average (map (fun a => money a USD) [100; 101]) = Ok (money n USD)
       /\ 2 * Z.abs (n * Z.of_nat (length [100; 101]) - sumZ [100; 101])
          <= Z.of_nat (length [100; 101])
       /\ (2 * Z.abs (n * Z.of_nat (length [100; 101]) - sumZ [100; 101])
           = Z.of_nat (length [100; 101]) -> Z.even n = true).
Proof.
  assert (H1 : CURRENCIES !! "USD"%string = Some USD) by (vm_compute; reflexivity).
  assert (H2 : [100; 101] <> []) by discriminate.
  assert (H3 : Z.of_nat (length [100; 101]) <= 10000) by (vm_compute; discriminate).
  assert (H4 : sumZ (map Z.abs [100; 101]) < 10 ^ 39) by (vm_compute; reflexivity).
  split; [exact H1|].
  exact (average_rounds_exact_mean "USD" USD _ H1 H2 H3 H4).
Defined.

(** ** The median *)

Lemma insert_perm x l : Permutation (Money.insert x l) (x :: l).
Proof.
  induction l as [|y r IH]; cbn [Money.insert]; [reflexivity|].
  destruct (Num.ltb _ _); [|reflexivity].
  rewrite IH. apply perm_swap.
Qed.

Lemma sort_perm l : Permutation (Money.sort l) l.
Proof.
  unfold Money.sort. induction l as [|x l IH]; cbn [foldr]; [reflexivity|].
  rewrite insert_perm. constructor. exact IH.
Qed.

(** X17: [median] fails with CurrencyMismatch, before it sorts, when a
    value has another currency code than the first; on an odd number of
    values of one code it returns one of the given values, unchanged. *)
Theorem median_odd_returns_a_value (v0 : MajikMoney) (rest : list MajikMoney) :
  (Exists (fun m => code (currency m) <> code (currency v0)) rest ->
   Money.median (v0 :: rest) = Throw CurrencyMismatch)
  /\ (Forall (fun m => code (currency m) = code (currency v0)) rest ->
      (length (v0 :: rest) mod 2 = 1)%nat ->
      exists m, Money.median (v0 :: rest) = Ok m /\ In m (v0 :: rest)).
Proof.
  split.
  - intros Hex. unfold Money.median. cbn [forallb]. rewrite String.eqb_refl. cbn [andb].
    assert (E : forallb (fun value => String.eqb (code (currency value)) (code (currency v0)))
                        rest = false).
    { induction Hex as [m l Hm | m l _ IH]; cbn [forallb].
      - destruct (String.eqb_spec (code (currency m)) (code (currency v0)));
          [contradiction | reflexivity].
      - rewrite IH. apply andb_false_r. }
    rewrite E. reflexivity.
  - intros Hall Hodd. unfold Money.median. cbn [forallb]. rewrite String.eqb_refl. cbn [andb].
    assert (E : forallb (fun value => String.eqb (code (currency value)) (code (currency v0)))
                        rest = true).
    { clear Hodd. induction Hall as [|m l Hm _ IH]; cbn [forallb]; [reflexivity|].
      rewrite Hm, String.eqb_refl, IH. reflexivity. }
    rewrite E.
    pose proof (sort_perm (v0 :: rest)) as Hperm.
    pose proof (Permutation_length Hperm) as Hlen.
    rewrite Hlen, Hodd. cbn [Nat.eqb].
    unfold Money.at_index.
    assert (Hlt : (length (v0 :: rest) / 2 < length (Money.sort (v0 :: rest)))%nat).
    { rewrite Hlen. apply Nat.div_lt; cbn [length]; lia. }
    destruct (lookup_lt_is_Some_2 _ _ Hlt) as [m Hm].
    rewrite Hm. exists m. split; [reflexivity|].
    apply list_elem_of_lookup_2 in Hm. apply list_elem_of_In in Hm.
    exact (Permutation_in m Hperm Hm).
Qed.

Lemma median_odd_returns_a_value_witness :
  Forall (fun m => code (currency m) = code (currency (money 300 USD)))
         [money 100 USD; money 200 USD]
  /\ (length [money 300 USD; money 100 USD; money 200 USD] mod 2 = 1)%nat
  /\ exists m, Money.median [money 300 USD; money 100 USD; money 200 USD] = Ok m
               /\ In m [money 300 USD; money 100 USD; money 200 USD].
Proof.
  assert (H1 : Forall (fun m => code (currency m) = code (currency (money 300 USD)))
                      [money 100 USD; money 200 USD])
    by (repeat constructor).
  assert (H2 : (length [money 300 USD; money 100 USD; money 200 USD] mod 2 = 1)%nat)
    by reflexivity.
  split; [exact H1|]. split; [exact H2|].
  exact (proj2 (median_odd_returns_a_value (money 300 USD) _) H1 H2).
Defined.

(** ** Currencies of results *)

Lemma new_currency v c m : Money.new v (Some c) = Ok m -> currency m = c.
Proof.
  unfold Money.new. destruct (new_Decimal v); cbn [bind]; [|discriminate].
  intros [= <-]. reflexivity.
Qed.

Lemma fromMajor_currency v k rm m :
  Money.fromMajor v k rm = Ok m -> CURRENCIES !! k = Some (currency m).
Proof.
  unfold Money.fromMajor. destruct (CURRENCIES !! k) as [c|]; [|discriminate].
  destruct (new_Decimal v); cbn [bind]; [|discriminate].
  intros H. apply new_currency in H. congruence.
Qed.

Lemma multiply_currency a f rm m : Money.multiply a f rm = Ok m -> currency m = currency a.
Proof.
  unfold Money.multiply. destruct (new_Decimal f); cbn [bind]; [|discriminate].
  apply new_currency.
Qed.

Lemma add_currency a b m : Money.add a b = Ok m -> currency m = currency a.
Proof.
  unfold Money.add. destruct (Money.assertSameCurrency a b); cbn [bind]; [|discriminate].
  apply new_currency.
Qed.

Lemma subtract_currency a b m : Money.subtract a b = Ok m -> currency m = currency a.
Proof.
  unfold Money.subtract. destruct (Money.assertSameCurrency a b); cbn [bind]; [|discriminate].
  apply new_currency.
Qed.


Lemma allocate_from_currency this total len ratios :
  forall i remainder parts,
    Money.allocate_from this total len i ratios remainder = Ok parts ->
    Forall (fun p => currency p = currency this) parts.
Proof.
  induction ratios as [|ratio rest IH]; intros i remainder parts; cbn [Money.allocate_from].
  - intros [= <-]. constructor.
  - rewrite new_VDec. cbn [bind].
    destruct (Money.allocate_from this total len (S i) rest _) as [ps|] eqn:E;
      cbn [bind]; [|discriminate].
    intros [= <-]. constructor; [reflexivity|]. exact (IH _ _ _ E).
Qed.

(** X19: arithmetic keeps the currency definition of the receiver, whether
    or not the table has it: [add], [subtract], [multiply], [divide],
    [negate], [abs], the percentage methods, [compound] (whatever the
    power function returns), and every part that [allocate] and
    [evenSplit] return. *)
Theorem arithmetic_keeps_currency (this : MajikMoney) :
  (forall other m, Money.add this other = Ok m -> currency m = currency this)
  /\ (forall other m, Money.subtract this other = Ok m -> currency m = currency this)
  /\ (forall f rm m, Money.multiply this f rm = Ok m -> currency m = currency this)
  /\ (forall d rm m, Money.divide this d rm = Ok m -> currency m = currency this)
  /\ (forall m, Money.negate this = Ok m -> currency m = currency this)
  /\ (forall m, Money.abs this = Ok m -> currency m = currency this)
  /\ (forall r rm m, Money.applyPercentage this r rm = Ok m -> currency m = currency this)
  /\ (forall r rm m, Money.addPercentage this r rm = Ok m -> currency m = currency this)
  /\ (forall r rm m, Money.subtractPercentage this r rm = Ok m -> currency m = currency this)
  /\ (forall pow r p rm m,
        Money.compound pow this r p rm = Ok m -> currency m = currency this)
  /\ (forall ratios parts,
        Money.allocate this ratios = Ok parts ->
        Forall (fun p => currency p = currency this) parts)
  /\ (forall n parts,
        Money.evenSplit this n = Ok parts ->
        Forall (fun p => currency p = currency this) parts).
Proof.
  assert (Halloc : forall ratios parts,
             Money.allocate this ratios = Ok parts ->
             Forall (fun p => currency p = currency this) parts).
  { intros ratios parts. unfold Money.allocate. apply allocate_from_currency. }
  repeat split.
  - apply add_currency.
  - apply subtract_currency.
  - apply multiply_currency.
  - intros d rm m. unfold Money.divide. destruct (new_Decimal d); cbn [bind]; [|discriminate].
    apply new_currency.
  - intros m. apply new_currency.
  - intros m. apply new_currency.
  - intros r rm m. apply multiply_currency.
  - intros r rm m. unfold Money.addPercentage.
    destruct (Money.multiply this r rm); cbn [bind]; [|discriminate]. apply add_currency.
  - intros r rm m. unfold Money.subtractPercentage.
    destruct (Money.multiply this r rm); cbn [bind]; [|discriminate]. apply subtract_currency.
  - intros pow r p rm m. unfold Money.compound.
    destruct (new_Decimal r); cbn [bind]; [|discriminate]. apply multiply_currency.
  - exact Halloc.
  - intros n parts. unfold Money.evenSplit.
    destruct (Num.leb n Num.zero); [discriminate|].
    destruct (Num.to_Z n) as [z|]; [|discriminate].
    destruct (z <? 2 ^ 32); [|discriminate].
    apply Halloc.
Qed.

Lemma arithmetic_keeps_currency_witness :
  Money.add (money 1 USD) (money 2 USD) = Ok (money 3 USD)
  /\ currency (money 3 USD) = currency (money 1 USD).
Proof.
  assert (H : Money.add (money 1 USD) (money 2 USD) = Ok (money 3 USD))
    by (vm_compute; reflexivity).
  split; [exact H|].
  exact (proj1 (arithmetic_keeps_currency (money 1 USD)) _ _ H).
Defined.


(** ** JSON *)

Lemma parse_toString_at_rest d : at_rest d -> Str.parse (Str.toString d) = Ok d.
Proof.
  destruct d as [|[]|m s]; cbn [at_rest]; intros H.
  - vm_compute. reflexivity.
  - vm_compute. reflexivity.
  - vm_compute. reflexivity.
  - subst s. apply parse_toString_int.
Qed.

Lemma new_at_rest v c m : Money.new v (Some c) = Ok m -> at_rest (amount m).
Proof.
  intros H. pose proof (new_produces v (Some c)) as P. rewrite H in P. exact P.
Qed.

Lemma money_eta (m : MajikMoney) : {| amount := amount m; currency := currency m |} = m.
Proof. destruct m. reflexivity. Qed.

Lemma parse_toJSON m :
  Money.parseFromJSON (Money.toJSON m) = Ok m
  <-> at_rest (amount m) /\ CURRENCIES !! code (currency m) = Some (currency m).
Proof.
  unfold Money.parseFromJSON, Money.toJSON. cbn [json_currency json_amount].
  split.
  - destruct (CURRENCIES !! code (currency m)) as [c|] eqn:E; [|discriminate].
    intros H. split; [exact (new_at_rest _ _ _ H)|].
    apply new_currency in H. congruence.
  - intros [Hrest Hc]. rewrite Hc. unfold Money.new. cbn [new_Decimal].
    rewrite (parse_toString_at_rest _ Hrest). cbn [bind].
    rewrite (toDecimalPlaces_at_rest _ _ Hrest). rewrite money_eta. reflexivity.
Qed.



(** ** Serialization of data that holds Money *)

Lemma serialize_arr items :
  Serial.serializeMoney (TArr items) = PArr (map Serial.serializeMoney items).
Proof. reflexivity. Qed.

Lemma serialize_obj fields :
  Serial.serializeMoney (TObj fields)
  = PObj (map (fun kv => (fst kv, Serial.serializeMoney (snd kv))) fields).
Proof.
  cbn [Serial.serializeMoney]. f_equal.
  induction fields as [|[key v] r IH]; [reflexivity|].
  cbn [map fst snd]. rewrite <- IH. reflexivity.
Qed.

Lemma deserialize_arr items :
  Serial.deserializeMoney (PArr items)
  = let* items' := mapM Serial.deserializeMoney items in Ok (TArr items').
Proof.
  cbn [Serial.deserializeMoney]. f_equal.
  induction items as [|x r IH]; [reflexivity|].
  cbn [mapM]. rewrite <- IH. reflexivity.
Qed.

Lemma deserialize_obj fields :
  Serial.deserializeMoney (PObj fields)
  = if Serial.is_money fields then
      let* m := Serial.parse_object fields in Ok (TMoney m)
    else
      let* fields' :=
        mapM (fun kv => let* y := Serial.deserializeMoney (snd kv) in Ok (fst kv, y)) fields in
      Ok (TObj fields').
Proof.
  cbn [Serial.deserializeMoney]. destruct (Serial.is_money fields); [reflexivity|].
  f_equal.
  induction fields as [|[key v] r IH]; [reflexivity|].
  cbn [mapM fst snd]. rewrite <- IH.
  destruct (Serial.deserializeMoney v); reflexivity.
Qed.

Lemma find_serialized fields :
  Serial.is_money (map (fun kv => (fst kv, Serial.serializeMoney (snd kv))) fields)
  = Serial.tagged fields.
Proof.
  unfold Serial.is_money, Serial.tagged, Serial.get.
  induction fields as [|[key v] r IH]; [reflexivity|].
  cbn [map find fst snd].
  destruct (String.eqb key "__type"); [|exact IH].
  destruct v as [m|p|items|fs]; reflexivity.
Qed.

Lemma currency_same (c d : CurrencyDefinition) :
  String.eqb (code c) (code d) && String.eqb (symbol c) (symbol d)
  && (minorUnits c =? minorUnits d)%nat && String.eqb (name c) (name d) = true
  <-> c = d.
Proof.
  split.
  - intros H. apply andb_prop in H as [H H4]. apply andb_prop in H as [H H3].
    apply andb_prop in H as [H1 H2].
    apply String.eqb_eq in H1, H2, H4. apply Nat.eqb_eq in H3.
    destruct c, d; cbn in *; congruence.
  - intros ->. rewrite !String.eqb_refl, Nat.eqb_refl. reflexivity.
Qed.

Lemma restorable_money m :
  Serial.restorable (TMoney m) = true
  <-> at_rest (amount m) /\ CURRENCIES !! code (currency m) = Some (currency m).
Proof.
  cbn [Serial.restorable]. rewrite andb_true_iff.
  assert (H1 : match amount m with Fin _ (S _) => false | _ => true end = true
               <-> at_rest (amount m)).
  { destruct (amount m) as [| |n [|s]]; cbn [at_rest]; split; intros; try reflexivity;
      try exact I; discriminate. }
  rewrite H1.
  destruct (CURRENCIES !! code (currency m)) as [c|].
  - rewrite currency_same. split; intros [? ?]; split; congruence.
  - split; intros [? ?]; discriminate.
Qed.

Lemma deserialize_money m :
  Serial.deserializeMoney (Serial.serializeMoney (TMoney m))
  = let* m' := Money.parseFromJSON (Money.toJSON m) in Ok (TMoney m').
Proof. reflexivity. Qed.

Lemma mapM_items_iff (items : list Tree) :
  Forall (fun t => Serial.deserializeMoney (Serial.serializeMoney t) = Ok t
                   <-> Serial.restorable t = true) items ->
  mapM Serial.deserializeMoney (map Serial.serializeMoney items) = Ok items
  <-> forallb Serial.restorable items = true.
Proof.
  induction 1 as [|t r Ht _ IH]; [split; reflexivity|].
  cbn [map mapM forallb]. rewrite andb_true_iff, <- Ht, <- IH.
  destruct (Serial.deserializeMoney (Serial.serializeMoney t)) as [t'|e]; cbn [bind].
  - destruct (mapM Serial.deserializeMoney (map Serial.serializeMoney r)) as [r'|e];
      cbn [bind].
    + split; [intros [= -> ->]; split; reflexivity | intros [[= ->] [= ->]]; reflexivity].
    + split; [discriminate | intros [_ ?]; discriminate].
  - split; [discriminate | intros [? _]; discriminate].
Qed.

Lemma mapM_fields_iff (fields : list (string * Tree)) :
  Forall (fun kv => Serial.deserializeMoney (Serial.serializeMoney (snd kv)) = Ok (snd kv)
                    <-> Serial.restorable (snd kv) = true) fields ->
  mapM (fun kv => let* y := Serial.deserializeMoney (snd kv) in Ok (fst kv, y))
       (map (fun kv => (fst kv, Serial.serializeMoney (snd kv))) fields) = Ok fields
  <-> (fix each (l : list (string * Tree)) : bool :=
         match l with
         | [] => true
         | (_, v) :: r => Serial.restorable v && each r
         end) fields = true.
Proof.
  induction 1 as [|[key t] r Ht _ IH]; [split; reflexivity|].
  cbn [map mapM fst snd] in *. rewrite andb_true_iff, <- Ht, <- IH.
  destruct (Serial.deserializeMoney (Serial.serializeMoney t)) as [t'|e]; cbn [bind].
  - destruct (mapM _ (map _ r)) as [r'|e]; cbn [bind].
    + split; [intros [= -> ->]; split; reflexivity | intros [[= ->] [= ->]]; reflexivity].
    + split; [discriminate | intros [_ ?]; discriminate].
  - split; [discriminate | intros [? _]; discriminate].
Qed.



(** ** Data without Money *)

Lemma mapM_embed_items (items : list Plain) :
  Forall (fun p => Serial.untagged p = true ->
                   Serial.deserializeMoney p = Ok (Serial.embed p)) items ->
  forallb Serial.untagged items = true ->
  mapM Serial.deserializeMoney items = Ok (map Serial.embed items).
Proof.
  induction 1 as [|p r Hp _ IH]; [reflexivity|].
  cbn [forallb map mapM]. intros H. apply andb_prop in H as [H1 H2].
  rewrite (Hp H1), (IH H2). reflexivity.
Qed.

Lemma embed_obj fields :
  Serial.embed (PObj fields) = TObj (map (fun kv => (fst kv, Serial.embed (snd kv))) fields).
Proof.
  cbn [Serial.embed]. f_equal.
  induction fields as [|[key v] r IH]; [reflexivity|].
  cbn [map fst snd]. rewrite <- IH. reflexivity.
Qed.

Lemma mapM_embed_fields (fields : list (string * Plain)) :
  Forall (fun kv => Serial.untagged (snd kv) = true ->
                    Serial.deserializeMoney (snd kv) = Ok (Serial.embed (snd kv))) fields ->
  (fix each (l : list (string * Plain)) : bool :=
     match l with
     | [] => true
     | (_, v) :: r => Serial.untagged v && each r
     end) fields = true ->
  mapM (fun kv => let* y := Serial.deserializeMoney (snd kv) in Ok (fst kv, y)) fields
  = Ok (map (fun kv => (fst kv, Serial.embed (snd kv))) fields).
Proof.
  induction 1 as [|[key p] r Hp _ IH]; [reflexivity|].
  cbn [map mapM fst snd] in *. intros H. apply andb_prop in H as [H1 H2].
  rewrite (Hp H1). cbn [bind]. rewrite (IH H2). reflexivity.
Qed.



(** ** Weighted averages *)

Lemma divide_half_even_money A c v m s :
  new_Decimal v = Ok (Fin m s) ->
  0 < m ->
  Z.abs A * pow10 s < 10 ^ 39 ->
  Money.divide (money A c) v ROUND_HALF_EVEN
  = Ok (money (round_div ROUND_HALF_EVEN (A * pow10 s) m) c).
Proof.
  intros Hv Hm HA. pose proof (pow10_pos s) as Hs.
  unfold Money.divide. rewrite Hv.
  cbn [bind amount money currency div].
  destruct (Z.eqb_spec m 0); [lia|].
  change (pow10 0) with 1. rewrite !Z.mul_1_r. rewrite new_VDec.
  unfold rounding.
  destruct (Z.ltb_spec 0 m); [|lia].
  assert (HP : Z.abs (A * pow10 s) < 10 ^ 39)
    by (rewrite Z.abs_mul, (Z.abs_eq (pow10 s)) by lia; exact HA).
  rewrite (quotient_half_even (A * pow10 s) m (A * pow10 s) m) by (try lia; reflexivity).
  reflexivity.
Qed.

Lemma weighted_loop_spec (c : CurrencyDefinition) :
  forall (amounts : list Z) (weights : list Num.number) (readings : list (Z * nat))
         (acc : Z) (tw : Num.number),
    Forall2 (fun w d => Conv.ofNumber w = Fin (fst d) (snd d)) weights readings ->
    Forall2 (fun A d => Z.abs (A * fst d) < 10 ^ 40) amounts readings ->
    Z.abs acc + sumZ (map Z.abs (weighted_products amounts readings)) < 10 ^ 40 ->
    Money.weighted_loop c (map (fun a => money a c) amounts) weights (money acc c) tw
    = Ok (money (acc + sumZ (weighted_products amounts readings)) c,
          fold_left Num.add weights tw).
Proof.
  induction amounts as [|A amounts IH]; intros weights readings acc tw Hw Hb Hsum.
  - inversion Hb; subst. inversion Hw; subst.
    cbn [map Money.weighted_loop weighted_products sumZ fold_right fold_left].
    rewrite Z.add_0_r. reflexivity.
  - inversion Hb as [|A' [m s] amounts' readings' HA Hb' E1 E2]; subst.
    inversion Hw as [|w d weights' readings'' Hrd Hw' E1 E2]; subst.
    cbn [fst snd] in *.
    cbn [map Money.weighted_loop currency money weighted_products].
    cbn [weighted_products] in Hsum.
    rewrite String.eqb_refl. cbn [negb].
    rewrite (multiply_money A c (VNum w) m s rounding) by (cbn [new_Decimal]; congruence).
    cbn [bind]. unfold rounding.
    set (p := round_div ROUND_HALF_EVEN (A * m) (pow10 s)) in *.
    change (sumZ (map Z.abs (p :: weighted_products amounts readings')))
      with (Z.abs p + sumZ (map Z.abs (weighted_products amounts readings'))) in Hsum.
    assert (Hnn : 0 <= sumZ (map Z.abs (weighted_products amounts readings'))).
    { generalize (weighted_products amounts readings'). intros l.
      induction l as [|x l IHl]; [simpl; lia|].
      change (sumZ (map Z.abs (x :: l))) with (Z.abs x + sumZ (map Z.abs l)).
      pose proof (Z.abs_nonneg x). lia. }
    pose proof (Z.abs_triangle acc p).
    rewrite add_money by (try reflexivity; lia). cbn [bind].
    rewrite (IH weights' readings' (acc + p) (Num.add tw w) Hw' Hb') by lia.
    change (sumZ (p :: weighted_products amounts readings'))
      with (p + sumZ (weighted_products amounts readings')).
    cbn [fold_left]. do 3 f_equal. lia.
Qed.

(** X23: [weightedAverage] rounds every product before it adds them. With
    amounts [A_i] of one currency of the table, weights that read as the
    decimals [m_i / 10^(s_i)] and add up (as numbers) to a positive
    [M / 10^S], the result is the sum of the products [A_i * m_i / 10^(s_i)],
    each rounded half-even to an integer, divided by the total weight and
    rounded half-even again (within the working precision). *)
Theorem weightedAverage_rounds_each_product (k : string) (c : CurrencyDefinition)
    (amounts : list Z) (weights : list Num.number) (readings : list (Z * nat))
    (M : Z) (S : nat) :
  CURRENCIES !! k = Some c ->
  amounts <> [] ->
  Forall2 (fun w d => Conv.ofNumber w = Fin (fst d) (snd d)) weights readings ->
  Forall2 (fun A d => Z.abs (A * fst d) < 10 ^ 40) amounts readings ->
  Conv.ofNumber (fold_left Num.add weights Num.zero) = Fin M S ->
  0 < M ->
  sumZ (map Z.abs (weighted_products amounts readings)) * pow10 S < 10 ^ 39 ->
  Money.weightedAverage (map (fun a => money a c) amounts) weights
  = Ok (money (round_div ROUND_HALF_EVEN
                 (sumZ (weighted_products amounts readings) * pow10 S) M) c).
Proof.
  intros Hk Hne Hw Hb Htot HM Hsum.
  pose proof (pow10_pos S) as HS.
  assert (Hlen : length amounts = length weights).
  { rewrite (Forall2_length _ _ _ Hb), (Forall2_length _ _ _ Hw). reflexivity. }
  assert (Hnn : 0 <= sumZ (map Z.abs (weighted_products amounts readings))).
  { generalize (weighted_products amounts readings). intros l.
    induction l as [|x l IHl]; [simpl; lia|].
    change (sumZ (map Z.abs (x :: l))) with (Z.abs x + sumZ (map Z.abs l)).
    pose proof (Z.abs_nonneg x). lia. }
  destruct amounts as [|A0 amounts]; [congruence|].
  unfold Money.weightedAverage. cbn [map].
  change (money A0 c :: map (fun a => money a c) amounts)
    with (map (fun a => money a c) (A0 :: amounts)).
  rewrite length_map, Hlen, Nat.eqb_refl. cbn [negb currency money].
  rewrite fromMinor_currency, (table_entry k c Hk). cbn [default]. unfold id.
  change (Money.new (VNum Num.zero) (Some c)) with (Ok (money 0 c)). cbn [bind].
  assert (Hsmall : sumZ (map Z.abs (weighted_products (A0 :: amounts) readings)) < 10 ^ 39)
    by nia.
  rewrite (weighted_loop_spec c (A0 :: amounts) weights readings 0 Num.zero Hw Hb)
    by (simpl Z.abs; change (10 ^ 40) with (10 ^ 39 * 10); lia).
  cbn [bind fst snd]. rewrite Z.add_0_l.
  apply divide_half_even_money.
  - cbn [new_Decimal]. rewrite Htot. reflexivity.
  - exact HM.
  - pose proof (sumZ_abs (weighted_products (A0 :: amounts) readings)). nia.
Qed.

Lemma weightedAverage_rounds_each_product_witness :
  CURRENCIES !! "USD"%string = Some USD
  /\ Forall2 (fun w d => Conv.ofNumber w = Fin (fst d) (snd d))
             [S754_finite false 4503599627370496 (-53); S754_finite false 4503599627370496 (-53)]
             [(5, 1%nat); (5, 1%nat)]
  /\ Conv.ofNumber (fold_left Num.add
                      [S754_finite false 4503599627370496 (-53);
                       S754_finite false 4503599627370496 (-53)] Num.zero) = Fin 1 0
  /\ Money.weightedAverage [money 1 USD; money 1 USD]
       [S754_finite false 4503599627370496 (-53); S754_finite false 4503599627370496 (-53)]
     = Ok (money 0 USD).
Proof.
  assert (H1 : CURRENCIES !! "USD"%string = Some USD) by (vm_compute; reflexivity).
  assert (H2 : [1; 1] <> []) by discriminate.
  assert (H3 : Forall2 (fun w d => Conv.ofNumber w = Fin (fst d) (snd d))
                 [S754_finite false 4503599627370496 (-53);
                  S754_finite false 4503599627370496 (-53)]
                 [(5, 1%nat); (5, 1%nat)])
    by (repeat constructor; vm_compute; reflexivity).
  assert (H4 : Forall2 (fun A d => Z.abs (A * fst d) < 10 ^ 40) [1; 1]
                 [(5, 1%nat); (5, 1%nat)])
    by (repeat constructor; vm_compute; reflexivity).
  assert (H5 : Conv.ofNumber (fold_left Num.add
                      [S754_finite false 4503599627370496 (-53);
                       S754_finite false 4503599627370496 (-53)] Num.zero) = Fin 1 0)
    by (vm_compute; reflexivity).
  assert (H6 : 0 < 1) by lia.
  assert (H7 : sumZ (map Z.abs (weighted_products [1; 1] [(5, 1%nat); (5, 1%nat)])) * pow10 0
               < 10 ^ 39) by (vm_compute; reflexivity).
  split; [exact H1|]. split; [exact H3|]. split; [exact H5|].
  exact (weightedAverage_rounds_each_product "USD" USD [1; 1] _ _ 1 0 H1 H2 H3 H4 H5 H6 H7).
Defined.

(** ** Laws of the comparisons *)

Lemma cmp_antisym x y : cmp y x = option_map CompOpp (cmp x y).
Proof.
  destruct x as [|a|m1 s1], y as [|b|m2 s2]; cbn [cmp option_map]; try reflexivity.
  - destruct a, b; reflexivity.
  - destruct a; reflexivity.
  - destruct b; reflexivity.
  - cbv zeta. rewrite (Nat.max_comm s2 s1), (Z.compare_antisym (m1 * _) (m2 * _)).
    reflexivity.
Qed.

Lemma cmp_refl x : x <> NaN -> cmp x x = Some Eq.
Proof.
  destruct x as [|a|m s]; [congruence| |]; intros _; cbn [cmp].
  - destruct a; reflexivity.
  - cbv zeta. rewrite Z.compare_refl. reflexivity.
Qed.

Lemma assertSameCurrency_sym a b :
  Money.assertSameCurrency a b = Money.assertSameCurrency b a.
Proof.
  unfold Money.assertSameCurrency.
  rewrite (String.eqb_sym (code (currency a)) (code (currency b))). reflexivity.
Qed.

(** X24: the comparisons agree with each other on every pair of Money
    values, whatever the amounts: [a > b] is [b < a], [a >= b] is
    [b <= a], [equals] is symmetric, and [a <= b] holds exactly when
    [a < b] or [a] equals [b]. A Money equals itself unless its amount is
    NaN, and a NaN amount is in no order relation with anything. *)
Theorem comparison_laws (a b : MajikMoney) :
  Money.greaterThan a b = Money.lessThan b a
  /\ Money.greaterThanOrEqual a b = Money.lessThanOrEqual b a
  /\ Money.equals a b = Money.equals b a
  /\ Money.lessThanOrEqual a b
     = (let* l := Money.lessThan a b in Ok (l || Money.equals a b))
  /\ (amount a <> NaN -> Money.equals a a = true)
  /\ (amount a = NaN \/ amount b = NaN ->
      Money.equals a b = false
      /\ (code (currency a) = code (currency b) ->
          Money.lessThan a b = Ok false /\ Money.greaterThan a b = Ok false
          /\ Money.lessThanOrEqual a b = Ok false
          /\ Money.greaterThanOrEqual a b = Ok false)).
Proof.
  unfold Money.greaterThan, Money.lessThan, Money.greaterThanOrEqual,
    Money.lessThanOrEqual, Money.equals.
  rewrite (assertSameCurrency_sym b a), (String.eqb_sym (code (currency b))).
  unfold Money.assertSameCurrency.
  unfold Dec.gt, Dec.lt, Dec.gte, Dec.lte, Dec.equals.
  rewrite (cmp_antisym (amount a) (amount b)).
  repeat split.
  - destruct (String.eqb _ _); [|reflexivity]. cbn [bind].
    destruct (cmp (amount a) (amount b)) as [[]|]; reflexivity.
  - destruct (String.eqb _ _); [|reflexivity]. cbn [bind].
    destruct (cmp (amount a) (amount b)) as [[]|]; reflexivity.
  - destruct (String.eqb _ _); [|reflexivity].
    destruct (cmp (amount a) (amount b)) as [[]|]; reflexivity.
  - destruct (String.eqb _ _); [|reflexivity]. cbn [bind andb].
    destruct (cmp (amount a) (amount b)) as [[]|]; reflexivity.
  - intros H. rewrite String.eqb_refl, (cmp_refl _ H). reflexivity.
  - assert (E : cmp (amount a) (amount b) = None).
    { destruct H as [-> | ->]; [reflexivity|]. destruct (amount a); reflexivity. }
    rewrite E. apply andb_false_r.
  - assert (E : cmp (amount a) (amount b) = None).
    { destruct H as [-> | ->]; [reflexivity|]. destruct (amount a); reflexivity. }
    rewrite H0, String.eqb_refl, E. reflexivity.
  - assert (E : cmp (amount a) (amount b) = None).
    { destruct H as [-> | ->]; [reflexivity|]. destruct (amount a); reflexivity. }
    rewrite H0, String.eqb_refl, E. reflexivity.
  - assert (E : cmp (amount a) (amount b) = None).
    { destruct H as [-> | ->]; [reflexivity|]. destruct (amount a); reflexivity. }
    rewrite H0, String.eqb_refl, E. reflexivity.
  - assert (E : cmp (amount a) (amount b) = None).
    { destruct H as [-> | ->]; [reflexivity|]. destruct (amount a); reflexivity. }
    rewrite H0, String.eqb_refl, E. reflexivity.
Qed.

Lemma comparison_laws_witness :
  (amount {| amount := NaN; currency := USD |} = NaN \/ amount (money 5 USD) = NaN)
  /\ Money.equals {| amount := NaN; currency := USD |} (money 5 USD) = false
  /\ Money.lessThanOrEqual {| amount := NaN; currency := USD |} (money 5 USD) = Ok false.
Proof.
  assert (H : amount {| amount := NaN; currency := USD |} = NaN
              \/ amount (money 5 USD) = NaN) by (left; reflexivity).
  destruct (comparison_laws {| amount := NaN; currency := USD |} (money 5 USD))
    as (_ & _ & _ & _ & _ & Hn).
  destruct (Hn H) as (He & Hc).
  destruct (Hc eq_refl) as (_ & _ & Hle & _).
  split; [exact H|]. split; [exact He | exact Hle].
Defined.

(** ** The unrounded variants *)

(** X25: [multiply] and [divide] are [multiplyDecimal] and [divideDecimal]
    rounded once to whole minor units in the mode asked for, in the
    currency of the receiver; and [multiplyDecimal] of an integer amount
    [A] by [m / 10^s] is the exact product, with its fractional digits,
    while [|A * m| < 10^40]. *)
Theorem decimal_variants_are_unrounded (this : MajikMoney) (v : Value) (rm : Rounding) :
  Money.multiply this v rm
  = (let* d := Money.multiplyDecimal this v in
     Ok {| amount := toDecimalPlaces d 0 rm; currency := currency this |})
  /\ Money.divide this v rm
     = (let* d := Money.divideDecimal this v in
        Ok {| amount := toDecimalPlaces d 0 rm; currency := currency this |})
  /\ (forall A m s,
        amount this = Fin A 0 ->
        new_Decimal v = Ok (Fin m s) ->
        Z.abs (A * m) < 10 ^ 40 ->
        exists m1 s1,
          Money.multiplyDecimal this v = Ok (Fin m1 s1)
          /\ (s1 <= s)%nat /\ A * m = m1 * pow10 (s - s1)).
Proof.
  unfold Money.multiply, Money.divide, Money.multiplyDecimal, Money.divideDecimal.
  split; [|split].
  - destruct (new_Decimal v); cbn [bind]; [|reflexivity].
    rewrite new_VDec, (toDecimalPlaces_at_rest _ rounding (toDecimalPlaces_0 _ rm)).
    reflexivity.
  - destruct (new_Decimal v); cbn [bind]; [|reflexivity].
    rewrite new_VDec, (toDecimalPlaces_at_rest _ rounding (toDecimalPlaces_0 _ rm)).
    reflexivity.
  - intros A m s HA Hv Hb. rewrite Hv, HA. cbn [bind mul].
    rewrite finalise_small by exact Hb. cbn [Nat.add].
    destruct (normalise_value s (A * m)) as (m1 & s1 & Hn & Hs & Hval).
    exists m1, s1. rewrite Hn. repeat split; assumption.
Qed.

Lemma decimal_variants_are_unrounded_witness :
  amount (money 333 USD) = Fin 333 0
  /\ new_Decimal (VStr "0.15") = Ok (Fin 15 2)
  /\ exists m1 s1,
       Money.multiplyDecimal (money 333 USD) (VStr "0.15") = Ok (Fin m1 s1)
       /\ (s1 <= 2)%nat /\ 333 * 15 = m1 * pow10 (2 - s1).
Proof.
  assert (H1 : amount (money 333 USD) = Fin 333 0) by reflexivity.
  assert (H2 : new_Decimal (VStr "0.15") = Ok (Fin 15 2)) by (vm_compute; reflexivity).
  assert (H3 : Z.abs (333 * 15) < 10 ^ 40) by (vm_compute; reflexivity).
  split; [exact H1|]. split; [exact H2|].
  exact (proj2 (proj2 (decimal_variants_are_unrounded (money 333 USD) (VStr "0.15")
                         ROUND_HALF_EVEN)) 333 15 2%nat H1 H2 H3).
Defined.

(** ** The two guards against a zero divisor *)

Lemma new_Decimal_error v e : new_Decimal v = Throw e -> e = DecimalError.
Proof.
  destruct v as [n|s|d]; cbn [new_Decimal]; try discriminate.
  unfold Str.parse.
  destruct (match list_ascii_of_string s with
            | [] => (false, list_ascii_of_string s)
            | c :: r =>
                if Ascii.eqb c "-"%char then (true, r)
                else if Ascii.eqb c "+"%char then (false, r)
                else (false, list_ascii_of_string s)
            end) as [sg body].
  destruct (Str.parse_decimal body); [discriminate|].
  destruct (String.eqb _ "Infinity"); [discriminate|].
  destruct (String.eqb _ "NaN"); [discriminate|].
  congruence.
Qed.

Lemma fromMajor_error v k rm e :
  Money.fromMajor (VDec v) k rm = Throw e -> e = UnsupportedCurrency.
Proof.
  unfold Money.fromMajor. destruct (CURRENCIES !! k); [|congruence].
  cbn [new_Decimal bind]. rewrite new_VDec. discriminate.
Qed.

Lemma normalise_nonzero s : forall m, m <> 0 -> isZero (normalise m s) = false.
Proof.
  intros m Hm. destruct (normalise_value s m) as (m1 & s1 & Hn & _ & Hv).
  rewrite Hn. destruct m1; [lia | reflexivity | reflexivity].
Qed.

(** X26: [ratio] and [invertDivide] are the two methods that refuse a zero
    divisor. [ratio] fails with the mismatch error when the codes differ,
    with the division error when the codes agree and the other amount is
    zero, and returns otherwise. [invertDivide] on an integer amount
    below [10^40] in magnitude fails with the division error exactly when
    the amount is zero, and then whatever the dividend is, even one that
    is no valid Decimal. *)
Theorem zero_divisor_guards (a b : MajikMoney) :
  (code (currency a) <> code (currency b) -> Money.ratio a b = Throw CurrencyMismatch)
  /\ (code (currency a) = code (currency b) ->
      (Money.ratio a b = Throw DivisionByZero <-> isZero (amount b) = true)
      /\ (is_ok (Money.ratio a b) = true <-> isZero (amount b) = false))
  /\ (forall A dividend rm,
        amount a = Fin A 0 -> Z.abs A < 10 ^ 40 ->
        (Money.invertDivide a dividend rm = Throw DivisionByZero <-> A = 0)).
Proof.
  split; [|split].
  - intros H. unfold Money.ratio, Money.assertSameCurrency.
    destruct (String.eqb_spec (code (currency a)) (code (currency b)));
      [contradiction | reflexivity].
  - intros H. unfold Money.ratio. rewrite (assertSameCurrency_same a b H). cbn [bind].
    destruct (isZero (amount b)); cbn [is_ok]; split; split;
      try reflexivity; try discriminate.
  - intros A dividend rm Ha HA. destruct a as [amt cur]. cbn [amount] in Ha. subst amt.
    change {| amount := Fin A 0; currency := cur |} with (money A cur).
    unfold Money.invertDivide. rewrite (toMajorDecimal_exact A cur HA).
    split.
    + destruct (Z.eq_dec A 0) as [|Hnz]; [trivial|]. intros H. exfalso.
      rewrite (normalise_nonzero _ A Hnz) in H.
      destruct (new_Decimal dividend) as [d|e] eqn:E; cbn [bind] in H.
      * apply fromMajor_error in H. discriminate.
      * apply new_Decimal_error in E. congruence.
    + intros ->. rewrite normalise_zero. reflexivity.
Qed.

Lemma zero_divisor_guards_witness :
  code (currency (money 500 USD)) = code (currency (money 0 USD))
  /\ isZero (amount (money 0 USD)) = true
  /\ Money.ratio (money 500 USD) (money 0 USD) = Throw DivisionByZero.
Proof.
  assert (H1 : code (currency (money 500 USD)) = code (currency (money 0 USD)))
    by reflexivity.
  assert (H2 : isZero (amount (money 0 USD)) = true) by reflexivity.
  split; [exact H1|]. split; [exact H2|].
  exact (proj2 (proj1 (proj1 (proj2 (zero_divisor_guards (money 500 USD) (money 0 USD)))
                         H1)) H2).
Defined.

(** ** When the selections are defined *)

Lemma reduce_defined_iff (f : MajikMoney -> MajikMoney -> result MajikMoney) (k : string) :
  (forall prev x, code (currency x) = code (currency prev) ->
                  exists r, f prev x = Ok r /\ (r = prev \/ r = x)) ->
  (forall prev x, code (currency x) <> code (currency prev) ->
                  f prev x = Throw CurrencyMismatch) ->
  forall rest prev,
    code (currency prev) = k ->
    (is_ok (fold_left (fun prev curr => let* prev := prev in f prev curr) rest (Ok prev))
     = true
     <-> Forall (fun m => code (currency m) = k) rest).
Proof.
  intros Hsame Hdiff. induction rest as [|x rest IH]; intros prev Hprev.
  - cbn [fold_left is_ok]. split; [constructor | reflexivity].
  - cbn [fold_left bind].
    destruct (String.eqb_spec (code (currency x)) (code (currency prev))) as [E|E].
    + destruct (Hsame prev x E) as (r & -> & Hr).
      assert (Hk : code (currency r) = k) by (destruct Hr as [-> | ->]; congruence).
      rewrite (IH r Hk). split.
      * intros H. constructor; [congruence | exact H].
      * intros H. inversion H; assumption.
    + rewrite (Hdiff prev x E).
      rewrite fold_throw by reflexivity. cbn [is_ok].
      split; [discriminate|]. intros H. inversion H; subst. congruence.
Qed.

Lemma lessThan_pick prev x :
  (code (currency x) = code (currency prev) ->
   exists r, (let* b := Money.lessThan prev x in Ok (if b then prev else x)) = Ok r
             /\ (r = prev \/ r = x))
  /\ (code (currency x) <> code (currency prev) ->
      (let* b := Money.lessThan prev x in Ok (if b then prev else x))
      = Throw CurrencyMismatch).
Proof.
  unfold Money.lessThan, Money.assertSameCurrency.
  rewrite (String.eqb_sym (code (currency prev))).
  destruct (String.eqb_spec (code (currency x)) (code (currency prev))); cbn [bind]; split;
    intros H; try contradiction; try reflexivity.
  destruct (Dec.lt _ _); eexists; split; try reflexivity; auto.
Qed.

Lemma greaterThan_pick prev x :
  (code (currency x) = code (currency prev) ->
   exists r, (let* b := Money.greaterThan prev x in Ok (if b then prev else x)) = Ok r
             /\ (r = prev \/ r = x))
  /\ (code (currency x) <> code (currency prev) ->
      (let* b := Money.greaterThan prev x in Ok (if b then prev else x))
      = Throw CurrencyMismatch).
Proof.
  unfold Money.greaterThan, Money.assertSameCurrency.
  rewrite (String.eqb_sym (code (currency prev))).
  destruct (String.eqb_spec (code (currency x)) (code (currency prev))); cbn [bind]; split;
    intros H; try contradiction; try reflexivity.
  destruct (Dec.gt _ _); eexists; split; try reflexivity; auto.
Qed.

Lemma forallb_codes (k : string) l :
  forallb (fun value => String.eqb (code (currency value)) k) l = true
  <-> Forall (fun m => code (currency m) = k) l.
Proof.
  induction l as [|x l IH]; cbn [forallb].
  - split; [constructor | reflexivity].
  - rewrite andb_true_iff, IH. split.
    + intros [H1 H2]. constructor; [apply String.eqb_eq; exact H1 | exact H2].
    + intros H. inversion H as [|? ? H1 H2]. split; [apply String.eqb_eq; exact H1 | exact H2].
Qed.

Lemma divide_by_number_ok m n rm : exists r, Money.divide m (VNum n) rm = Ok r.
Proof. unfold Money.divide. cbn [new_Decimal bind]. rewrite new_VDec. eexists. reflexivity. Qed.

(** X27: [min], [max] and [median] return a value exactly when the list
    is not empty and every value has the currency code of the first one,
    whatever the amounts are; on the empty list they fail with the
    empty-input error. *)
Theorem selections_defined_iff (v0 : MajikMoney) (rest : list MajikMoney) :
  (is_ok (Money.min (v0 :: rest)) = true
   <-> Forall (fun m => code (currency m) = code (currency v0)) rest)
  /\ (is_ok (Money.max (v0 :: rest)) = true
      <-> Forall (fun m => code (currency m) = code (currency v0)) rest)
  /\ (is_ok (Money.median (v0 :: rest)) = true
      <-> Forall (fun m => code (currency m) = code (currency v0)) rest)
  /\ Money.min [] = Throw EmptySequence
  /\ Money.max [] = Throw EmptySequence
  /\ Money.median [] = Throw EmptySequence.
Proof.
  split; [|split; [|split; [|repeat split]]].
  - unfold Money.min, Money.reduce1.
    apply (reduce_defined_iff _ (code (currency v0))); [| |reflexivity].
    + intros prev x. exact (proj1 (lessThan_pick prev x)).
    + intros prev x. exact (proj2 (lessThan_pick prev x)).
  - unfold Money.max, Money.reduce1.
    apply (reduce_defined_iff _ (code (currency v0))); [| |reflexivity].
    + intros prev x. exact (proj1 (greaterThan_pick prev x)).
    + intros prev x. exact (proj2 (greaterThan_pick prev x)).
  - unfold Money.median. cbn [forallb]. rewrite String.eqb_refl. cbn [andb].
    rewrite <- forallb_codes.
    destruct (forallb _ rest) eqn:Hall; [|split; discriminate].
    split; [reflexivity|]. intros _.
    apply forallb_codes in Hall.
    pose proof (sort_perm (v0 :: rest)) as Hperm.
    pose proof (Permutation_length Hperm) as Hlen.
    assert (Hcodes : forall i m, Money.sort (v0 :: rest) !! i = Some m ->
                                 code (currency m) = code (currency v0)).
    { intros i m Hm. apply list_elem_of_lookup_2, list_elem_of_In in Hm.
      apply (Permutation_in m Hperm) in Hm. destruct Hm as [<- | Hm]; [reflexivity|].
      rewrite Forall_forall in Hall. apply Hall. apply list_elem_of_In. exact Hm. }
    assert (Hmid : (length (Money.sort (v0 :: rest)) / 2
                    < length (Money.sort (v0 :: rest)))%nat).
    { apply Nat.div_lt; [rewrite Hlen; cbn [length]; lia | lia]. }
    destruct (lookup_lt_is_Some_2 _ _ Hmid) as [b Hb].
    unfold Money.at_index. rewrite Hb.
    destruct (Nat.eqb _ 0); [|reflexivity].
    assert (Hlo : (length (Money.sort (v0 :: rest)) / 2 - 1
                   < length (Money.sort (v0 :: rest)))%nat) by lia.
    destruct (lookup_lt_is_Some_2 _ _ Hlo) as [a Ha].
    rewrite Ha. cbn [bind].
    unfold Money.add.
    rewrite assertSameCurrency_same
      by (rewrite (Hcodes _ _ Ha), (Hcodes _ _ Hb); reflexivity).
    cbn [bind]. rewrite new_VDec. cbn [bind].
    destruct (divide_by_number_ok
                {| amount := toDecimalPlaces (Dec.add (amount a) (amount b)) 0 rounding;
                   currency := currency a |} (Num.of_Z 2) rounding) as [r ->].
    reflexivity.
Qed.

Lemma selections_defined_iff_witness :
  Forall (fun m => code (currency m) = code (currency (money 5 USD)))
         [ {| amount := Inf false; currency := USD |} ]
  /\ is_ok (Money.median [money 5 USD; {| amount := Inf false; currency := USD |}]) = true.
Proof.
  assert (H : Forall (fun m => code (currency m) = code (currency (money 5 USD)))
                     [ {| amount := Inf false; currency := USD |} ])
    by (repeat constructor).
  split; [exact H|].
  exact (proj2 (proj1 (proj2 (proj2 (selections_defined_iff (money 5 USD) _)))) H).
Defined.

(** ** Signs *)

Lemma cmp_zero m s : cmp (Fin m s) (Fin 0 0) = Some (m ?= 0).
Proof.
  unfold cmp. cbv zeta. rewrite Nat.max_0_r, Nat.sub_diag. change (pow10 0) with 1.
  rewrite Z.mul_1_r, Z.mul_0_l. reflexivity.
Qed.

(** X28: the sign predicates partition the amounts: a Money whose amount
    is not NaN is exactly one of zero, positive and negative (an infinite
    amount is positive or negative), and a NaN amount is none of the
    three. On amounts at rest [negate] swaps positive and negative and
    keeps zero, and [abs] is never negative and keeps zero. *)
Theorem sign_laws (m : MajikMoney) :
  (amount m = NaN ->
   Money.isZero m = false /\ Money.isPositive m = false /\ Money.isNegative m = false)
  /\ (amount m <> NaN ->
      (Money.isZero m = true /\ Money.isPositive m = false /\ Money.isNegative m = false)
      \/ (Money.isZero m = false /\ Money.isPositive m = true /\ Money.isNegative m = false)
      \/ (Money.isZero m = false /\ Money.isPositive m = false /\ Money.isNegative m = true))
  /\ (at_rest (amount m) ->
      exists n a,
        Money.negate m = Ok n /\ Money.abs m = Ok a
        /\ Money.isPositive n = Money.isNegative m
        /\ Money.isNegative n = Money.isPositive m
        /\ Money.isZero n = Money.isZero m
        /\ Money.isNegative a = false
        /\ Money.isZero a = Money.isZero m).
Proof.
  unfold Money.isZero, Money.isPositive, Money.isNegative, Money.negate, Money.abs.
  split; [|split].
  - intros ->. repeat split.
  - intros H. destruct (amount m) as [|b|z s]; [congruence| |].
    + destruct b; [right; right | right; left]; repeat split.
    + unfold Dec.gt, Dec.lt. rewrite cmp_zero.
      destruct z; [left | right; left | right; right]; repeat split.
  - intros Hrest. rewrite !new_VDec.
    rewrite (toDecimalPlaces_at_rest (neg (amount m)))
      by (destruct (amount m); cbn [neg at_rest] in *; auto).
    rewrite (toDecimalPlaces_at_rest (Dec.abs (amount m)))
      by (destruct (amount m); cbn [Dec.abs at_rest] in *; auto).
    eexists. eexists. split; [reflexivity|]. split; [reflexivity|]. cbn [amount].
    destruct (amount m) as [|b|z s]; cbn [neg Dec.abs].
    + repeat split.
    + destruct b; repeat split.
    + unfold Dec.gt, Dec.lt. rewrite !cmp_zero.
      destruct z; repeat split.
Qed.

Lemma sign_laws_witness :
  at_rest (amount (money (-250) USD))
  /\ exists n a,
       Money.negate (money (-250) USD) = Ok n /\ Money.abs (money (-250) USD) = Ok a
       /\ Money.isPositive n = Money.isNegative (money (-250) USD)
       /\ Money.isNegative n = Money.isPositive (money (-250) USD)
       /\ Money.isZero n = Money.isZero (money (-250) USD)
       /\ Money.isNegative a = false
       /\ Money.isZero a = Money.isZero (money (-250) USD).
Proof.
  assert (H : at_rest (amount (money (-250) USD))) by reflexivity.
  split; [exact H|].
  exact (proj2 (proj2 (sign_laws (money (-250) USD))) H).
Defined.

(** ** Reading a JSON object *)



(** ** The variance of equal values *)

Lemma sumZ_repeat A n : sumZ (repeat A n) = Z.of_nat n * A.
Proof.
  induction n as [|n IH]; [reflexivity|].
  change (sumZ (repeat A (S n))) with (A + sumZ (repeat A n)). rewrite IH. lia.
Qed.

Lemma sumZ_abs_repeat A n : sumZ (map Z.abs (repeat A n)) = Z.of_nat n * Z.abs A.
Proof.
  induction n as [|n IH]; [reflexivity|].
  change (sumZ (map Z.abs (repeat A (S n)))) with (Z.abs A + sumZ (map Z.abs (repeat A n))).
  rewrite IH. lia.
Qed.

Lemma sub_self m s : Dec.sub (Fin m s) (Fin m s) = Fin 0 0.
Proof.
  unfold Dec.sub, Dec.add. cbn [neg]. cbv zeta.
  replace (m * pow10 (Nat.max s s - s) + - m * pow10 (Nat.max s s - s)) with 0 by ring.
  unfold finalise. cbn [Z.abs]. change (0 <? 10 ^ precision) with true. cbv iota.
  apply normalise_zero.
Qed.

Lemma squares_of_zero (x : Decimal) (l : list MajikMoney) :
  Forall (fun m => exists z s, Money.toMajorDecimal m = Fin z s /\ x = Fin z s) l ->
  fold_left
    (fun acc m =>
       let diff := Dec.sub (Money.toMajorDecimal m) x in
       Dec.add acc (mul diff diff))
    l (Fin 0 0)
  = Fin 0 0.
Proof.
  induction 1 as [|m l (z & s & Hm & Hx) _ IH]; [reflexivity|].
  cbn [fold_left]. cbv zeta. rewrite Hm, Hx, sub_self.
  change (Dec.add (Fin 0 0) (mul (Fin 0 0) (Fin 0 0))) with (Fin 0 0).
  rewrite <- Hx. exact IH.
Qed.

(** X30: the [variance] of one to 10000 equal values is zero: for an
    integer amount [A] of a currency of the table, repeated [n] times
    with [|A| * n < 10^39], [variance] returns zero minor units of that
    currency. *)
Theorem variance_of_equal_values (k : string) (c : CurrencyDefinition) (A n : Z) :
  CURRENCIES !! k = Some c ->
  1 <= n <= 10000 ->
  Z.abs A * n < 10 ^ 39 ->
  Money.variance (map (fun a => money a c) (repeat A (Z.to_nat n))) = Ok (money 0 c).
Proof.
  intros Hk Hn HA.
  destruct (count_facts n ltac:(lia)) as (_ & Hdec & _).
  assert (Habs : Z.abs A < 10 ^ 39) by nia.
  replace (Z.to_nat n) with (S (Z.to_nat (n - 1))) by lia.
  set (l := A :: repeat A (Z.to_nat (n - 1))).
  change (repeat A (S (Z.to_nat (n - 1)))) with l.
  assert (Hlen : Z.of_nat (length l) = n).
  { unfold l. cbn [length]. rewrite repeat_length, Nat2Z.inj_succ, Z2Nat.id; lia. }
  assert (Hsum : sumZ l = A * n).
  { unfold l. change (A :: repeat A (Z.to_nat (n - 1))) with (repeat A (S (Z.to_nat (n - 1)))).
    rewrite sumZ_repeat, Nat2Z.inj_succ, Z2Nat.id by lia. lia. }
  assert (Hsabs : sumZ (map Z.abs l) = Z.abs A * n).
  { unfold l. change (A :: repeat A (Z.to_nat (n - 1))) with (repeat A (S (Z.to_nat (n - 1)))).
    rewrite sumZ_abs_repeat, Nat2Z.inj_succ, Z2Nat.id by lia. lia. }
  assert (Hcons : map (fun a => money a c) l
                  = money A c :: map (fun a => money a c) (repeat A (Z.to_nat (n - 1))))
    by reflexivity.
  assert (Havg : Money.average (map (fun a => money a c) l) = Ok (money A c)).
  { unfold Money.average.
    assert (Hs : Money.sum (map (fun a => money a c) l) = Ok (money (A * n) c)).
    { unfold Money.sum. rewrite Hcons at 1. cbn [currency money].
      rewrite fromMinor_currency, (table_entry k c Hk). cbn [default]. unfold id.
      change (Money.new (VNum Num.zero) (Some c)) with (Ok (money 0 c)). cbn [bind].
      rewrite (fold_add_exact c c l eq_refl 0).
      - rewrite Hsum. reflexivity.
      - rewrite Hsabs. simpl Z.abs. change (10 ^ 40) with (10 ^ 39 * 10). lia. }
    rewrite Hs. cbn [bind]. rewrite length_map, Hlen. unfold rounding.
    rewrite (divide_half_even_pos (A * n) c (VNum (Num.of_Z n)) n).
    - rewrite round_div_multiple by lia. reflexivity.
    - cbn [new_Decimal]. rewrite Hdec. reflexivity.
    - lia.
    - rewrite Z.abs_mul, (Z.abs_eq n) by lia. lia. }
  destruct (normalise_value (minorUnits c) A) as (z & s & Hz & _).
  assert (Hmajor : Money.toMajorDecimal (money A c) = Fin z s).
  { rewrite toMajorDecimal_exact by (change (10 ^ 40) with (10 ^ 39 * 10); lia).
    exact Hz. }
  unfold Money.variance. rewrite Hcons at 1. rewrite Havg. cbn [bind currency money].
  rewrite Hmajor, (squares_of_zero (Fin z s)).
  - rewrite length_map, Hlen, Hdec.
    assert (Hq : div (Fin 0 0) (Fin n 0) = Fin 0 0).
    { unfold div. destruct (Z.eqb_spec n 0); [lia|].
      cbn [Z.mul]. destruct (0 <? n * pow10 0); reflexivity. }
    rewrite Hq. unfold Money.fromMajor. rewrite (table_entry k c Hk).
    cbn [new_Decimal bind]. unfold ten_pow.
    rewrite mul_int_exact by (rewrite Z.mul_0_l; vm_compute; reflexivity).
    rewrite Z.mul_0_l, normalise_zero. reflexivity.
  - apply List.Forall_forall. intros m Hm. apply in_map_iff in Hm as (a & <- & Ha).
    assert (a = A).
    { unfold l in Ha. destruct Ha as [Ha | Ha]; [congruence|].
      apply repeat_spec in Ha. exact Ha. }
    subst a. exists z, s. split; [exact Hmajor | reflexivity].
Qed.

Lemma variance_of_equal_values_witness :
  CURRENCIES !! "JPY"%string = Some JPY
  /\ 1 <= 3 <= 10000
  /\ Money.variance (map (fun a => money a JPY) (repeat 1200 (Z.to_nat 3)))
     = Ok (money 0 JPY).
Proof.
  assert (H1 : CURRENCIES !! "JPY"%string = Some JPY) by (vm_compute; reflexivity).
  assert (H2 : 1 <= 3 <= 10000) by lia.
  assert (H3 : Z.abs 1200 * 3 < 10 ^ 39) by (vm_compute; reflexivity).
  split; [exact H1|]. split; [exact H2|].
  exact (variance_of_equal_values "JPY" JPY 1200 3 H1 H2 H3).
Defined.
